(** * LlamaSearch AI: the search, scheduler and vector services

  A shallow embedding of
    - [services/search.py]    (SearchService),
    - [services/scheduler.py] (SchedulerService: the next run and the jobs),
    - [services/vector.py]    (VectorService),
    - [api/routes/search.py]  (the search and the analysis endpoints),
  together with the pydantic models of [models/search.py] and
  [models/vector.py] that these services build.

  Conventions.
    - A Python [dict] is insertion ordered; it is an association list
      whose keys are pairwise distinct ([Py.Dict], [Py.wf]).
    - A Python [int] is a [Z]; [len] is [Z.of_nat (length _)].
    - Exceptions are values of [Py.exn]; a call that may raise returns
      [Py.result].
    - A Python [float] that a service computes for a response, the score
      of a vector search, is a binary64 number ([float], with the
      operations of IEEE 754).  The floats that are only carried along
      (random samples, clock readings, weights) are rationals ([Q]).
    - A [datetime] is a number of microseconds ([Z]), a [timedelta] too;
      the bounds of the type are not modelled.  The ISO string of an
      instant is kept as the instant.
    - A [str] is a [string] of ASCII characters.
    - [uuid4()], [datetime.utcnow()], [time.time()] and the random number
      generators read an explicit [World]; the logger and the creation of
      tasks add to a list of events.
    - The tasks that [search] starts run one after the other, in the order
      of their creation: the provider calls of the source never suspend. *)

From Stdlib Require Import Floats.
From Stdlib Require Import List ZArith String Ascii Bool Lia Permutation QArith.
From Stdlib Require Import DecimalString Qround Qabs Lqa Sorted.
From Equations Require Import Equations.
From Equations.Prop Require Import Logic.
Import ListNotations.

Set Implicit Arguments.
Local Open Scope Z_scope.

(* ===================================================================== *)
(** ** Python values, dictionaries and exceptions *)
(* ===================================================================== *)

Module Py.

(** The exceptions that the modelled code raises or catches. *)
Inductive exn : Type :=
| ValueError (msg : string)
| KeyError (key : string)
| IndexError (msg : string)
| ValidationError (model : string) (fields : list string)
| ProviderError (msg : string).

Inductive result (A : Type) : Type :=
| Ok (a : A)
| Raise (e : exn).
Arguments Ok {A} a.
Arguments Raise {A} e.

Definition bind {A B} (m : result A) (k : A -> result B) : result B :=
  match m with
  | Ok a => k a
  | Raise e => Raise e
  end.

(** [dict]: insertion-ordered association list. *)
Definition Dict (V : Type) : Type := list (string * V).

Definition keys {V} (d : Dict V) : list string := map fst d.
Definition values {V} (d : Dict V) : list V := map snd d.

(** Keys of a dictionary are pairwise distinct. *)
Definition wf {V} (d : Dict V) : Prop := NoDup (keys d).

(** [d.get(k)] / [k in d]. *)
Fixpoint get {V} (d : Dict V) (k : string) : option V :=
  match d with
  | [] => None
  | (k', v) :: d' => if String.eqb k k' then Some v else get d' k
  end.

Definition mem {V} (k : string) (d : Dict V) : bool :=
  match get d k with Some _ => true | None => false end.

(** [d[k] = v]: an existing key keeps its position, a new one goes last. *)
Fixpoint set {V} (d : Dict V) (k : string) (v : V) : Dict V :=
  match d with
  | [] => [(k, v)]
  | (k', v') :: d' =>
      if String.eqb k k' then (k', v) :: d' else (k', v') :: set d' k v
  end.

(** [d[k]], raising [KeyError] on a missing key. *)
Definition item {V} (d : Dict V) (k : string) : result V :=
  match get d k with
  | Some v => Ok v
  | None => Raise (KeyError k)
  end.

(** [len(l)]. *)
Definition len {A} (l : list A) : Z := Z.of_nat (List.length l).

(** [float(i)] for an [int], as in [i * 0.05]: the binary64 number that is
    nearest to [i], the even one of two that are as near. *)
Definition float_of_int (i : Z) : float :=
  SF2Prim (binary_normalize prec emax i 0 false).
Arguments float_of_int : simpl never.

(** Truthiness of a string ([if s:]). *)
Definition truthy_str (s : string) : bool :=
  match s with EmptyString => false | String _ _ => true end.

(** [s.lower()] on ASCII. *)
Definition lower_ascii (c : ascii) : ascii :=
  let n := nat_of_ascii c in
  if (65 <=? n)%nat && (n <=? 90)%nat then ascii_of_nat (n + 32) else c.

Fixpoint lower (s : string) : string :=
  match s with
  | EmptyString => EmptyString
  | String c s' => String (lower_ascii c) (lower s')
  end.

End Py.

Import Py.

Notation "x <- m ;; k" := (Py.bind m (fun x => k))
(at level 61, m at next level, right associativity).

(* ===================================================================== *)
(** ** SearchService._combine_results *)
(* ===================================================================== *)

Module Combine.
Section Combine.

(** The function never inspects a result, so it is modelled for any
    element type; [SearchService] uses it at [SearchResult].  The lists
    that the dictionary holds are distinct objects, as the lists that
    [search] passes are. *)
Variable A : Type.

(** Total number of results held by the providers' lists. *)
Definition total (d : Dict (list A)) : nat :=
  List.length (List.concat (values d)).

(** The local variables that the loops of [_combine_results] update.
    [provider_results] is the caller's dictionary: [pop(0)] mutates the
    lists it holds. *)
Record state : Type := mkState {
  provider_results : Dict (list A);
  all_results : list A;
  added_any : bool
}.

(** The [for provider in providers] loop of one round; a [break] returns
    the state at once, a [continue] goes on with the same state. *)
Fixpoint for_providers (num_results : Z) (providers : list string)
         (st : state) : result state :=
  match providers with
  | [] => Ok st
  | provider :: rest =>
      provider_list <- item (provider_results st) provider ;;
      match provider_list with
      | [] => for_providers num_results rest st            (* continue *)
      | res :: provider_list' =>                           (* pop(0) *)
          let st' :=
            mkState (set (provider_results st) provider provider_list')
                    (all_results st ++ [res]) true in
          if len (all_results st') >=? num_results
          then Ok st'                                       (* break *)
          else for_providers num_results rest st'
      end
  end.

(** Replacing the list of a provider by its tail removes one result. *)
Lemma total_set_pop (d : Dict (list A)) (k : string) (x : A) (l : list A) :
  get d k = Some (x :: l) -> S (total (set d k l)) = total d.
Proof.
  unfold total, values.
  induction d as [|[k' v] d IH]; simpl; [discriminate|].
  destruct (String.eqb k k') eqn:E; simpl.
  - intros [= ->]. simpl. reflexivity.
  - intros H. rewrite !length_app in *. rewrite <- (IH H). lia.
Qed.

(** A round never adds results to the providers' lists, and a round that
    sets [added_any] has removed at least one. *)
Lemma for_providers_total (num_results : Z) (providers : list string) :
  forall st st',
    for_providers num_results providers st = Ok st' ->
    (total (provider_results st') <= total (provider_results st))%nat /\
    (added_any st' = true ->
     added_any st = true \/
     (total (provider_results st') < total (provider_results st))%nat).
Proof.
  induction providers as [|p ps IH]; simpl; intros st st' H.
  - injection H as <-. split; [lia | auto].
  - unfold item in H. destruct (get (provider_results st) p) as [[|x l]|] eqn:G;
      simpl in H; try discriminate.
    + apply IH; assumption.
    + pose proof (total_set_pop _ _ G) as T.
      destruct (len _ >=? num_results).
      * injection H as <-. simpl. split; [lia | intros _; right; lia].
      * apply IH in H. simpl in H. destruct H as [H1 H2].
        split; [lia | intros _; right; lia].
Qed.

(** The [while len(all_results) < num_results] loop.  Each iteration that
    goes round again has popped a result, so the loop terminates. *)
Equations? while_loop (num_results : Z) (providers : list string)
  (st : state) : result state by wf (total (provider_results st)) lt :=
while_loop num_results providers st with (len (all_results st) <? num_results) := {
  | false := Ok st
  | true with inspect (for_providers num_results providers
                         (mkState (provider_results st) (all_results st) false)) := {
    | exist _ (Raise e) _ := Raise e
    | exist _ (Ok st') Hfor with inspect (added_any st') := {
      | exist _ false _ := Ok st'                            (* break *)
      | exist _ true Hadd := while_loop num_results providers st' } } }.
Proof.
  apply for_providers_total in Hfor. simpl in Hfor.
  destruct Hfor as [_ [Hf|Hf]]; [congruence | discriminate | exact Hf].
Qed.

(** [_combine_results(provider_results, num_results)]: the list returned
    and the caller's dictionary as the call leaves it. *)
Definition _combine_results (provider_results : Dict (list A))
  (num_results : Z) : result (list A * Dict (list A)) :=
  let providers := keys provider_results in
  st <- while_loop num_results providers (mkState provider_results [] false) ;;
  Ok (all_results st, Combine.provider_results st).

(** *** The interleaving, as the specification words it

    Round [k] takes the [k]-th result of every provider that still has
    one, in the providers' order; the rounds follow each other until the
    lists are exhausted, and the requested count cuts the outcome. *)
Definition nth_round (k : nat) (ls : list (list A)) : list A :=
  flat_map (fun l => match nth_error l k with Some x => [x] | None => [] end) ls.

Definition max_len (ls : list (list A)) : nat :=
  fold_right (fun l m => Nat.max (List.length l) m) 0%nat ls.

Definition round_robin (ls : list (list A)) : list A :=
  flat_map (fun k => nth_round k ls) (seq 0 (max_len ls)).

Definition interleaved (ls : list (list A)) (n : nat) : list A :=
  firstn n (round_robin ls).

(** *** One round over the lists alone

    What [for_providers] does to the lists of a well-formed dictionary
    when [providers] are its keys: the same loop without the lookups. *)
Fixpoint round_items (num_results : Z) (ls : list (list A)) (all : list A)
  (added : bool) : list (list A) * list A * bool :=
  match ls with
  | [] => ([], all, added)
  | [] :: rest =>
      let '(rest', all', added') := round_items num_results rest all added in
      ([] :: rest', all', added')
  | (x :: l) :: rest =>
      if len (all ++ [x]) >=? num_results then (l :: rest, all ++ [x], true)
      else
        let '(rest', all', added') :=
          round_items num_results rest (all ++ [x]) true in
        (l :: rest', all', added')
  end.

End Combine.
End Combine.


(* ===================================================================== *)
(** ** The world outside: identifiers, clock, randomness, log *)
(* ===================================================================== *)

Module Env.

(** What the logger receives and the tasks that are started. *)
Inductive Level : Type := DEBUG | INFO | WARNING | ERROR.

(** A log record keeps the text of the message and the values that the
    f-string interpolates. *)
Inductive Event : Type :=
| Log (level : Level) (msg : string) (args : list string)
| LogExn (level : Level) (msg : string) (args : list string) (e : exn)
| CreateTask (provider : string) (query : string) (num_results : Z).

(** Every reading of the outside takes the next value of an oracle. *)
Record World : Type := mkWorld {
  tick : nat;
  uuid_at : nat -> string;            (* str(uuid4()) *)
  utc_at : nat -> Z;                  (* datetime.utcnow(), microseconds *)
  time_at : nat -> Q;                 (* time.time(), seconds *)
  gauss_at : nat -> nat -> Q          (* a normal sample per call and index *)
}.

(** What a computation leaves: a value or an exception, the world after
    it, and the events it has added. *)
Record Out (A : Type) : Type := mkOut {
  value : result A;
  world : World;
  events : list Event
}.
Arguments mkOut {A} value world events.
Arguments value {A} o.
Arguments world {A} o.
Arguments events {A} o.

(** Computations that read the world, log, and may raise. *)
Definition M (A : Type) : Type := World -> Out A.

Definition ret {A} (a : A) : M A := fun w => mkOut (Ok a) w [].

Definition raise {A} (e : exn) : M A := fun w => mkOut (Raise e) w [].

Definition mbind {A B} (m : M A) (k : A -> M B) : M B :=
  fun w =>
    let o := m w in
    match value o with
    | Ok a =>
        let o' := k a (world o) in
        mkOut (value o') (world o') (events o ++ events o')
    | Raise e => mkOut (Raise e) (world o) (events o)
    end.

Definition lift {A} (r : result A) : M A := fun w => mkOut r w [].

(** [try: m except Exception as e: h e]. *)
Definition try_except {A} (m : M A) (h : exn -> M A) : M A :=
  fun w =>
    let o := m w in
    match value o with
    | Ok a => o
    | Raise e =>
        let o' := h e (world o) in
        mkOut (value o') (world o') (events o ++ events o')
    end.

Definition next (w : World) : World :=
  mkWorld (S (tick w)) (uuid_at w) (utc_at w) (time_at w) (gauss_at w).

Definition uuid4 : M string :=
  fun w => mkOut (Ok (uuid_at w (tick w))) (next w) [].
Definition utcnow : M Z :=
  fun w => mkOut (Ok (utc_at w (tick w))) (next w) [].
Definition time_time : M Q :=
  fun w => mkOut (Ok (time_at w (tick w))) (next w) [].

(** [np.random.randn(dim).tolist()] and [mx.random.normal(shape=(dim,))]. *)
Definition randn (dim : nat) : M (list Q) :=
  fun w => mkOut (Ok (map (gauss_at w (tick w)) (seq 0 dim))) (next w) [].

(** [for x in xs: f x], collecting what the body returns. *)
Fixpoint for_each {A B} (f : A -> M B) (xs : list A) : M (list B) :=
  match xs with
  | [] => ret []
  | x :: xs' =>
      mbind (f x) (fun b => mbind (for_each f xs') (fun bs => ret (b :: bs)))
  end.

(** [range(n)]. *)
Definition range (n : Z) : list Z := map Z.of_nat (seq 0 (Z.to_nat n)).

(** [str(n)] for an [int]. *)
Definition str (n : Z) : string := NilZero.string_of_int (Z.to_int n).

Definition emit (e : Event) : M unit := fun w => mkOut (Ok tt) w [e].

End Env.

Import Env.

Notation "x <-- m ;; k" := (Env.mbind m (fun x => k))
(at level 61, m at next level, right associativity).
Notation "m ;;; k" := (Env.mbind m (fun _ => k))
(at level 61, right associativity).

(* ===================================================================== *)
(** ** models/search.py *)
(* ===================================================================== *)

Module Models.

(** The values that the search service puts where a model declares [Any]
    or a [Dict[str, Any]]: numbers, strings and dictionaries of them. *)
#[warnings="-register-all"]
Inductive PyVal : Type :=
| PyFloat (q : Q)
| PyInt (z : Z)
| PyStr (s : string)
| PyDict (d : list (string * PyVal)).

(** pydantic's validation of a [Dict[str, Any]] field: a [dict] is kept,
    anything else goes through [dict(v)], which accepts the empty string
    and refuses numbers and other strings. *)
Definition dict_validator (v : PyVal) : option (Dict PyVal) :=
  match v with
  | PyDict d => Some d
  | PyStr EmptyString => Some []
  | PyStr (String _ _) => None
  | PyFloat _ => None
  | PyInt _ => None
  end.

Inductive SearchResultType : Type :=
| WEB | IMAGE | VIDEO | NEWS | DOCUMENT | SOCIAL | PRODUCT | OTHER.

Module SearchIntent.
Inductive t : Type :=
| INFORMATIONAL | NAVIGATIONAL | TRANSACTIONAL | COMMERCIAL
| LOCAL | VISUAL | NEWS | UNDEFINED.
End SearchIntent.

Module SearchLocality.
Inductive t : Type :=
| GLOBAL | LOCAL | REGIONAL | NATIONAL | UNDEFINED.
End SearchLocality.

Record Query : Type := mkQuery {
  text : string;
  intent : SearchIntent.t;
  locality : SearchLocality.t;
  language : string;
  query_id : option string;
  timestamp : option Z;
  processed_text : option string;
  parameters : Dict PyVal;
  context : Dict PyVal
}.

(** [Query(text=text)]: every other field takes its declared default. *)
Definition Query_of_text (text : string) : Query :=
  mkQuery text SearchIntent.UNDEFINED SearchLocality.UNDEFINED "en"
          None None None [] [].

Record SearchResult : Type := mkSearchResult {
  title : string;
  url : string;
  snippet : string;
  provider : string;
  rank : Z;
  sr_timestamp : option Z;
  sr_metadata : Dict PyVal;
  content_type : SearchResultType;
  is_ad : bool;
  cached_url : option string;
  attribution : option (Dict string);
  dark_pattern_flags : list string;
  result_id : option string
}.

Inductive QueryArg : Type :=
| QText (s : string)
| QObject (q : Query).

Record SearchRequest : Type := mkSearchRequest {
  query : QueryArg;
  num_results : Z;
  providers : option (list string);
  req_parameters : Dict PyVal
}.

Record BiasAnalysis : Type := mkBiasAnalysis {
  provider_bias : Dict PyVal;
  commercial_bias : Dict PyVal;
  source_bias : Dict PyVal;
  dark_patterns : Dict PyVal
}.

(** [BiasAnalysis(...)] on its keyword arguments: each declared field is
    validated as a dictionary (an absent one is the empty dictionary), a
    keyword that names no field is ignored, and the fields that fail are
    reported together in one [ValidationError]. *)
Definition BiasAnalysis_init (kwargs : Dict PyVal) : result BiasAnalysis :=
  let field (name : string) : option (Dict PyVal) :=
    match get kwargs name with
    | None => Some []
    | Some v => dict_validator v
    end in
  let names := ["provider_bias"; "commercial_bias"; "source_bias";
                "dark_patterns"]%string in
  match field "provider_bias"%string, field "commercial_bias"%string,
        field "source_bias"%string, field "dark_patterns"%string with
  | Some a, Some b, Some c, Some d => Ok (mkBiasAnalysis a b c d)
  | _, _, _, _ =>
      Raise (ValidationError "BiasAnalysis"
               (filter (fun n => match field n with
                                 | None => true
                                 | Some _ => false
                                 end) names))
  end.

(** [SearchMetadata], with the fields of [Metadata] it inherits. *)
Record SearchMetadata : Type := mkSearchMetadata {
  processing_time : Q;
  md_timestamp : Z;
  request_id : string;
  source : option string;
  version : option string;
  query_processing_time : Q;
  engine_selection_time : Q;
  engines_used : list string;
  result_counts : Dict Z;
  aggregation_strategy : string;
  deduplication_stats : Dict PyVal;
  bias_analysis : option BiasAnalysis
}.

Record SearchResponse : Type := mkSearchResponse {
  results : list SearchResult;
  metadata : SearchMetadata;
  resp_query : Query
}.

End Models.

Import Models.

(* ===================================================================== *)
(** ** services/search.py: the providers *)
(* ===================================================================== *)

Module SearchService.

Record ProviderConfig : Type := mkProviderConfig {
  enabled : bool;
  weight : Q;
  endpoint : string
}.

Record Settings : Type := mkSettings {
  GOOGLE_API_KEY : option string;
  GOOGLE_CX : option string;
  BING_API_KEY : option string
}.

Record t : Type := mkService {
  _google_api_key : option string;
  _google_cx : option string;
  _bing_api_key : option string;
  _providers : Dict ProviderConfig
}.

(** Truthiness of an [Optional[str]]. *)
Definition truthy (o : option string) : bool :=
  match o with
  | Some s => truthy_str s
  | None => false
  end.

Definition __init__ (settings : Settings) : M t :=
  let providers := [] in
  let providers :=
    if truthy (GOOGLE_API_KEY settings) && truthy (GOOGLE_CX settings)
    then set providers "google"
           (mkProviderConfig true 1 "https://www.googleapis.com/customsearch/v1")
    else providers in
  let providers :=
    if truthy (BING_API_KEY settings)
    then set providers "bing"
           (mkProviderConfig true 1 "https://api.bing.microsoft.com/v7.0/search")
    else providers in
  emit (Log INFO
            "SearchService initialized with providers: {list(self._providers.keys())}"
            (keys providers)) ;;;
  ret (mkService (GOOGLE_API_KEY settings) (GOOGLE_CX settings)
                 (BING_API_KEY settings) providers).

(** The mock result number [i] (from 0) of Google Custom Search. *)
Definition google_result (query : string) (i : Z) : M SearchResult :=
  now <-- utcnow ;;
  uuid <-- uuid4 ;;
  ret (mkSearchResult
         ("Google Result " ++ str (i + 1) ++ " for " ++ query)
         ("https://example.com/google-result" ++ str (i + 1))
         ("This is a Google search result snippet for " ++ query)
         "google" (i + 1) (Some now)
         [("relevance_score", PyFloat ((95 # 100) - inject_Z i * (5 # 100)));
          ("page_rank", PyInt (8 - i))]
         WEB false None None [] (Some ("google-" ++ uuid)))%string.

Definition _search_google (self : t) (query : string) (num_results : Z)
  : M (list SearchResult) :=
  if negb (truthy (_google_api_key self)) || negb (truthy (_google_cx self))
  then
    emit (Log ERROR "Google search API key or CX not configured" []) ;;;
    ret []
  else
    try_except
      (for_each (google_result query) (range (Z.min num_results 10)))
      (fun e => emit (LogExn ERROR "Error searching Google: {e}" [] e) ;;; ret []).

(** The mock result number [i] (from 0) of the Bing Search API. *)
Definition bing_result (query : string) (i : Z) : M SearchResult :=
  now <-- utcnow ;;
  uuid <-- uuid4 ;;
  ret (mkSearchResult
         ("Bing Result " ++ str (i + 1) ++ " for " ++ query)
         ("https://example.com/bing-result" ++ str (i + 1))
         ("This is a Bing search result snippet for " ++ query)
         "bing" (i + 1) (Some now)
         [("relevance_score", PyFloat ((93 # 100) - inject_Z i * (4 # 100)));
          ("freshness_score", PyFloat ((85 # 100) - inject_Z i * (3 # 100)))]
         WEB false None None [] (Some ("bing-" ++ uuid)))%string.

Definition _search_bing (self : t) (query : string) (num_results : Z)
  : M (list SearchResult) :=
  if negb (truthy (_bing_api_key self))
  then
    emit (Log ERROR "Bing search API key not configured" []) ;;;
    ret []
  else
    try_except
      (for_each (bing_result query) (range (Z.min num_results 10)))
      (fun e => emit (LogExn ERROR "Error searching Bing: {e}" [] e) ;;; ret []).

Definition _search_provider (self : t) (provider : string) (query : string)
  (num_results : Z) : M (list SearchResult) :=
  if negb (mem provider (_providers self))
  then
    emit (Log WARNING "Provider {provider} not configured" [provider]) ;;;
    ret []
  else
    emit (Log DEBUG "Searching with provider: {provider}, query: '{query}'"
              [provider; query]) ;;;
    if String.eqb provider "google" then _search_google self query num_results
    else if String.eqb provider "bing" then _search_bing self query num_results
    else
      emit (Log WARNING "Unknown provider: {provider}" [provider]) ;;;
      ret [].

(* --------------------------------------------------------------------- *)
(** *** SearchService.search *)

(** The call that a task makes for one provider.  [search] is stated over
    any such call, so that what it does with a call that raises can be
    said; the service's own call is [_search_provider]. *)
Definition ProviderCall : Type := string -> string -> Z -> M (list SearchResult).

(** A task that has run: what [await task] will return or raise. *)
Definition Task : Type := result (list SearchResult).

(** The body of one task; what it raises stays in the task. *)
Definition run_task (call : ProviderCall) (query_text : string)
  (num_results : Z) (provider : string) : M (string * Task) :=
  fun w =>
    let o := call provider query_text num_results w in
    mkOut (Ok (provider, value o)) (world o) (events o).

(** [await] every task of [provider_tasks], with the handler of the source:
    a task that raised is logged and counts as no result. *)
Fixpoint await_all (tasks : Dict Task)
  (provider_results : Dict (list SearchResult))
  : M (Dict (list SearchResult)) :=
  match tasks with
  | [] => ret provider_results
  | (provider, task) :: rest =>
      match task with
      | Ok res => await_all rest (set provider_results provider res)
      | Raise e =>
          emit (LogExn ERROR "Error searching with provider {provider}: {e}"
                       [provider] e) ;;;
          await_all rest (set provider_results provider [])
      end
  end.

(** What [search] has computed when it starts to assemble the response
    (lines 78 to 138 of the source). *)
Record Gathered : Type := mkGathered {
  g_query : Query;
  g_enabled_providers : list string;
  g_provider_results : Dict (list SearchResult);
  g_results : list SearchResult;
  g_processing_time : Q;
  g_result_counts : Dict Z
}.

Definition is_enabled (self : t) (p : string) : bool :=
  match get (_providers self) p with
  | Some cfg => enabled cfg
  | None => false
  end.

(** [request.providers or list(self._providers.keys())]. *)
Definition providers_to_use (self : t) (request : SearchRequest)
  : list string :=
  match providers request with
  | Some (p :: ps) => p :: ps
  | Some [] | None => keys (_providers self)
  end.

(** The providers of the request that are configured and enabled. *)
Definition enabled_among (self : t) (providers_to_use : list string)
  : list string :=
  filter (is_enabled self) providers_to_use.

(** Lines 95 to 107, "Determine which providers to use": when the request
    selects no enabled provider, every configured provider is used. *)
Definition select_providers (self : t) (request : SearchRequest)
  : M (list string) :=
  let providers_to_use := providers_to_use self request in
  let enabled_providers := enabled_among self providers_to_use in
  match enabled_providers with
  | [] =>
      emit (Log WARNING
              "No enabled providers found among requested: {providers_to_use}"
              providers_to_use) ;;;
      ret (keys (_providers self))
  | _ :: _ => ret enabled_providers
  end.

(** Lines 109 to 126, "Execute searches in parallel" and "Wait for all
    searches to complete": one task per provider, started in this order (a
    provider named twice keeps its last task in [provider_tasks]); then
    every task of [provider_tasks] is awaited. *)
Definition fan_out (call : ProviderCall) (enabled_providers : list string)
  (query_text : string) (num_results : Z) : M (Dict (list SearchResult)) :=
  for_each (fun p => emit (CreateTask p query_text num_results))
           enabled_providers ;;;
  tasks <-- for_each (run_task call query_text num_results)
                     enabled_providers ;;
  let provider_tasks :=
    fold_left (fun d pt => set d (fst pt) (snd pt)) tasks [] in
  await_all provider_tasks [].

(** Lines 78 to 138. *)
Definition search_gather (self : t) (call : ProviderCall)
  (request : SearchRequest) : M Gathered :=
  match _providers self with
  | [] => raise (ValueError "No search providers are configured")
  | _ :: _ =>
      let query_text :=
        match query request with QObject q => text q | QText s => s end in
      let query :=
        match query request with
        | QObject q => q
        | QText _ => Query_of_text query_text
        end in
      start_time <-- time_time ;;
      enabled_providers <-- select_providers self request ;;
      provider_results <--
        fan_out call enabled_providers query_text (num_results request) ;;
      combined <-- lift (Combine._combine_results provider_results
                                                  (num_results request)) ;;
      let '(results, provider_results) := combined in
      end_time <-- time_time ;;
      let processing_time := (end_time - start_time)%Q in
      (* the lists are counted after [_combine_results] has popped them *)
      let result_counts :=
        map (fun pr => (fst pr, len (snd pr))) provider_results in
      let result_counts := set result_counts "total" (len results) in
      ret (mkGathered query enabled_providers provider_results results
                      processing_time result_counts)
  end.

(** Lines 140 to 175: the metadata and the response.  [results_count] and
    [search_processing_time] name no field of [SearchMetadata]: pydantic
    ignores them, and [result_counts] keeps its default. *)
Definition search_assemble (g : Gathered) : M SearchResponse :=
  bias_analysis <-- lift (BiasAnalysis_init
                            [("provider_bias", PyFloat (1 # 10));
                             ("commercial_bias", PyFloat (2 # 10));
                             ("source_bias", PyFloat (15 # 100));
                             ("dark_patterns_detected", PyInt 0)]%string) ;;
  let deduplication_stats :=
    [("duplicates_found", PyInt 0); ("removed", PyInt 0)]%string in
  request_id <-- uuid4 ;;
  now <-- utcnow ;;
  let search_processing_time := (g_processing_time g - (5 # 100))%Q in
  let metadata :=
    mkSearchMetadata (g_processing_time g) now request_id
                     (Some "llamasearch-api"%string) (Some "0.1.0"%string)
                     (5 # 100) 0 (g_enabled_providers g) []
                     "interleaved" deduplication_stats (Some bias_analysis) in
  ret (mkSearchResponse (g_results g) metadata (g_query g)).

Definition search (self : t) (call : ProviderCall) (request : SearchRequest)
  : M SearchResponse :=
  g <-- search_gather self call request ;;
  search_assemble g.

(* --------------------------------------------------------------------- *)
(** *** SearchService.analyze_query *)

Definition analyze_query (self : t) (query_text : string) : M Query :=
  uuid <-- uuid4 ;;
  now <-- utcnow ;;
  ret (mkQuery query_text SearchIntent.INFORMATIONAL SearchLocality.GLOBAL
               "en" (Some uuid) (Some now) (Some (lower query_text)) [] []).

End SearchService.

(* ===================================================================== *)
(** ** services/scheduler.py *)
(* ===================================================================== *)

Module SchedulerService.

(** Modelled from the spec: [models/scheduler.py] is not among the sources.
    [Schedule] has the three attributes that [_calculate_next_run] reads,
    each of them optional: a [datetime], an [int] and a [str]. *)
Record Schedule : Type := mkSchedule {
  run_once_at : option Z;
  interval_seconds : option Z;
  cron_expression : option string
}.

(** [timedelta(seconds=n)] and [timedelta(minutes=n)], in microseconds. *)
Definition timedelta_seconds (n : Z) : Z := n * 1000000.
Definition timedelta_minutes (n : Z) : Z := timedelta_seconds (n * 60).

Definition _calculate_next_run (schedule : Schedule) : M (option Z) :=
  now <-- utcnow ;;
  (* if schedule.cron_expression: ... ; return None *)
  let from_cron :=
    match cron_expression schedule with
    | Some expr =>
        if truthy_str expr then Some (now + timedelta_minutes 5) else None
    | None => None
    end in
  (* if schedule.interval_seconds: ... *)
  let from_interval :=
    match interval_seconds schedule with
    | Some n =>
        if negb (n =? 0) then Some (now + timedelta_seconds n) else from_cron
    | None => from_cron
    end in
  (* if schedule.run_once_at: ... (a datetime is always true) *)
  match run_once_at schedule with
  | Some at_ => ret (if at_ >? now then Some at_ else None)
  | None => ret from_interval
  end.

End SchedulerService.

(* ===================================================================== *)
(** ** models/vector.py *)
(* ===================================================================== *)

Module VectorModels.

(** The values of a [Dict[str, Any]] of the vector models. *)
#[warnings="-register-all"]
Inductive Any : Type :=
| AStr (s : string)
| AInt (z : Z)
| AFloat (q : Q)
| ABool (b : bool)
| AList (l : list Any)
| ADict (d : list (string * Any)).

(** Truthiness of a value. *)
Definition truthy_any (v : Any) : bool :=
  match v with
  | AStr s => truthy_str s
  | AInt z => negb (z =? 0)
  | AFloat q => negb (Qeq_bool q 0)
  | ABool b => b
  | AList l => match l with [] => false | _ :: _ => true end
  | ADict d => match d with [] => false | _ :: _ => true end
  end.

(** [Metadata] of [models/common.py]. *)
Module Metadata.
Record t : Type := mk {
  processing_time : Q;
  timestamp : Z;
  request_id : string;
  source : option string;
  version : option string
}.
End Metadata.

Inductive TextArg : Type :=
| OneText (text : string)
| Texts (texts : list string).

Module EmbedRequest.
Record t : Type := mk {
  text : TextArg;
  model : option string;
  normalize : bool;
  parameters : Dict Any
}.
End EmbedRequest.

Module Embedding.
Record t : Type := mk {
  vector : list Q;
  text : string;
  model : string;
  dimensions : Z
}.
End Embedding.

Module EmbeddingMetadata.
Record t : Type := mk {
  base : Metadata.t;
  model : string;
  dimensions : Z;
  normalized : bool;
  batch_size : option Z
}.
End EmbeddingMetadata.

Module EmbedResponse.
Record t : Type := mk {
  embeddings : list Embedding.t;
  metadata : EmbeddingMetadata.t
}.
End EmbedResponse.

Inductive QueryArg : Type :=
| QueryText (text : string)
| QueryVector (vector : list Q).

Module VectorSearchRequest.
Record t : Type := mk {
  query : QueryArg;
  collection : string;
  num_results : Z;
  filter : option (Dict Any);
  parameters : Dict Any
}.
End VectorSearchRequest.

Module VectorRecord.
Record t : Type := mk {
  id : string;
  vector : option (list Q);
  score : option float;
  metadata : Dict Any
}.
End VectorRecord.

Module VectorSearchMetadata.
Record t : Type := mk {
  base : Metadata.t;
  collection : string;
  index_type : string;
  vector_dimensions : Z;
  total_vectors_searched : Z;
  filtered_vectors : Z
}.
End VectorSearchMetadata.

Module VectorSearchResponse.
Record t : Type := mk {
  results : list VectorRecord.t;
  metadata : VectorSearchMetadata.t
}.
End VectorSearchResponse.

Module UpsertVectorsRequest.
Record t : Type := mk {
  collection : string;
  vectors : list VectorRecord.t;
  create_collection : bool
}.
End UpsertVectorsRequest.

Module UpsertVectorsResponse.
Record t : Type := mk {
  inserted_count : Z;
  updated_count : Z;
  collection : string;
  metadata : Metadata.t
}.
End UpsertVectorsResponse.

End VectorModels.

Import VectorModels.

(* ===================================================================== *)
(** ** services/vector.py *)
(* ===================================================================== *)

Module VectorService.

(** An entry of [self._collections]. *)
Record CollectionInfo : Type := mkCollectionInfo {
  dimension : Z;
  index_type : string;
  vector_count : Z;
  created_at : Z;
  description : option string
}.

Record t : Type := mkService {
  _openai_api_key : option string;
  _default_model : string;
  _vector_db_url : option string;
  _vector_db_type : string;
  _use_mlx : bool;
  _collections : Dict CollectionInfo
}.

Definition with_collections (self : t) (c : Dict CollectionInfo) : t :=
  mkService (_openai_api_key self) (_default_model self) (_vector_db_url self)
            (_vector_db_type self) (_use_mlx self) c.

Definition _get_embedding_dimension (model : string) : Z :=
  let model_dimensions :=
    [("text-embedding-ada-002", 1536); ("text-embedding-3-small", 1536);
     ("text-embedding-3-large", 3072); ("gpt-3.5-turbo", 1536);
     ("gpt-4", 1536); ("all-mpnet-base-v2", 768);
     ("all-MiniLM-L6-v2", 384)]%string in
  match get model_dimensions model with
  | Some d => d
  | None => 384
  end.

(** [int(x)] for a float: truncation towards zero. *)
Definition int_of_float (q : Q) : Z :=
  if Qle_bool 0 q then Qfloor q else Qceiling q.

Section WithNumpy.

(** [np.linalg.norm], a square root, is a parameter. *)
Variable np_linalg_norm : list Q -> Q.

(** A random vector, from MLX or from NumPy. *)
Definition random_vector (self : t) (dim : Z) : M (list Q) :=
  if _use_mlx self then randn (Z.to_nat dim) else randn (Z.to_nat dim).

Definition embed_text (self : t) (request : EmbedRequest.t) (model : string)
  (embedding_dim : Z) (text : string) : M Embedding.t :=
  vector <-- random_vector self embedding_dim ;;
  let vector :=
    if EmbedRequest.normalize request
    then let norm := np_linalg_norm vector in
         map (fun v => (v / norm)%Q) vector
    else vector in
  ret (Embedding.mk vector text model embedding_dim).

Definition create_embeddings (self : t) (request : EmbedRequest.t)
  : M EmbedResponse.t :=
  start_time <-- time_time ;;
  let texts :=
    match EmbedRequest.text request with
    | Texts l => l
    | OneText s => [s]
    end in
  let model :=
    match EmbedRequest.model request with
    | Some m => if truthy_str m then m else _default_model self
    | None => _default_model self
    end in
  let embedding_dim := _get_embedding_dimension model in
  embeddings <-- for_each (embed_text self request model embedding_dim) texts ;;
  end_time <-- time_time ;;
  let processing_time := (end_time - start_time)%Q in
  request_id <-- uuid4 ;;
  now <-- utcnow ;;
  let metadata :=
    EmbeddingMetadata.mk
      (Metadata.mk processing_time now request_id
                   (Some "llamasearch-api"%string) (Some "0.1.0"%string))
      model embedding_dim (EmbedRequest.normalize request)
      (Some (len texts)) in
  ret (EmbedResponse.mk embeddings metadata).

(** The mock record number [i] (from 0) of a search. *)
#[warnings="-inexact-float"]
Definition search_record (self : t) (request : VectorSearchRequest.t)
  (query_vector : list Q) (i : Z) : M VectorRecord.t :=
  vector <-- random_vector self (len query_vector) ;;
  let score := (0.95 - (float_of_int i * 0.05))%float in
  now <-- utcnow ;;
  let metadata :=
    [("title", AStr ("Document " ++ str (i + 1)));
     ("url", AStr ("https://example.com/doc" ++ str (i + 1)));
     ("timestamp", AInt now);
     ("summary", AStr ("This is a summary of document " ++ str (i + 1)
                         ++ " related to the query."));
     ("tags", AList [AStr "sample"; AStr "test"; AStr ("tag" ++ str i)])
    ]%string in
  uuid <-- uuid4 ;;
  let include_vectors :=
    match get (VectorSearchRequest.parameters request) "include_vectors" with
    | Some v => truthy_any v
    | None => false
    end in
  ret (VectorRecord.mk ("doc-" ++ uuid)
                       (if include_vectors then Some vector else None)
                       (Some score) metadata).

Definition vector_search (self : t) (request : VectorSearchRequest.t)
  : M (VectorSearchResponse.t * t) :=
  if negb (truthy_str (_vector_db_type self))
  then raise (ValueError "Vector database is not configured")
  else
    start_time <-- time_time ;;
    query_vector <--
      match VectorSearchRequest.query request with
      | QueryText s =>
          embed_response <--
            create_embeddings self (EmbedRequest.mk (OneText s) None true []) ;;
          match EmbedResponse.embeddings embed_response with
          | e :: _ => ret (Embedding.vector e)
          | [] => raise (IndexError "list index out of range")
          end
      | QueryVector v => ret v
      end ;;
    let name := VectorSearchRequest.collection request in
    collections <--
      (if negb (mem name (_collections self))
       then now <-- utcnow ;;
            ret (set (_collections self) name
                     (mkCollectionInfo (len query_vector) "hnsw" 1000 now None))
       else ret (_collections self)) ;;
    results <-- for_each (search_record self request query_vector)
                         (range (VectorSearchRequest.num_results request)) ;;
    end_time <-- time_time ;;
    let processing_time := (end_time - start_time)%Q in
    let collection_info := get collections name in
    let vector_dim :=
      match collection_info with
      | Some info => dimension info
      | None => len query_vector
      end in
    let index_type_ :=
      match collection_info with
      | Some info => index_type info
      | None => "hnsw"%string
      end in
    let total_vectors :=
      match collection_info with
      | Some info => vector_count info
      | None => 1000
      end in
    let filtered_vectors :=
      match VectorSearchRequest.filter request with
      | Some (_ :: _) => int_of_float (inject_Z total_vectors * (3 # 10))
      | Some [] | None => 0
      end in
    request_id <-- uuid4 ;;
    now <-- utcnow ;;
    let metadata :=
      VectorSearchMetadata.mk
        (Metadata.mk processing_time now request_id
                     (Some "llamasearch-api"%string) (Some "0.1.0"%string))
        name index_type_ vector_dim total_vectors filtered_vectors in
    ret (VectorSearchResponse.mk results metadata,
         with_collections self collections).

Definition upsert_vectors (self : t) (request : UpsertVectorsRequest.t)
  : M (UpsertVectorsResponse.t * t) :=
  if negb (truthy_str (_vector_db_type self))
  then raise (ValueError "Vector database is not configured")
  else
    start_time <-- time_time ;;
    let name := UpsertVectorsRequest.collection request in
    let vectors := UpsertVectorsRequest.vectors request in
    collections <--
      (if negb (mem name (_collections self))
       then
         if negb (UpsertVectorsRequest.create_collection request)
         then raise
                (ValueError
                   ("Collection {request.collection} does not exist "
                    ++ "and create_collection is False"))
         else
           let vector_dim :=
             match vectors with
             | first :: _ =>
                 match VectorRecord.vector first with
                 | Some (x :: v) => len (x :: v)
                 | Some [] | None => 384
                 end
             | [] => 384
             end in
           now <-- utcnow ;;
           ret (set (_collections self) name
                    (mkCollectionInfo vector_dim "hnsw" 0 now None))
       else ret (_collections self)) ;;
    (* collection_info["vector_count"] += len(request.vectors) *)
    let collections :=
      match get collections name with
      | Some info =>
          set collections name
              (mkCollectionInfo (dimension info) (index_type info)
                                (vector_count info + len vectors)
                                (created_at info) (description info))
      | None => collections
      end in
    end_time <-- time_time ;;
    let processing_time := (end_time - start_time)%Q in
    let inserted_count := len vectors / 2 in
    let updated_count := len vectors - inserted_count in
    request_id <-- uuid4 ;;
    now <-- utcnow ;;
    let metadata :=
      Metadata.mk processing_time now request_id
                  (Some "llamasearch-api"%string) (Some "0.1.0"%string) in
    ret (UpsertVectorsResponse.mk inserted_count updated_count name metadata,
         with_collections self collections).

End WithNumpy.

End VectorService.

(* ===================================================================== *)
(** ** Python lists: slices and [sort] *)
(* ===================================================================== *)

Module PyList.

(** The position that a slice bound denotes in a list of [n] items: a
    negative bound counts from the end, and every bound is brought into
    [0 .. n]. *)
Definition bound (n : Z) (i : Z) : Z :=
  if i <? 0 then Z.max 0 (i + n) else Z.min i n.

(** [l[start:stop]]. *)
Definition slice {A} (l : list A) (start stop : Z) : list A :=
  let a := bound (len l) start in
  let b := bound (len l) stop in
  firstn (Z.to_nat (b - a)) (skipn (Z.to_nat a) l).

(** [l[:stop]]. *)
Definition slice_to {A} (l : list A) (stop : Z) : list A := slice l 0 stop.

(** [l.sort(key=key, reverse=True)]: the sort is stable, items with equal
    keys keep their order. *)
Fixpoint insert_desc {A} (key : A -> Z) (x : A) (l : list A) : list A :=
  match l with
  | [] => [x]
  | y :: l' =>
      if key y >? key x then y :: insert_desc key x l' else x :: y :: l'
  end.

Definition sort_desc {A} (key : A -> Z) (l : list A) : list A :=
  fold_right (insert_desc key) [] l.

End PyList.

(* ===================================================================== *)
(** ** services/search.py: get_trends *)
(* ===================================================================== *)

Module Trends.
Import PyList.
Local Open Scope string_scope.

Definition all_trends : Dict (list string) :=
  [("technology",
    ["latest AI advances"; "Python programming tutorial";
     "best coding practices"; "FastAPI examples";
     "vector databases comparison"; "machine learning frameworks";
     "data science tools"; "kubernetes vs docker"; "web3 development";
     "rust programming language"]);
   ("news",
    ["breaking news today"; "climate change updates";
     "economic forecast 2023"; "election results";
     "international relations"; "pandemic response";
     "technology innovations"; "market trends"; "space exploration";
     "renewable energy developments"]);
   ("entertainment",
    ["new movie releases"; "popular TV shows"; "music festival lineup";
     "celebrity interviews"; "box office results";
     "streaming platform comparison"; "book recommendations";
     "gaming news"; "award show highlights"; "concert tours"])].

Definition get_trends (self : SearchService.t) (category : option string)
  (limit : Z) : M (Dict (list string)) :=
  let by_category :=
    match category with
    | Some c => if truthy_str c then Some c else None
    | None => None
    end in
  match by_category with
  | Some c =>
      match get all_trends c with
      | Some trends => ret [(c, slice_to trends limit)]
      | None => ret []
      end
  | None =>
      ret (map (fun e => (fst e, slice_to (snd e) limit)) all_trends)
  end.

End Trends.

(* ===================================================================== *)
(** ** api/routes/search.py *)
(* ===================================================================== *)

Module SearchRoutes.
Import SearchService.

(** What a route handler answers: the body of a 200 response, or the
    [HTTPException] it raises, with the exception that caused it. *)
Inductive Response (A : Type) : Type :=
| OK200 (body : A)
| HTTPException (status_code : Z) (detail : string) (cause : option exn).
Arguments OK200 {A} body.
Arguments HTTPException {A} status_code detail cause.

(** [search]: [search_service] is the service that the module builds from
    the settings when it is loaded. *)
Definition search (settings : Settings) (search_service : t)
  (request : SearchRequest) : M (Response SearchResponse) :=
  emit (Log INFO "Search request received: {request.query.text if isinstance(request.query, SearchQuery) else request.query}"
            [match query request with QObject q => text q | QText s => s end]) ;;;
  if negb (truthy (GOOGLE_API_KEY settings))
     && negb (truthy (BING_API_KEY settings))
  then
    ret (HTTPException 503
           "No search providers are configured. Please check API settings."
           None)
  else
    try_except
      (resp <-- SearchService.search search_service
                  (_search_provider search_service) request ;;
       ret (OK200 resp))
      (fun e =>
         emit (LogExn ERROR "Error performing search: {e}" [] e) ;;;
         ret (HTTPException 500 "Error performing search: {str(e)}" (Some e))).

(** [analyze_query]. *)
Definition analyze_query (search_service : t) (query : string)
  : M (Response Query) :=
  emit (Log INFO "Query analysis request received: {query}" [query]) ;;;
  try_except
    (q <-- SearchService.analyze_query search_service query ;;
     ret (OK200 q))
    (fun e =>
       emit (LogExn ERROR "Error analyzing query: {e}" [] e) ;;;
       ret (HTTPException 500 "Error analyzing query: {str(e)}" (Some e))).

End SearchRoutes.

(* ===================================================================== *)
(** ** services/scheduler.py: the jobs *)
(* ===================================================================== *)

Module SchedulerJobs.
Import SchedulerService PyList.

(** Modelled from the spec: [models/scheduler.py] is not among the sources.
    [JobStatus] has the members that the service names; [JobCreate] and
    [Job] have the attributes that [schedule_job] passes and that the
    service reads or assigns.  The attributes that the service only copies
    are kept as values of any type. *)
Inductive JobStatus : Type := PENDING | RUNNING | COMPLETED | FAILED.

Definition JobStatus_eqb (a b : JobStatus) : bool :=
  match a, b with
  | PENDING, PENDING | RUNNING, RUNNING
  | COMPLETED, COMPLETED | FAILED, FAILED => true
  | _, _ => false
  end.

Record JobCreate : Type := mkJobCreate {
  jc_task_name : string;
  jc_schedule : Schedule;
  jc_args : Any;
  jc_kwargs : Any;
  jc_timeout_seconds : Any;
  jc_max_retries : Any;
  jc_retry_delay_seconds : Any
}.

Record Job : Type := mkJob {
  id : string;
  task_name : string;
  schedule : Schedule;
  args : Any;
  kwargs : Any;
  status : JobStatus;
  created_at : Z;
  updated_at : Z;
  next_run_time : option Z;
  timeout_seconds : Any;
  max_retries : Any;
  retry_delay_seconds : Any;
  last_run_time : option Z
}.

Record t : Type := mkService {
  _jobs : Dict Job;
  _scheduler_running : bool
}.

(** [del d[k]] for a key of the dictionary. *)
Fixpoint del {V} (d : Dict V) (k : string) : Dict V :=
  match d with
  | [] => []
  | (k', v) :: d' => if String.eqb k k' then d' else (k', v) :: del d' k
  end.

Definition schedule_job (self : t) (job_create : JobCreate) : M (Job * t) :=
  start_time <-- time_time ;;
  job_id <-- uuid4 ;;
  now <-- utcnow ;;
  next_run <-- _calculate_next_run (jc_schedule job_create) ;;
  let job :=
    mkJob job_id (jc_task_name job_create) (jc_schedule job_create)
          (jc_args job_create) (jc_kwargs job_create) PENDING now now
          next_run (jc_timeout_seconds job_create)
          (jc_max_retries job_create) (jc_retry_delay_seconds job_create)
          None in
  let jobs := set (_jobs self) job_id job in
  emit (Log INFO "Scheduled new job {job_id}: {job.task_name}"
            [job_id; task_name job]) ;;;
  end_time <-- time_time ;;
  let processing_time := (end_time - start_time)%Q in
  (* the metadata is built and dropped *)
  request_id <-- uuid4 ;;
  timestamp <-- utcnow ;;
  let total_jobs := len jobs in
  let pending_jobs :=
    len (filter (fun j => JobStatus_eqb (status j) PENDING) (values jobs)) in
  ret (job, mkService jobs (_scheduler_running self)).

Definition get_job (self : t) (job_id : string) : M (option Job) :=
  ret (get (_jobs self) job_id).

Definition list_jobs (self : t) (status_ : option JobStatus) (limit : Z)
  (offset : Z) : M (list Job) :=
  let all_jobs := values (_jobs self) in
  let filtered_jobs :=
    match status_ with
    | Some st => filter (fun job => JobStatus_eqb (status job) st) all_jobs
    | None => all_jobs
    end in
  let filtered_jobs := sort_desc created_at filtered_jobs in
  ret (slice filtered_jobs offset (offset + limit)).

Definition delete_job (self : t) (job_id : string) : M (bool * t) :=
  if mem job_id (_jobs self)
  then
    emit (Log INFO "Deleted job {job_id}" [job_id]) ;;;
    ret (true, mkService (del (_jobs self) job_id) (_scheduler_running self))
  else ret (false, self).

(** How a call of [trigger_job] ends: [random] is used and never
    imported, so that the call which reaches it raises [NameError]. *)
Inductive Triggered : Type :=
| Returns (found : bool)
| RaisesNameError (name : string).

Definition with_status (job : Job) (st : JobStatus) : Job :=
  mkJob (id job) (task_name job) (schedule job) (args job) (kwargs job) st
        (created_at job) (updated_at job) (next_run_time job)
        (timeout_seconds job) (max_retries job) (retry_delay_seconds job)
        (last_run_time job).

Definition with_last_run_time (job : Job) (at_ : Z) : Job :=
  mkJob (id job) (task_name job) (schedule job) (args job) (kwargs job)
        (status job) (created_at job) (updated_at job) (next_run_time job)
        (timeout_seconds job) (max_retries job) (retry_delay_seconds job)
        (Some at_).

(** [trigger_job]: the job is the object that [_jobs] holds, so that what
    is assigned to it before the exception stays in the store. *)
Definition trigger_job (self : t) (job_id : string) : M (Triggered * t) :=
  match get (_jobs self) job_id with
  | None => ret (Returns false, self)
  | Some job =>
      emit (Log INFO "Manually triggering job {job_id}: {job.task_name}"
                [job_id; task_name job]) ;;;
      let job := with_status job RUNNING in
      now <-- utcnow ;;
      let job := with_last_run_time job now in
      (* await asyncio.sleep(random.uniform(0.5, 2.0)) *)
      ret (RaisesNameError "random",
           mkService (set (_jobs self) job_id job) (_scheduler_running self))
  end.

End SchedulerJobs.

(* ===================================================================== *)
(** ** services/vector.py: list_collections *)
(* ===================================================================== *)

Module VectorCollections.
Import VectorService.

(** An entry of the list that [list_collections] returns. *)
Record CollectionEntry : Type := mkCollectionEntry {
  name : string;
  entry_vector_count : Z;
  entry_dimension : Z;
  entry_created_at : Z;
  entry_description : string;
  entry_index_type : string
}.

Record Listing : Type := mkListing {
  collections : list CollectionEntry;
  total_count : Z;
  database_type : string
}.

(** The sample collections, with their dates as instants. *)
Definition sample_collections : Dict CollectionInfo :=
  [("documents"%string,
    mkCollectionInfo 384 "hnsw" 1250 1673740800000000
                     (Some "General document collection"%string));
   ("images"%string,
    mkCollectionInfo 512 "hnsw" 850 1676851200000000
                     (Some "Image embedding collection"%string));
   ("science_articles"%string,
    mkCollectionInfo 384 "hnsw" 450 1678406400000000
                     (Some "Scientific article embeddings"%string))].

(** One entry; the default of [created_at] reads the clock although every
    collection has a date. *)
Definition collection_entry (e : string * CollectionInfo)
  : M CollectionEntry :=
  let '(name, info) := e in
  now <-- utcnow ;;
  ret (mkCollectionEntry name (vector_count info) (dimension info)
         (created_at info)
         (match description info with
          | Some d => d
          | None => ("Collection " ++ name)%string
          end)
         (index_type info)).

Definition list_collections (self : t) : M (Listing * t) :=
  if negb (truthy_str (_vector_db_type self))
  then raise (ValueError "Vector database is not configured")
  else
    let collections_ :=
      match _collections self with
      | [] => sample_collections
      | _ :: _ => _collections self
      end in
    collections_list <-- for_each collection_entry collections_ ;;
    ret (mkListing collections_list (len collections_list)
                   (_vector_db_type self),
         with_collections self collections_).

End VectorCollections.

(* ===================================================================== *)
(** * Statements: sample inputs and the notions the properties use *)
(* ===================================================================== *)

(** *** Worlds and inputs of the examples *)

Module Samples.
Local Open Scope string_scope.

(** A world whose identifiers and clock readings are all different. *)
Definition w0 : World :=
  mkWorld 0 (fun n => "uuid-" ++ str (Z.of_nat n))
          (fun n => 1700000000000000 + Z.of_nat n)
          (fun n => inject_Z (1700000000 + Z.of_nat n))
          (fun _ _ => 1%Q).

(** The service that [__init__] builds when only Google is configured. *)
Definition google_only : SearchService.t :=
  SearchService.mkService (Some "key") (Some "cx") None
    [("google",
      SearchService.mkProviderConfig true 1
        "https://www.googleapis.com/customsearch/v1")].

End Samples.

(** *** SearchService.search: what is said of it *)

Module SearchDefs.
Import SearchService Samples.

(** The providers that a request is sent to: the enabled ones among those
    it names, and every configured provider when there is none. *)
Definition fanout (self : t) (request : SearchRequest) : list string :=
  match enabled_among self (providers_to_use self request) with
  | [] => keys (_providers self)
  | p :: ps => p :: ps
  end.

Definition query_text (request : SearchRequest) : string :=
  match query request with QObject q => text q | QText s => s end.

(** What [await task] leaves in [provider_results]. *)
Definition settled (task : Task) : list SearchResult :=
  match task with
  | Ok res => res
  | Raise _ => []
  end.

Definition settle_all (tasks : Dict Task)
  (provider_results : Dict (list SearchResult)) : Dict (list SearchResult) :=
  fold_left (fun d pt => set d (fst pt) (settled (snd pt))) tasks
            provider_results.

(** The records that awaiting the tasks adds to the log: one per task
    that raised. *)
Definition error_log (tasks : Dict Task) : list Event :=
  flat_map (fun pt =>
              match snd pt with
              | Ok _ => []
              | Raise e =>
                  [LogExn ERROR "Error searching with provider {provider}: {e}"
                          [fst pt] e]
              end) tasks.

(** The warning of the fallback, when there is one. *)
Definition fallback_warning (self : t) (request : SearchRequest)
  : list Event :=
  match enabled_among self (providers_to_use self request) with
  | [] =>
      [Log WARNING
           "No enabled providers found among requested: {providers_to_use}"
           (providers_to_use self request)]
  | _ :: _ => []
  end.

(** The dictionary of tasks that [fan_out] awaits. *)
Definition provider_tasks_of (tasks : list (string * Task)) : Dict Task :=
  fold_left (fun d pt => set d (fst pt) (snd pt)) tasks [].





(** The provider call that returns no result where [call] raises. *)
Definition swallow (call : ProviderCall) : ProviderCall :=
  fun p q n w =>
    let o := call p q n w in
    mkOut (match value o with Ok res => Ok res | Raise _ => Ok [] end)
          (world o) (events o).

(** Two runs that return the same and leave the same world; their logs may
    differ. *)
Definition sim {A} (o o' : Out A) : Prop :=
  value o = value o' /\ world o = world o'.

(** Two tasks that leave the same in [provider_results]. *)
Definition same_settled (t t' : string * Task) : Prop :=
  fst t = fst t' /\ settled (snd t) = settled (snd t').

(** The service that [__init__] builds when Google and Bing are
    configured, and providers that are unavailable. *)
Definition google_and_bing : t :=
  mkService (Some "key"%string) (Some "cx"%string) (Some "key"%string)
    [("google"%string,
      mkProviderConfig true 1 "https://www.googleapis.com/customsearch/v1");
     ("bing"%string,
      mkProviderConfig true 1 "https://api.bing.microsoft.com/v7.0/search")].

Definition unavailable : ProviderCall :=
  fun _ _ _ => raise (ProviderError "Unavailable").

Definition cats : SearchRequest := mkSearchRequest (QText "cats") 5 None [].

(** The claim of C2 about the data that one run of [search] gathers for
    its response when the providers fail: data without results is
    gathered, and it keeps the failures, so that it is not the data
    gathered in the run in which the same providers answer without
    results. *)
Definition keeps_failures_for_response (o o_without_failure : Out Gathered)
  : Prop :=
  exists g,
    value o = Ok g /\ g_results g = [] /\
    value o <> value o_without_failure.

(** Two configurations with the same providers, enabled alike; the weights
    and the endpoints may differ. *)
Definition same_enablement (self self' : t) : Prop :=
  map (fun e => (fst e, enabled (snd e))) (_providers self) =
  map (fun e => (fst e, enabled (snd e))) (_providers self').

(** [a] is above [b] in a ranking. *)
Definition ranks_above (a b : SearchResult) (l : list SearchResult) : Prop :=
  exists i j, nth_error l i = Some a /\ nth_error l j = Some b /\ (i < j)%nat.

(** A configuration with the weights of the claim, and providers whose
    top results carry its relevance scores. *)
Definition weighted_config : t :=
  mkService (Some "key"%string) (Some "cx"%string) (Some "key"%string)
    [("google"%string,
      mkProviderConfig true 1 "https://www.googleapis.com/customsearch/v1");
     ("bing"%string,
      mkProviderConfig true (5 # 10)
                       "https://api.bing.microsoft.com/v7.0/search")].

Definition top_result (provider : string) (relevance : Q) : SearchResult :=
  mkSearchResult "Cats" "https://example.com/cats" "All about cats"
                 provider 1 None
                 [("relevance_score"%string, PyFloat relevance)]
                 WEB false None None [] None.

Definition google_top : SearchResult := top_result "google" (9 # 10).
Definition bing_top : SearchResult := top_result "bing" (8 # 10).

Definition scored : ProviderCall :=
  fun p _ _ =>
    if String.eqb p "google" then ret [google_top]
    else if String.eqb p "bing" then ret [bing_top]
    else ret [].

(** A request that asks Bing and Google, in this order, for a weighted
    ranking. *)
Definition weighted_request : SearchRequest :=
  mkSearchRequest (QText "cats") 10 (Some ["bing"; "google"]%string)
                  [("ranking_strategy"%string, PyStr "weighted")].

End SearchDefs.

(** *** SearchService.analyze_query: what is said of it *)

Module AnalyzeDefs.
Import SearchService Samples.

(** The claim of C5 at one text and one world: a call and the call after
    it return the same [Query]. *)
Definition same_query_twice (self : t) (query_text : string) (w : World)
  : Prop :=
  value (analyze_query self query_text w) =
  value (analyze_query self query_text
           (world (analyze_query self query_text w))).

(** The claim of C6 for a text that no classification can label: the
    analysis returns, with [intent] and [locality] undefined. *)
Definition defaults_to_undefined (o : Out Query) : Prop :=
  exists q, value o = Ok q /\
            intent q = SearchIntent.UNDEFINED /\
            locality q = SearchLocality.UNDEFINED.

(** The text has ASCII characters only: on these [lower] of [Py] is
    [str.lower], which lowers other letters too and may change the length
    of a text that has them. *)
Fixpoint ascii_only (s : string) : bool :=
  match s with
  | EmptyString => true
  | String c s' => (nat_of_ascii c <? 128)%nat && ascii_only s'
  end.

End AnalyzeDefs.

(** *** VectorService: what is said of it *)

Module VectorDefs.
Import VectorService.




(** The number of vectors that a collection records, 0 when there is no
    such collection. *)
Definition recorded_count (self : t) (name : string) : Z :=
  match get (_collections self) name with
  | Some info => vector_count info
  | None => 0
  end.

End VectorDefs.

(** *** The mock providers: what is said of them *)

Module ProviderDefs.
Import SearchService.

(** The provider is one that the service can query: it is configured, it
    is Google with a key and an engine identifier, or Bing with a key. *)
Definition usable (self : t) (provider : string) : bool :=
  mem provider (_providers self) &&
  ((String.eqb provider "google" &&
    truthy (_google_api_key self) && truthy (_google_cx self))
   || (negb (String.eqb provider "google") && String.eqb provider "bing" &&
       truthy (_bing_api_key self))).

(** The number of results that a mock provider makes for a count. *)
Definition mock_count (num_results : Z) : Z := Z.max 0 (Z.min num_results 10).

(** What a mock result carries about its provider and its place. *)
Definition mock_of (name : string) (i : Z) (r : SearchResult) : Prop :=
  provider r = name /\ rank r = i + 1 /\ is_ad r = false /\
  content_type r = WEB.

(** Results alternate between two providers, the first one first. *)
Fixpoint alternate (a b : string) (k : nat) : list string :=
  match k with
  | O => []
  | S k' => a :: b :: alternate a b k'
  end.

End ProviderDefs.

(** Sample jobs and a store that holds them. *)
Module JobSamples.
Import SchedulerService SchedulerJobs.
Local Open Scope string_scope.

Definition no_schedule : Schedule := mkSchedule None None None.

Definition sample_job (job_id : string) (st : JobStatus) (created : Z) : Job :=
  mkJob job_id "reindex" no_schedule (AList []) (ADict []) st created created
        None (AInt 60) (AInt 3) (AInt 5) None.

Definition three_jobs : SchedulerJobs.t :=
  SchedulerJobs.mkService
    [("a", sample_job "a" PENDING 10);
     ("b", sample_job "b" RUNNING 30);
     ("c", sample_job "c" PENDING 20)]
    false.

Definition sample_create : JobCreate :=
  mkJobCreate "reindex" (mkSchedule None (Some 30) None)
              (AList []) (ADict []) (AInt 60) (AInt 3) (AInt 5).

End JobSamples.

(** Notions of the vector service. *)
Module VectorMoreDefs.
Import VectorService.
Local Open Scope string_scope.

(** The length of the vector that a search compares with: the one of the
    request, or the embedding of its text by the default model. *)
Definition query_dimension (self : t) (query : QueryArg) : Z :=
  match query with
  | QueryVector v => len v
  | QueryText _ => _get_embedding_dimension (_default_model self)
  end.

(** [request.parameters.get("include_vectors", False)], as a condition. *)
Definition wants_vectors (request : VectorSearchRequest.t) : bool :=
  match get (VectorSearchRequest.parameters request) "include_vectors" with
  | Some v => truthy_any v
  | None => false
  end.

(** A service with a database type and no collection yet. *)
Definition qdrant : t := mkService None "gpt-3.5-turbo" None "qdrant" false [].

(** A service without a database type. *)
Definition unconfigured : t := mkService None "gpt-3.5-turbo" None "" false [].

Definition three_vectors : list VectorRecord.t :=
  [VectorRecord.mk "doc1" (Some [1%Q; 2%Q]) None [];
   VectorRecord.mk "doc2" (Some [1%Q]) None [];
   VectorRecord.mk "doc3" None None []].

End VectorMoreDefs.

(* ===================================================================== *)
(** * Properties *)
(* ===================================================================== *)

(** ** Dictionaries *)

Unset Implicit Arguments.

Module DictFacts.
Section DictFacts.

Variable V : Type.
Implicit Types (d pre suf : Dict V) (k : string) (v : V).

Lemma get_app_fresh pre suf k :
  ~ In k (keys pre) -> get (pre ++ suf) k = get suf k.
Proof.
  induction pre as [|[k' v'] pre IH]; simpl; [reflexivity|].
  intros H. destruct (String.eqb_spec k k') as [->|_].
  - exfalso. apply H. now left.
  - apply IH. intros C. apply H. now right.
Qed.

Lemma get_head k v suf : get ((k, v) :: suf) k = Some v.
Proof. simpl. now rewrite String.eqb_refl. Qed.

Lemma set_app_fresh pre suf k v v' :
  ~ In k (keys pre) ->
  set (pre ++ (k, v) :: suf) k v' = pre ++ (k, v') :: suf.
Proof.
  induction pre as [|[k' w] pre IH]; simpl.
  - now rewrite String.eqb_refl.
  - intros H. destruct (String.eqb_spec k k') as [->|_].
    + exfalso. apply H. now left.
    + f_equal. apply IH. intros C. apply H. now right.
Qed.

Lemma keys_app pre suf : keys (pre ++ suf) = keys pre ++ keys suf.
Proof. apply map_app. Qed.

Lemma combine_keys_values d : combine (keys d) (values d) = d.
Proof.
  induction d as [|[k v] d IH]; simpl; [reflexivity|]. now rewrite IH.
Qed.

Lemma keys_combine (ks : list string) (vs : list V) :
  List.length ks = List.length vs -> keys (combine ks vs) = ks.
Proof.
  revert vs. induction ks as [|k ks IH]; intros [|v vs]; simpl;
    try reflexivity; try discriminate.
  intros [= H]. now rewrite IH.
Qed.

Lemma values_combine (ks : list string) (vs : list V) :
  List.length ks = List.length vs -> values (combine ks vs) = vs.
Proof.
  revert vs. induction ks as [|k ks IH]; intros [|v vs]; simpl;
    try reflexivity; try discriminate.
  intros [= H]. now rewrite IH.
Qed.

Lemma wf_head_fresh pre k v suf :
  wf (pre ++ (k, v) :: suf) -> ~ In k (keys pre).
Proof.
  unfold wf. rewrite keys_app. simpl. intros H.
  apply NoDup_remove_2 in H. intros C. apply H. apply in_or_app. now left.
Qed.

Lemma wf_shift pre k v v' suf :
  wf (pre ++ (k, v) :: suf) -> wf ((pre ++ [(k, v')]) ++ suf).
Proof.
  unfold wf. rewrite !keys_app. simpl. now rewrite <- app_assoc.
Qed.

End DictFacts.
End DictFacts.

(** ** The interleaving of [_combine_results] *)

Module CombineFacts.
Import Combine DictFacts.
Section CombineFacts.

Variable A : Type.
Implicit Types (ls : list (list A)) (all : list A) (d : Dict (list A)).

Lemma while_loop_eq n ps (st : state A) :
  while_loop n ps st =
  if len (all_results st) <? n then
    match for_providers n ps
            (mkState (provider_results st) (all_results st) false) with
    | Raise e => Raise e
    | Ok st' => if added_any st' then while_loop n ps st' else Ok st'
    end
  else Ok st.
Proof.
  rewrite while_loop_equation_1.
  destruct (len (all_results st) <? n); simpl; auto.
  destruct (for_providers n ps _) as [st'|e]; [|reflexivity].
  destruct (added_any st'); reflexivity.
Qed.

(** On the keys of a well-formed dictionary a round raises no [KeyError]
    and is the round over the lists. *)
Lemma for_providers_items n : forall suf pre all added,
  wf (pre ++ suf) ->
  for_providers n (keys suf) (mkState (pre ++ suf) all added) =
  let '(ls', all', added') := round_items n (values suf) all added in
  Ok (mkState (pre ++ combine (keys suf) ls') all' added').
Proof.
  induction suf as [|[k [|x l]] suf IH]; intros pre all added W; simpl.
  - reflexivity.
  - unfold item. rewrite get_app_fresh, get_head by (eapply wf_head_fresh; exact W).
    simpl. pose proof (IH (pre ++ [(k, [])]) all added (wf_shift _ _ _ _ [] _ W)) as H.
    rewrite <- app_assoc in H. simpl in H. rewrite H.
    destruct (round_items n (values suf) all added) as [[ls' all'] added'].
    now rewrite <- app_assoc.
  - unfold item. rewrite get_app_fresh, get_head by (eapply wf_head_fresh; exact W).
    simpl. rewrite set_app_fresh by (eapply wf_head_fresh; exact W).
    destruct (len (all ++ [x]) >=? n).
    + now rewrite combine_keys_values.
    + pose proof (IH (pre ++ [(k, l)]) (all ++ [x]) true (wf_shift _ _ _ _ l _ W)) as H.
      rewrite <- app_assoc in H. simpl in H. rewrite H.
      destruct (round_items n (values suf) (all ++ [x]) true) as [[ls' all'] added'].
      now rewrite <- app_assoc.
Qed.

Lemma len_app_one all (x : A) : len (all ++ [x]) = len all + 1.
Proof. unfold len. rewrite length_app. simpl. lia. Qed.

Lemma nth_round_0_nil ls : nth_round 0 ([] :: ls) = nth_round 0 ls.
Proof. reflexivity. Qed.

Lemma nth_round_0_cons (x : A) l ls :
  nth_round 0 ((x :: l) :: ls) = x :: nth_round 0 ls.
Proof. reflexivity. Qed.

(** A round keeps the number of lists. *)
Lemma round_items_length n : forall ls all added,
  List.length (fst (fst (round_items n ls all added))) = List.length ls.
Proof.
  induction ls as [|[|x l] ls IH]; intros all added; simpl.
  - reflexivity.
  - specialize (IH all added).
    destruct (round_items n ls all added) as [[ls' all'] added']. simpl in *.
    now rewrite IH.
  - destruct (len (all ++ [x]) >=? n); [reflexivity|].
    specialize (IH (all ++ [x]) true).
    destruct (round_items n ls (all ++ [x]) true) as [[ls' all'] added'].
    simpl in *. now rewrite IH.
Qed.

(** A round only moves results from the lists to [all_results]. *)
Lemma round_items_perm n : forall ls all added,
  let '(ls', all', _) := round_items n ls all added in
  Permutation (all' ++ List.concat ls') (all ++ List.concat ls).
Proof.
  induction ls as [|[|x l] ls IH]; intros all added; simpl.
  - reflexivity.
  - specialize (IH all added).
    destruct (round_items n ls all added) as [[ls' all'] added']. exact IH.
  - destruct (len (all ++ [x]) >=? n).
    + simpl. rewrite <- app_assoc. reflexivity.
    + specialize (IH (all ++ [x]) true).
      destruct (round_items n ls (all ++ [x]) true) as [[ls' all'] added'].
      simpl. rewrite Permutation_app_swap_app, IH, <- app_assoc.
      rewrite Permutation_app_swap_app. apply Permutation_app_head.
      simpl. symmetry. apply Permutation_middle.
Qed.

(** What a round entered with fewer than [num_results] results does: it
    appends the heads of the lists, up to the count; when the count is not
    reached it leaves the tails, and reports whether there was a head. *)
Lemma round_items_spec n : forall ls all added,
  len all < n ->
  let '(ls', all', added') := round_items n ls all added in
  all' = all ++ firstn (Z.to_nat (n - len all)) (nth_round 0 ls) /\
  (len all + len (nth_round 0 ls) < n ->
   ls' = map (@tl A) ls /\
   added' = match nth_round 0 ls with [] => added | _ :: _ => true end) /\
  (n <= len all + len (nth_round 0 ls) -> added' = true /\ len all' = n).
Proof.
  induction ls as [|[|x l] ls IH]; intros all added Hlt.
  - simpl. rewrite firstn_nil, app_nil_r. unfold len at 2 4. simpl.
    repeat split; auto; lia.
  - simpl round_items. rewrite nth_round_0_nil. specialize (IH all added Hlt).
    destruct (round_items n ls all added) as [[ls' all'] added'].
    destruct IH as (E & Hno & Hbr). split; [exact E|]. split.
    + intros H. destruct (Hno H) as [-> ->]. now split.
    + exact Hbr.
  - simpl round_items. rewrite nth_round_0_cons.
    assert (Hlen : len (x :: nth_round 0 ls) = 1 + len (nth_round 0 ls)).
    { unfold len. simpl List.length. lia. }
    rewrite Hlen. pose proof (len_app_one all x) as L1.
    destruct (len (all ++ [x]) >=? n) eqn:G.
    + apply Z.geb_le in G.
      assert (Z.to_nat (n - len all) = 1%nat) as -> by lia.
      change (firstn 1 (x :: nth_round 0 ls)) with [x].
      split; [reflexivity|]. split; [intros; unfold len in *; lia|].
      intros _. split; [reflexivity | lia].
    + rewrite Z.geb_leb in G. apply Z.leb_gt in G.
      specialize (IH (all ++ [x]) true ltac:(lia)).
      destruct (round_items n ls (all ++ [x]) true) as [[ls' all'] added'].
      destruct IH as (E & Hno & Hbr). rewrite L1 in *.
      assert (Z.to_nat (n - len all) = S (Z.to_nat (n - (len all + 1)))) as ->
        by lia.
      cbn [firstn]. split; [now rewrite E, <- app_assoc|]. split.
      * intros H. destruct (Hno ltac:(lia)) as [-> ->]. split; [reflexivity|].
        now destruct (nth_round 0 ls).
      * intros H. apply Hbr. lia.
Qed.

(** *** Rounds of the specification *)

Lemma nth_round_S k ls : nth_round (S k) ls = nth_round k (map (@tl A) ls).
Proof.
  unfold nth_round. induction ls as [|l ls IH]; [reflexivity|].
  cbn [flat_map map]. rewrite IH. f_equal.
  destruct l; simpl; [now destruct k | reflexivity].
Qed.

Lemma max_len_tails ls : max_len (map (@tl A) ls) = Nat.pred (max_len ls).
Proof.
  induction ls as [|l ls IH]; [reflexivity|].
  change (max_len (map (@tl A) (l :: ls)))
    with (Nat.max (List.length (tl l)) (max_len (map (@tl A) ls))).
  change (max_len (l :: ls)) with (Nat.max (List.length l) (max_len ls)).
  rewrite IH. destruct l; cbn [tl List.length]; lia.
Qed.

Lemma max_len_0_concat ls : max_len ls = 0%nat -> List.concat ls = [].
Proof.
  induction ls as [|l ls IH]; [reflexivity|].
  change (max_len (l :: ls)) with (Nat.max (List.length l) (max_len ls)).
  intros H. destruct l; cbn [List.length] in H; [apply IH; lia | lia].
Qed.

Lemma heads_nil_max_len ls : nth_round 0 ls = [] -> max_len ls = 0%nat.
Proof.
  induction ls as [|[|x l] ls IH]; simpl; [reflexivity | exact IH | discriminate].
Qed.

Lemma max_len_0_heads ls : max_len ls = 0%nat -> nth_round 0 ls = [].
Proof.
  induction ls as [|[|x l] ls IH]; [reflexivity | exact IH |].
  change (max_len ((x :: l) :: ls))
    with (Nat.max (S (List.length l)) (max_len ls)). lia.
Qed.

Lemma rounds_shift ls : forall m s,
  flat_map (fun k => nth_round k ls) (seq (S s) m) =
  flat_map (fun k => nth_round k (map (@tl A) ls)) (seq s m).
Proof.
  induction m as [|m IH]; intros s; simpl; [reflexivity|].
  now rewrite IH, nth_round_S.
Qed.

(** The rounds are the heads followed by the rounds of the tails. *)
Lemma round_robin_step ls :
  round_robin ls = nth_round 0 ls ++ round_robin (map (@tl A) ls).
Proof.
  unfold round_robin. rewrite max_len_tails.
  destruct (max_len ls) as [|m] eqn:M; simpl.
  - now rewrite max_len_0_heads.
  - now rewrite rounds_shift.
Qed.

Lemma heads_tails_perm ls :
  Permutation (List.concat ls) (nth_round 0 ls ++ List.concat (map (@tl A) ls)).
Proof.
  induction ls as [|[|x l] ls IH]; simpl.
  - reflexivity.
  - exact IH.
  - constructor. rewrite IH, Permutation_app_swap_app. reflexivity.
Qed.

(** The interleaving holds every input result exactly once. *)
Lemma round_robin_perm ls : Permutation (round_robin ls) (List.concat ls).
Proof.
  remember (max_len ls) as m eqn:M. revert ls M.
  induction m as [|m IH]; intros ls M.
  - unfold round_robin. rewrite <- M. simpl.
    now rewrite max_len_0_concat.
  - rewrite round_robin_step, heads_tails_perm.
    apply Permutation_app_head, IH. rewrite max_len_tails, <- M. reflexivity.
Qed.

Lemma round_robin_length ls :
  List.length (round_robin ls) = List.length (List.concat ls).
Proof. apply Permutation_length, round_robin_perm. Qed.

Lemma keys_length {V} (d : Dict V) : List.length (keys d) = List.length d.
Proof. apply length_map. Qed.

Lemma values_length {V} (d : Dict V) : List.length (values d) = List.length d.
Proof. apply length_map. Qed.

(** *** The loop

    From any state over a well-formed dictionary the loop returns; it has
    appended the interleaving of the lists, cut at the missing count, and
    what it has not appended is still in the dictionary. *)
Lemma while_loop_spec n : forall m d all added,
  total d = m -> wf d ->
  exists st',
    while_loop n (keys d) (mkState d all added) = Ok st' /\
    all_results st' =
      all ++ firstn (Z.to_nat (n - len all)) (round_robin (values d)) /\
    keys (provider_results st') = keys d /\
    Permutation (all_results st' ++ List.concat (values (provider_results st')))
                (all ++ List.concat (values d)).
Proof.
  induction m as [m IH] using lt_wf_ind. intros d all added Hm W.
  rewrite while_loop_eq. cbn [all_results provider_results].
  destruct (len all <? n) eqn:C.
  2:{ apply Z.ltb_ge in C. exists (mkState d all added).
      cbn [all_results provider_results].
      assert (Z.to_nat (n - len all) = 0%nat) as -> by lia.
      rewrite app_nil_r. repeat split; reflexivity. }
  apply Z.ltb_lt in C.
  pose proof (for_providers_items n d [] all false W) as F.
  cbn [app] in F. rewrite F. clear F.
  pose proof (round_items_spec n (values d) all false C) as S.
  pose proof (round_items_perm n (values d) all false) as P.
  pose proof (round_items_length n (values d) all false) as L.
  destruct (round_items n (values d) all false) as [[ls' all'] added'].
  cbn [fst] in L. destruct S as (E & Hno & Hbr). cbn [added_any].
  assert (K : keys (combine (keys d) ls') = keys d).
  { apply keys_combine. now rewrite L, keys_length, values_length. }
  assert (Vs : values (combine (keys d) ls') = ls').
  { apply values_combine. now rewrite L, keys_length, values_length. }
  destruct (Z.ltb_spec (len all + len (nth_round 0 (values d))) n) as [NB|BR].
  - (* the round ends without reaching the count *)
    destruct (Hno NB) as [-> ->]. clear Hno Hbr.
    rewrite firstn_all2 in E by (unfold len in *; lia).
    destruct (nth_round 0 (values d)) as [|h hs] eqn:H0.
    + (* no provider had a result left *)
      eexists. split; [reflexivity|]. cbn [all_results provider_results].
      rewrite Vs, K. unfold round_robin. rewrite (heads_nil_max_len _ H0).
      cbn [seq flat_map]. rewrite firstn_nil.
      repeat split; [exact E | exact P].
    + (* some result was added: the loop goes round again *)
      set (d' := combine (keys d) (map (@tl A) (values d))) in *.
      assert (T : (total d' < m)%nat).
      { subst m. unfold total. rewrite Vs.
        rewrite (Permutation_length (heads_tails_perm (values d))), H0.
        rewrite length_app. simpl. lia. }
      assert (W' : wf d') by (unfold wf; now rewrite K).
      destruct (IH _ T d' all' true eq_refl W') as (st' & R & Ea & Ek & Ep).
      rewrite K in R. exists st'. split; [exact R|].
      rewrite K in Ek. rewrite Vs in Ea, Ep. repeat split; [|exact Ek|].
      * rewrite Ea, E, (round_robin_step (values d)), H0, <- app_assoc.
        f_equal. rewrite firstn_app.
        rewrite (@firstn_all2 _ _ (h :: hs)) by (unfold len in *; lia).
        f_equal. f_equal. unfold len in *. rewrite length_app. lia.
      * now rewrite Ep.
  - (* the count is reached within the round: break, then the loop ends *)
    destruct (Hbr BR) as [-> Hn]. clear Hno Hbr.
    rewrite while_loop_eq. cbn [all_results].
    assert ((len all' <? n) = false) as -> by (apply Z.ltb_ge; lia).
    eexists. split; [reflexivity|]. cbn [all_results provider_results].
    rewrite Vs, K. repeat split; [|exact P].
    rewrite E, (round_robin_step (values d)), firstn_app.
    assert ((Z.to_nat (n - len all) -
             List.length (nth_round 0 (values d)))%nat = 0%nat) as ->
      by (unfold len in *; lia).
    now rewrite firstn_O, app_nil_r.
Qed.

(** *** [_combine_results] *)

(** The call returns, for every well-formed dictionary and every count:
    its result is the interleaving of the lists cut at the count, and the
    dictionary keeps its keys and holds the results not returned. *)
Lemma _combine_results_spec (d : Dict (list A)) (n : Z) :
  wf d ->
  exists d',
    _combine_results d n = Ok (interleaved (values d) (Z.to_nat n), d') /\
    keys d' = keys d /\
    Permutation (interleaved (values d) (Z.to_nat n) ++ List.concat (values d'))
                (List.concat (values d)).
Proof.
  intros W. unfold _combine_results.
  destruct (while_loop_spec n _ d [] false eq_refl W) as (st' & R & Ea & Ek & Ep).
  rewrite R. cbn [bind]. exists (provider_results st').
  cbn [app] in Ea, Ep. change (len (@nil A)) with 0 in Ea.
  rewrite Z.sub_0_r in Ea. unfold interleaved. rewrite <- Ea.
  repeat split; assumption.
Qed.

(** C3.  With providers [A] then [B], three results each and a count of
    at least 6, [_combine_results] returns A1, B1, A2, B2, A3, B3; and for
    every dictionary and count it returns the round-robin interleaving of
    the providers' lists in the order of the providers, one result per
    provider and round, exhausted providers skipped, cut at the count: a
    function of the providers' order and their lists. *)
Theorem combine_is_round_robin :
  (forall (pa pb : string) (a1 a2 a3 b1 b2 b3 : A) (n : Z),
     pa <> pb -> 6 <= n ->
     exists d',
       _combine_results [(pa, [a1; a2; a3]); (pb, [b1; b2; b3])] n =
       Ok ([a1; b1; a2; b2; a3; b3], d')) /\
  (forall (d : Dict (list A)) (n : Z),
     wf d ->
     exists d',
       _combine_results d n = Ok (interleaved (values d) (Z.to_nat n), d')).
Proof.
  split.
  - intros pa pb a1 a2 a3 b1 b2 b3 n Hab Hn.
    assert (W : wf [(pa, [a1; a2; a3]); (pb, [b1; b2; b3])]).
    { unfold wf. cbn. constructor; [|constructor; [auto | constructor]].
      intros [H|[]]. now apply Hab. }
    destruct (_combine_results_spec _ n W) as (d' & E & _).
    exists d'. rewrite E. f_equal. f_equal.
    unfold interleaved. cbn [values map snd].
    change (round_robin [[a1; a2; a3]; [b1; b2; b3]])
      with [a1; b1; a2; b2; a3; b3].
    apply firstn_all2. cbn [List.length]. lia.
  - intros d n W.
    destruct (_combine_results_spec d n W) as (d' & E & _). now exists d'.
Qed.

(** C9.  For every dictionary of result lists and every count [n >= 0],
    [_combine_results] returns a list of length [min n total]; its elements
    come from the input lists, each input result at most once: together
    with what the call leaves in the lists they are the input results. *)
Theorem combine_length_and_origin (d : Dict (list A)) (n : Z) :
  wf d -> 0 <= n ->
  exists out d',
    _combine_results d n = Ok (out, d') /\
    len out = Z.min n (Z.of_nat (total d)) /\
    incl out (List.concat (values d)) /\
    Permutation (out ++ List.concat (values d')) (List.concat (values d)).
Proof.
  intros W Hn.
  destruct (_combine_results_spec d n W) as (d' & E & _ & P).
  exists (interleaved (values d) (Z.to_nat n)), d'.
  split; [exact E|]. split; [|split; [|exact P]].
  - unfold len, interleaved, total.
    rewrite length_firstn, round_robin_length. lia.
  - intros x Hx. apply (Permutation_in x P). apply in_or_app. now left.
Qed.

End CombineFacts.

Example combine_is_round_robin_witness :
  ("A" <> "B")%string /\ 6 <= 7 /\
  wf [("A"%string, [1; 2; 3]); ("B"%string, [4; 5; 6])] /\
  (exists d',
     Combine._combine_results
       [("A"%string, [1; 2; 3]); ("B"%string, [4; 5; 6])] 7 =
     Ok ([1; 4; 2; 5; 3; 6], d')) /\
  (exists d',
     Combine._combine_results
       [("A"%string, [1; 2; 3]); ("B"%string, [4; 5; 6])] 4 =
     Ok ([1; 4; 2; 5], d')).
Proof.
  assert (N : ("A" <> "B")%string) by discriminate.
  assert (W : wf [("A"%string, [1; 2; 3]); ("B"%string, [4; 5; 6])]).
  { unfold wf. cbn. constructor; [|constructor; [auto | constructor]].
    intros [H|[]]. discriminate. }
  split; [exact N|]. split; [lia|]. split; [exact W|].
  destruct (combine_is_round_robin Z) as [H1 H2]. split.
  - exact (H1 "A"%string "B"%string 1 2 3 4 5 6 7 N ltac:(lia)).
  - exact (H2 _ 4 W).
Defined.

Example combine_length_and_origin_witness :
  exists out d',
    Combine._combine_results
      [("google"%string, [1; 2; 3]); ("bing"%string, [4])] 3 = Ok (out, d') /\
    len out = 3 /\
    incl out [1; 2; 3; 4] /\
    Permutation (out ++ List.concat (values d')) [1; 2; 3; 4].
Proof.
  apply (combine_length_and_origin Z
           [("google"%string, [1; 2; 3]); ("bing"%string, [4])] 3).
  - unfold wf. cbn. constructor; [|constructor; [auto | constructor]].
    intros [H|[]]. discriminate.
  - lia.
Defined.

End CombineFacts.

(** ** Computations *)

Module EnvFacts.

Lemma value_mbind {A B} (m : M A) (k : A -> M B) (w : World) :
  value (mbind m k w) =
  match value (m w) with
  | Ok a => value (k a (world (m w)))
  | Raise e => Raise e
  end.
Proof. unfold mbind. now destruct (value (m w)). Qed.

Lemma world_mbind {A B} (m : M A) (k : A -> M B) (w : World) :
  world (mbind m k w) =
  match value (m w) with
  | Ok a => world (k a (world (m w)))
  | Raise _ => world (m w)
  end.
Proof. unfold mbind. now destruct (value (m w)). Qed.

Lemma events_mbind {A B} (m : M A) (k : A -> M B) (w : World) :
  events (mbind m k w) =
  match value (m w) with
  | Ok a => events (m w) ++ events (k a (world (m w)))
  | Raise _ => events (m w)
  end.
Proof. unfold mbind. now destruct (value (m w)). Qed.

(** A loop whose body always returns, returns; what relates each item to
    what the body returns for it relates the two lists. *)
Lemma for_each_Forall2_in {A B} (f : A -> M B) (P : A -> B -> Prop) :
  forall xs,
    (forall x w, In x xs -> exists b, value (f x w) = Ok b /\ P x b) ->
    forall w, exists bs, value (for_each f xs w) = Ok bs /\ Forall2 P xs bs.
Proof.
  induction xs as [|x xs IH]; intros H w; cbn [for_each].
  - exists []. split; [reflexivity | constructor].
  - destruct (H x w (or_introl eq_refl)) as (b & Eb & Pb).
    rewrite value_mbind, Eb, value_mbind.
    destruct (IH (fun y w' I => H y w' (or_intror I)) (world (f x w)))
      as (bs & Ebs & Pbs).
    rewrite Ebs. exists (b :: bs). split; [reflexivity | now constructor].
Qed.

Lemma for_each_Forall2 {A B} (f : A -> M B) (P : A -> B -> Prop) :
  (forall x w, exists b, value (f x w) = Ok b /\ P x b) ->
  forall xs w, exists bs, value (for_each f xs w) = Ok bs /\ Forall2 P xs bs.
Proof. intros H xs. apply for_each_Forall2_in. intros x w _. apply H. Qed.

(** A loop that only logs. *)
Lemma for_each_emit {A} (e : A -> Event) (xs : list A) (w : World) :
  for_each (fun x => emit (e x)) xs w =
  mkOut (Ok (map (fun _ => tt) xs)) w (map e xs).
Proof.
  induction xs as [|x xs IH]; [reflexivity|].
  cbn [for_each]. unfold mbind at 1. cbn [emit value world events].
  unfold mbind. rewrite IH. cbn. now rewrite app_nil_r.
Qed.



End EnvFacts.

(** ** Dictionary updates *)

Module SetFacts.
Section SetFacts.

Variable V : Type.
Implicit Types (d : Dict V) (k : string) (v : V).

Lemma get_set_same d k v : get (set d k v) k = Some v.
Proof.
  induction d as [|[k' v'] d IH]; cbn.
  - now rewrite String.eqb_refl.
  - destruct (String.eqb k k') eqn:E; cbn; rewrite E; [reflexivity | exact IH].
Qed.

Lemma keys_set_in d k v : In k (keys d) -> keys (set d k v) = keys d.
Proof.
  induction d as [|[k' v'] d IH]; cbn; [intros []|].
  intros H. destruct (String.eqb_spec k k') as [->|N]; cbn; [reflexivity|].
  f_equal. apply IH. destruct H as [H|H]; [congruence | exact H].
Qed.

Lemma keys_set_fresh d k v : ~ In k (keys d) -> keys (set d k v) = keys d ++ [k].
Proof.
  induction d as [|[k' v'] d IH]; cbn; [reflexivity|].
  intros H. destruct (String.eqb_spec k k') as [->|N].
  - exfalso. apply H. now left.
  - cbn. f_equal. apply IH. intros C. apply H. now right.
Qed.

Lemma in_keys_dec k d : {In k (keys d)} + {~ In k (keys d)}.
Proof. apply in_dec, string_dec. Qed.

(** An update keeps a dictionary well formed. *)
Lemma wf_set d k v : wf d -> wf (set d k v).
Proof.
  unfold wf. intros W. destruct (in_keys_dec k d) as [I|N].
  - now rewrite keys_set_in.
  - rewrite keys_set_fresh by exact N.
    apply NoDup_app; [exact W | repeat constructor; intros [] |].
    intros x Hx [->|[]]. exact (N Hx).
Qed.

Lemma mem_get k d : mem k d = true <-> exists v, get d k = Some v.
Proof.
  unfold mem. destruct (get d k) as [v|]; split; try discriminate; eauto.
  intros [v [=]].
Qed.

End SetFacts.
End SetFacts.

(** ** SearchService.analyze_query *)

Module AnalyzeFacts.
Import SearchService Samples AnalyzeDefs.

(** What one call returns, and the two readings of the world in it. *)
Lemma analyze_query_value (self : t) (query_text : string) (w : World) :
  value (analyze_query self query_text w) =
  Ok (mkQuery query_text SearchIntent.INFORMATIONAL SearchLocality.GLOBAL
              "en" (Some (uuid_at w (tick w))) (Some (utc_at w (S (tick w))))
              (Some (lower query_text)) [] []).
Proof. reflexivity. Qed.

Lemma analyze_query_world (self : t) (query_text : string) (w : World) :
  world (analyze_query self query_text w) = next (next w).
Proof. reflexivity. Qed.

(** C5, refuted as stated: two calls on the same text return queries with
    different [query_id] and [timestamp]. *)
Lemma analyze_query_twice_differs :
  ~ same_query_twice google_only "python fastapi tutorial" w0.
Proof. unfold same_query_twice. intros H. vm_compute in H. discriminate H. Qed.

(** C5, amended.  Two calls of [analyze_query] on the same text, in any two
    states of the world, return queries equal in [text], [intent],
    [locality], [language], [processed_text], [parameters] and [context];
    [query_id] and [timestamp] are the identifier and the clock reading
    that each call takes. *)
Theorem analyze_query_deterministic_fields
  (self self' : t) (query_text : string) (w w' : World) :
  exists q q',
    value (analyze_query self query_text w) = Ok q /\
    value (analyze_query self' query_text w') = Ok q' /\
    text q = text q' /\ intent q = intent q' /\ locality q = locality q' /\
    language q = language q' /\ processed_text q = processed_text q' /\
    parameters q = parameters q' /\ context q = context q' /\
    query_id q = Some (uuid_at w (tick w)) /\
    timestamp q = Some (utc_at w (S (tick w))) /\
    query_id q' = Some (uuid_at w' (tick w')) /\
    timestamp q' = Some (utc_at w' (S (tick w'))).
Proof.
  eexists. eexists. rewrite !analyze_query_value.
  repeat split; reflexivity.
Qed.

(** C6, refuted as stated: the empty text, which carries nothing to
    classify, is labelled informational and global. *)
Lemma analyze_query_never_undefined :
  ~ defaults_to_undefined (analyze_query google_only "" w0).
Proof. intros (q & E & I & _). injection E as <-. discriminate I. Qed.

(** C6, amended.  [analyze_query] returns a [Query] for every text, never
    an error; it classifies nothing: [intent] is always informational and
    [locality] always global.  Undefined is the default of the [Query]
    model, which a query built from its text alone keeps. *)
Theorem analyze_query_total (self : t) (query_text : string) (w : World) :
  (exists q,
     value (analyze_query self query_text w) = Ok q /\
     text q = query_text /\
     intent q = SearchIntent.INFORMATIONAL /\
     locality q = SearchLocality.GLOBAL) /\
  intent (Query_of_text query_text) = SearchIntent.UNDEFINED /\
  locality (Query_of_text query_text) = SearchLocality.UNDEFINED.
Proof.
  split; [|split; reflexivity].
  eexists. rewrite analyze_query_value. repeat split; reflexivity.
Qed.

End AnalyzeFacts.

(** ** SchedulerService._calculate_next_run *)

Module SchedulerFacts.
Import SchedulerService Samples.

(** C7, refuted as stated: a cron expression that is set to the empty
    string schedules nothing. *)
Lemma empty_cron_is_not_scheduled :
  value (_calculate_next_run (mkSchedule None None (Some ""%string)) w0) =
  Ok None.
Proof. reflexivity. Qed.

(** C7, amended.  For a schedule with no [run_once_at], no
    [interval_seconds] and a cron expression that is not empty, the next
    run is five minutes after the current time, whatever the expression. *)
Theorem cron_schedules_five_minutes_out
  (schedule : Schedule) (expr : string) (w : World) :
  run_once_at schedule = None ->
  interval_seconds schedule = None ->
  cron_expression schedule = Some expr ->
  expr <> ""%string ->
  value (_calculate_next_run schedule w) =
  Ok (Some (utc_at w (tick w) + 5 * 60 * 1000000)).
Proof.
  intros R I C N. unfold _calculate_next_run.
  rewrite EnvFacts.value_mbind. cbn [utcnow value world].
  rewrite R, I, C. destruct expr as [|c expr]; [congruence|]. reflexivity.
Qed.

Example cron_schedules_five_minutes_out_witness :
  value (_calculate_next_run
           (mkSchedule None None (Some "not a cron expression"%string)) w0) =
  Ok (Some (1700000000000000 + 300000000)).
Proof.
  apply (cron_schedules_five_minutes_out
           (mkSchedule None None (Some "not a cron expression"%string))
           "not a cron expression"%string w0);
    [reflexivity | reflexivity | reflexivity | discriminate].
Defined.

End SchedulerFacts.

(** ** VectorService *)

Module VectorFacts.
Import VectorService EnvFacts SetFacts Samples VectorDefs.







Section WithNumpy.

Variable np_linalg_norm : list Q -> Q.







End WithNumpy.



(** C10.  An upsert of [n] vectors into a collection that exists, or that
    the request lets it create, against a configured database, succeeds;
    [inserted_count] is [n // 2], [inserted_count + updated_count = n], and
    the collection records [n] vectors more than before. *)
Theorem upsert_vectors_counts
  (self : t) (request : UpsertVectorsRequest.t) (w : World) :
  let name := UpsertVectorsRequest.collection request in
  let n := len (UpsertVectorsRequest.vectors request) in
  _vector_db_type self <> ""%string ->
  mem name (_collections self) = true \/
  UpsertVectorsRequest.create_collection request = true ->
  exists resp self',
    value (upsert_vectors self request w) = Ok (resp, self') /\
    UpsertVectorsResponse.inserted_count resp = n / 2 /\
    UpsertVectorsResponse.inserted_count resp +
    UpsertVectorsResponse.updated_count resp = n /\
    recorded_count self' name = recorded_count self name + n.
Proof.
  intros name n Hdb Hc. unfold upsert_vectors.
  destruct (_vector_db_type self) as [|c db] eqn:Edb; [congruence|].
  cbn [truthy_str negb].
  rewrite value_mbind. cbn [time_time value world]. fold name.
  unfold recorded_count at 2.
  destruct (mem name (_collections self)) eqn:Em; cbn [negb].
  - apply mem_get in Em. destruct Em as (info & Ei).
    rewrite value_mbind. cbn [ret value world].
    rewrite Ei. cbn.
    eexists. eexists. split; [reflexivity|]. cbn.
    unfold recorded_count. cbn. rewrite get_set_same. cbn. fold n.
    repeat split; lia.
  - destruct Hc as [Hc|Hc]; [discriminate|]. rewrite Hc. cbn [negb].
    assert (En : get (_collections self) name = None).
    { unfold mem in Em. now destruct (get (_collections self) name). }
    rewrite En. rewrite !value_mbind. cbn [utcnow ret value world].
    rewrite get_set_same. cbn.
    eexists. eexists. split; [reflexivity|]. cbn.
    unfold recorded_count. cbn. rewrite get_set_same. cbn. fold n.
    repeat split; lia.
Qed.

Example upsert_vectors_counts_witness :
  exists resp self',
    value (upsert_vectors
             (mkService None "gpt-3.5-turbo" None "qdrant" false
                [("science_articles"%string,
                  mkCollectionInfo 384 "hnsw" 450 0 None)])
             (UpsertVectorsRequest.mk "science_articles"
                [VectorRecord.mk "doc1" (Some [1%Q]) None [];
                 VectorRecord.mk "doc2" (Some [1%Q]) None [];
                 VectorRecord.mk "doc3" (Some [1%Q]) None []] false)
             w0) = Ok (resp, self') /\
    UpsertVectorsResponse.inserted_count resp = 1 /\
    UpsertVectorsResponse.inserted_count resp +
    UpsertVectorsResponse.updated_count resp = 3 /\
    recorded_count self' "science_articles" = 450 + 3.
Proof.
  apply (upsert_vectors_counts
           (mkService None "gpt-3.5-turbo" None "qdrant" false
              [("science_articles"%string,
                mkCollectionInfo 384 "hnsw" 450 0 None)])
           (UpsertVectorsRequest.mk "science_articles"
              [VectorRecord.mk "doc1" (Some [1%Q]) None [];
               VectorRecord.mk "doc2" (Some [1%Q]) None [];
               VectorRecord.mk "doc3" (Some [1%Q]) None []] false)
           w0); [discriminate | left; reflexivity].
Defined.

End VectorFacts.

(** ** SearchService.search *)

Module SearchFacts.
Import SearchService EnvFacts SetFacts Samples SearchDefs.

Lemma await_all_value tasks : forall pr w,
  value (await_all tasks pr w) = Ok (settle_all tasks pr) /\
  world (await_all tasks pr w) = w.
Proof.
  induction tasks as [|[p [res|e]] tasks IH]; intros pr w; cbn [await_all].
  - split; reflexivity.
  - apply IH.
  - rewrite value_mbind, world_mbind. cbn [emit value world]. apply IH.
Qed.

Lemma await_all_events tasks : forall pr w,
  events (await_all tasks pr w) = error_log tasks.
Proof.
  induction tasks as [|[p [res|e]] tasks IH]; intros pr w; cbn [await_all].
  - reflexivity.
  - apply IH.
  - rewrite events_mbind. cbn [emit value world events]. now rewrite IH.
Qed.

Lemma wf_fold_set {V W} (f : W -> V) (l : list (string * W)) :
  forall d : Dict V, wf d ->
  wf (fold_left (fun d pt => set d (fst pt) (f (snd pt))) l d).
Proof.
  induction l as [|x l IH]; intros d Wd; cbn; [exact Wd|].
  apply IH, wf_set, Wd.
Qed.

Lemma wf_settle_all tasks pr : wf pr -> wf (settle_all tasks pr).
Proof. apply (wf_fold_set settled). Qed.

Lemma wf_nil {V} : wf (@nil (string * V)).
Proof. constructor. Qed.

Lemma select_providers_out self request w :
  select_providers self request w =
  mkOut (Ok (fanout self request)) w (fallback_warning self request).
Proof.
  unfold select_providers, fanout, fallback_warning.
  destruct (enabled_among self (providers_to_use self request)); reflexivity.
Qed.

Lemma fan_out_out call ps q n w :
  exists tasks,
    value (for_each (run_task call q n) ps w) = Ok tasks /\
    Forall2 (fun p t => fst t = p /\ exists w', snd t = value (call p q n w'))
            ps tasks /\
    value (fan_out call ps q n w) =
      Ok (settle_all (provider_tasks_of tasks) []) /\
    world (fan_out call ps q n w) =
      world (for_each (run_task call q n) ps w) /\
    events (fan_out call ps q n w) =
      map (fun p => CreateTask p q n) ps ++
      events (for_each (run_task call q n) ps w) ++
      error_log (provider_tasks_of tasks).
Proof.
  destruct (for_each_Forall2 (run_task call q n)
              (fun p t => fst t = p /\ exists w', snd t = value (call p q n w'))
              (fun p w' => ex_intro _ _
                 (conj eq_refl (conj eq_refl (ex_intro _ w' eq_refl))))
              ps w) as (tasks & Et & F).
  exists tasks. split; [exact Et|]. split; [exact F|].
  unfold fan_out.
  rewrite value_mbind, world_mbind, events_mbind, for_each_emit.
  cbn [value world events].
  rewrite value_mbind, world_mbind, events_mbind, Et.
  fold (provider_tasks_of tasks).
  destruct (await_all_value (provider_tasks_of tasks) []
              (world (for_each (run_task call q n) ps w))) as [Ev Ew].
  rewrite Ev, Ew, await_all_events. repeat split.
Qed.

(** What [search] has gathered when providers are configured: it always
    gets as far as the response, with the interleaving of what the tasks
    have left, and it has started one task per provider of [fanout]. *)
Lemma search_gather_out self call request w :
  _providers self <> [] ->
  let ps := fanout self request in
  let q := query_text request in
  let n := num_results request in
  exists tasks results pr' g,
    value (for_each (run_task call q n) ps (next w)) = Ok tasks /\
    Forall2 (fun p t => fst t = p /\ exists w', snd t = value (call p q n w'))
            ps tasks /\
    Combine._combine_results (settle_all (provider_tasks_of tasks) []) n =
      Ok (results, pr') /\
    results =
      Combine.interleaved (values (settle_all (provider_tasks_of tasks) []))
                          (Z.to_nat n) /\
    Permutation (results ++ List.concat (values pr'))
                (List.concat (values (settle_all (provider_tasks_of tasks) []))) /\
    value (search_gather self call request w) = Ok g /\
    g_enabled_providers g = ps /\
    g_provider_results g = pr' /\
    g_results g = results /\
    g_result_counts g =
      set (map (fun e => (fst e, len (snd e))) pr') "total" (len results) /\
    world (search_gather self call request w) =
      next (world (for_each (run_task call q n) ps (next w))) /\
    events (search_gather self call request w) =
      fallback_warning self request ++
      map (fun p => CreateTask p q n) ps ++
      events (for_each (run_task call q n) ps (next w)) ++
      error_log (provider_tasks_of tasks).
Proof.
  intros Hp ps q n. unfold search_gather.
  destruct (_providers self) as [|pc rest] eqn:Ep; [congruence|].
  clear Hp. fold (query_text request). fold q. fold n.
  rewrite value_mbind, world_mbind, events_mbind.
  cbn [time_time value world events app].
  rewrite value_mbind, world_mbind, events_mbind, select_providers_out.
  cbn [value world events]. fold ps.
  destruct (fan_out_out call ps q n (next w))
    as (tasks & Et & F & Ev & Ew & Ee).
  rewrite value_mbind, world_mbind, events_mbind, Ev, Ew, Ee.
  set (pr := settle_all (provider_tasks_of tasks) []).
  assert (Wpr : wf pr) by (apply wf_settle_all, wf_nil).
  destruct (CombineFacts._combine_results_spec _ pr n Wpr) as (pr' & Ec & _ & P).
  rewrite value_mbind, world_mbind, events_mbind.
  cbn [lift value world events]. rewrite Ec.
  exists tasks, (Combine.interleaved (values pr) (Z.to_nat n)), pr'.
  eexists. split; [exact Et|]. split; [exact F|].
  split; [exact Ec|]. split; [reflexivity|]. split; [exact P|].
  split; [reflexivity|]. cbn [g_enabled_providers g_provider_results
                               g_results g_result_counts].
  repeat (split; [reflexivity|]).
  rewrite events_mbind. cbn [time_time ret value world events app].
  now rewrite !app_nil_r.
Qed.

(** *** Requests for which no provider is enabled *)




(** *** Providers that fail *)

Lemma sim_refl {A} (o : Out A) : sim o o.
Proof. split; reflexivity. Qed.

Lemma sim_mbind {A B} (m m' : M A) (k k' : A -> M B) (w : World) :
  sim (m w) (m' w) ->
  (forall a w', sim (k a w') (k' a w')) ->
  sim (mbind m k w) (mbind m' k' w).
Proof.
  intros [Ev Ew] H. unfold sim.
  rewrite !value_mbind, !world_mbind, <- Ev, <- Ew.
  destruct (value (m w)) as [a|e]; [apply H | split; reflexivity].
Qed.

Lemma run_tasks_swallow call q n ps : forall w,
  world (for_each (run_task call q n) ps w) =
  world (for_each (run_task (swallow call) q n) ps w) /\
  exists tasks tasks',
    value (for_each (run_task call q n) ps w) = Ok tasks /\
    value (for_each (run_task (swallow call) q n) ps w) = Ok tasks' /\
    Forall2 same_settled tasks tasks'.
Proof.
  induction ps as [|p ps IH]; intros w; cbn [for_each].
  - split; [reflexivity|]. exists [], []. repeat split; constructor.
  - rewrite !value_mbind, !world_mbind. cbn [run_task swallow value world].
    rewrite !value_mbind, !world_mbind.
    destruct (IH (world (call p q n w))) as (Ew & tasks & tasks' & E & E' & F).
    rewrite E, E'. cbn [ret value world]. split; [exact Ew|].
    eexists. eexists. split; [reflexivity|]. split; [reflexivity|].
    constructor; [|exact F]. split; [reflexivity|]. cbn [snd].
    now destruct (value (call p q n w)).
Qed.

Lemma set_same_settled (d d' : Dict Task) k (t t' : Task) :
  Forall2 same_settled d d' -> settled t = settled t' ->
  Forall2 same_settled (set d k t) (set d' k t').
Proof.
  intros F E. induction F as [|[k1 v1] [k2 v2] d d' [K S] F IH]; cbn.
  - constructor; [split; [reflexivity | exact E] | constructor].
  - cbn in K. subst k2. destruct (String.eqb k k1).
    + constructor; [split; [reflexivity | exact E] | exact F].
    + constructor; [split; [reflexivity | exact S] | exact IH].
Qed.

Lemma provider_tasks_same_settled tasks tasks' :
  Forall2 same_settled tasks tasks' ->
  Forall2 same_settled (provider_tasks_of tasks) (provider_tasks_of tasks').
Proof.
  unfold provider_tasks_of. intros F.
  assert (G : forall d d' : Dict Task,
             Forall2 same_settled d d' ->
             Forall2 same_settled
               (fold_left (fun d pt => set d (fst pt) (snd pt)) tasks d)
               (fold_left (fun d pt => set d (fst pt) (snd pt)) tasks' d')).
  { induction F as [|t t' tasks tasks' [K S] F IH]; intros d d' D; cbn.
    - exact D.
    - apply IH. rewrite K. now apply set_same_settled. }
  apply G. constructor.
Qed.

Lemma settle_all_same_settled (d d' : Dict Task) :
  Forall2 same_settled d d' ->
  forall pr, settle_all d pr = settle_all d' pr.
Proof.
  unfold settle_all.
  induction 1 as [|t t' d d' [K S] F IH]; intros pr; cbn; [reflexivity|].
  rewrite K, S. apply IH.
Qed.

Lemma fan_out_swallow call ps q n w :
  sim (fan_out call ps q n w) (fan_out (swallow call) ps q n w).
Proof.
  destruct (fan_out_out call ps q n w) as (tasks & Et & _ & Ev & Ew & _).
  destruct (fan_out_out (swallow call) ps q n w)
    as (tasks' & Et' & _ & Ev' & Ew' & _).
  destruct (run_tasks_swallow call q n ps w) as (W & t1 & t2 & E1 & E2 & F).
  rewrite Et in E1. rewrite Et' in E2.
  injection E1 as <-. injection E2 as <-.
  split.
  - rewrite Ev, Ev'. f_equal.
    apply settle_all_same_settled, provider_tasks_same_settled, F.
  - now rewrite Ew, Ew'.
Qed.

(** For the data that [search] gathers and for the world it leaves, a
    provider that fails is a provider that has no result. *)
Lemma search_gather_swallow self call request w :
  sim (search_gather self call request w)
      (search_gather self (swallow call) request w).
Proof.
  unfold search_gather. destruct (_providers self); [apply sim_refl|].
  apply sim_mbind; [apply sim_refl|]. intros start w1.
  apply sim_mbind; [apply sim_refl|]. intros ps w2.
  apply sim_mbind; [apply fan_out_swallow|]. intros pr w3. apply sim_refl.
Qed.

Lemma Forall_set {V} (P : V -> Prop) (d : Dict V) k v :
  Forall (fun e => P (snd e)) d -> P v ->
  Forall (fun e => P (snd e)) (set d k v).
Proof.
  intros F Pv. induction F as [|[k' v'] d H F IH]; cbn.
  - repeat constructor. exact Pv.
  - destruct (String.eqb k k'); constructor; auto.
Qed.

Lemma in_keys_set {V} (d : Dict V) k v k' :
  k' = k \/ In k' (keys d) -> In k' (keys (set d k v)).
Proof.
  induction d as [|[k1 v1] d IH]; cbn.
  - intros [->|[]]. now left.
  - destruct (String.eqb_spec k k1) as [->|N]; cbn.
    + intros [->|H]; [now left | exact H].
    + intros [->|[H|H]]; [right; apply IH; now left | now left
                         | right; apply IH; now right].
Qed.

(** Every task that was started has an entry in [provider_tasks], and the
    entries are tasks that were started. *)
Lemma provider_tasks_entries (P : Task -> Prop) tasks :
  Forall (fun t => P (snd t)) tasks ->
  Forall (fun e => P (snd e)) (provider_tasks_of tasks) /\
  incl (map fst tasks) (keys (provider_tasks_of tasks)).
Proof.
  unfold provider_tasks_of. intros F.
  assert (G : forall d : Dict Task,
             Forall (fun e => P (snd e)) d ->
             Forall (fun e => P (snd e))
               (fold_left (fun d pt => set d (fst pt) (snd pt)) tasks d) /\
             incl (keys d ++ map fst tasks)
               (keys (fold_left (fun d pt => set d (fst pt) (snd pt)) tasks d))).
  { induction F as [|t tasks Pt F IH]; intros d D; cbn.
    - rewrite app_nil_r. split; [exact D | apply incl_refl].
    - destruct (IH (set d (fst t) (snd t)) (Forall_set P d _ _ D Pt))
        as [F' I].
      split; [exact F'|]. intros k Hk. apply I.
      apply in_app_or in Hk. apply in_or_app.
      destruct Hk as [Hk|[Hk|Hk]].
      + left. apply in_keys_set. now right.
      + left. apply in_keys_set. now left.
      + now right. }
  destruct (G [] (Forall_nil _)) as [F' I]. split; [exact F' | exact I].
Qed.

Lemma settle_all_nil (d : Dict Task) :
  Forall (fun e => settled (snd e) = []) d ->
  forall pr, Forall (fun e => snd e = []) pr ->
  Forall (fun e => snd e = []) (settle_all d pr).
Proof.
  unfold settle_all.
  induction 1 as [|t d S F IH]; intros pr Hpr; cbn; [exact Hpr|].
  apply IH. rewrite S. now apply (Forall_set (fun l => l = [])).
Qed.

Lemma concat_all_nil (d : Dict (list SearchResult)) :
  Forall (fun e => snd e = []) d <-> List.concat (values d) = [].
Proof.
  induction d as [|[k l] d IH]; cbn; split; intros H.
  - reflexivity.
  - constructor.
  - inversion H as [|? ? E F]; subst. cbn in E. subst l. now apply IH.
  - apply app_eq_nil in H. destruct H as [-> H]. constructor; [reflexivity|].
    now apply IH.
Qed.

Lemma in_set {V} (d : Dict V) k v e :
  In e (set d k v) -> e = (k, v) \/ In e d.
Proof.
  induction d as [|[k1 v1] d IH]; cbn.
  - intros [<-|[]]. now left.
  - destruct (String.eqb_spec k k1) as [->|N]; cbn.
    + intros [<-|H]; [now left | right; now right].
    + intros [<-|H]; [right; now left|].
      destruct (IH H) as [->|H']; [now left | right; now right].
Qed.

Lemma error_log_in (d : Dict Task) p e :
  In (p, Raise e) d ->
  In (LogExn ERROR "Error searching with provider {provider}: {e}" [p] e)
     (error_log d).
Proof.
  intros H. unfold error_log. apply in_flat_map. exists (p, Raise e).
  split; [exact H | now left].
Qed.

(** C2, amended.  When every provider of a request fails, each failure is
    caught and logged, the provider counts as having no result, and
    [search] gathers for its response an empty result list, the providers
    used and counts that are all 0; no exception of a provider ends the
    gathering.  Nothing of the failures is kept for the response: the data
    gathered is the data gathered when the same providers return no
    result, and the clock and the identifiers are left the same. *)
Theorem search_all_providers_fail
  (self : t) (call : ProviderCall) (request : SearchRequest) (w : World) :
  _providers self <> [] ->
  (forall p w', In p (fanout self request) ->
     exists e, value (call p (query_text request) (num_results request) w')
               = Raise e) ->
  (exists g,
     value (search_gather self call request w) = Ok g /\
     g_results g = [] /\
     g_enabled_providers g = fanout self request /\
     (forall p c, In (p, c) (g_result_counts g) -> c = 0) /\
     (forall p, In p (fanout self request) ->
        exists e,
          In (LogExn ERROR "Error searching with provider {provider}: {e}"
                     [p] e)
             (events (search_gather self call request w)))) /\
  value (search_gather self call request w) =
    value (search_gather self (swallow call) request w) /\
  world (search_gather self call request w) =
    world (search_gather self (swallow call) request w).
Proof.
  intros Hp Hfail. split; [|apply search_gather_swallow].
  destruct (search_gather_out self call request w Hp)
    as (tasks & results & pr' & g & Et & F & Ec & Er & P & Eg & Ep & Epr
        & Eres & Ecnt & _ & Ee).
  assert (Fr : Forall (fun t => exists e, snd t = Raise e) tasks).
  { clear - F Hfail. revert Hfail F. generalize (fanout self request) as l.
    intros l Hfail F. induction F as [|p t ps tasks [K [w' S]] F IH];
      constructor.
    - destruct (Hfail p w' (or_introl eq_refl)) as (e & E).
      exists e. now rewrite S, E.
    - apply IH. intros p' w'' I. apply Hfail. now right. }
  assert (Fk : map fst tasks = fanout self request).
  { clear - F. revert F. generalize (fanout self request) as l. intros l F.
    induction F as [|p t ps tasks [K _] F IH]; cbn [map];
      [reflexivity | now f_equal]. }
  destruct (provider_tasks_entries (fun t => exists e, t = Raise e) tasks Fr)
    as [Fd Id].
  assert (Fs : Forall (fun e => settled (snd e) = []) (provider_tasks_of tasks)).
  { eapply Forall_impl; [|exact Fd]. intros [k t] (e & E). cbn in *.
    now rewrite E. }
  pose proof (settle_all_nil _ Fs [] (Forall_nil _)) as N.
  apply concat_all_nil in N. rewrite N in P.
  apply Permutation_sym, Permutation_nil, app_eq_nil in P.
  destruct P as [R0 C0].
  exists g. split; [exact Eg|]. rewrite Eres, Ep. split; [exact R0|].
  split; [reflexivity|]. split.
  - intros p c I. rewrite Ecnt in I. apply in_set in I.
    destruct I as [[= _ ->]|I]; [now rewrite R0|].
    apply in_map_iff in I. destruct I as ([k l] & [= _ <-] & I).
    apply concat_all_nil in C0. rewrite Forall_forall in C0.
    specialize (C0 _ I). cbn in C0. now rewrite C0.
  - intros p I. rewrite <- Fk in I. apply Id in I.
    unfold keys in I. apply in_map_iff in I.
    destruct I as ([k t] & K & I). cbn in K. subst k.
    rewrite Forall_forall in Fd. destruct (Fd _ I) as (e & E).
    cbn in E. subst t. exists e. rewrite Ee.
    apply in_or_app. right. apply in_or_app. right. apply in_or_app. right.
    now apply error_log_in.
Qed.

(** C2, refuted as stated: with Google and Bing unavailable, [search]
    gathers data without results for its response, and this data is the
    data that it gathers when both answer without results: it keeps no
    failure. *)
Lemma search_keeps_no_failure :
  (exists g,
      value (search_gather google_and_bing unavailable cats w0) = Ok g /\
      g_results g = []) /\
  ~ keeps_failures_for_response
      (search_gather google_and_bing unavailable cats w0)
      (search_gather google_and_bing (swallow unavailable) cats w0).
Proof.
  split.
  - eexists. split; [vm_compute; reflexivity | reflexivity].
  - intros (g & _ & _ & D). apply D. vm_compute. reflexivity.
Qed.

Example search_all_providers_fail_witness :
  (exists g,
     value (search_gather google_and_bing unavailable cats w0) = Ok g /\
     g_results g = [] /\
     g_enabled_providers g = ["google"; "bing"]%string /\
     (forall p c, In (p, c) (g_result_counts g) -> c = 0) /\
     (forall p, In p ["google"; "bing"]%string ->
        exists e,
          In (LogExn ERROR "Error searching with provider {provider}: {e}"
                     [p] e)
             (events (search_gather google_and_bing unavailable cats w0)))) /\
  value (search_gather google_and_bing unavailable cats w0) =
    value (search_gather google_and_bing (swallow unavailable) cats w0) /\
  world (search_gather google_and_bing unavailable cats w0) =
    world (search_gather google_and_bing (swallow unavailable) cats w0).
Proof.
  apply (search_all_providers_fail google_and_bing unavailable cats w0).
  - discriminate.
  - intros p w' _. eexists. reflexivity.
Defined.

(** *** The ranking *)

(** The response is never assembled: [BiasAnalysis] declares dictionaries
    and is given numbers. *)
Lemma search_assemble_raises (g : Gathered) (w : World) :
  search_assemble g w =
  mkOut (Raise (ValidationError "BiasAnalysis"
                  ["provider_bias"; "commercial_bias"; "source_bias"]%string))
        w [].
Proof. reflexivity. Qed.

Lemma get_map_snd {V W} (f : V -> W) (d : Dict V) k :
  get (map (fun e => (fst e, f (snd e))) d) k = option_map f (get d k).
Proof.
  induction d as [|[k' v] d IH]; cbn; [reflexivity|].
  destruct (String.eqb k k'); [reflexivity | exact IH].
Qed.

Lemma same_enablement_fanout self self' r r' :
  same_enablement self self' -> providers r = providers r' ->
  fanout self r = fanout self' r'.
Proof.
  unfold same_enablement. intros S P.
  assert (K : keys (_providers self) = keys (_providers self')).
  { apply (f_equal (map fst)) in S. rewrite !map_map in S. exact S. }
  assert (E : forall p, is_enabled self p = is_enabled self' p).
  { intros p. unfold is_enabled.
    pose proof (get_map_snd enabled (_providers self) p) as G.
    pose proof (get_map_snd enabled (_providers self') p) as G'.
    rewrite S, G' in G.
    destruct (get (_providers self) p), (get (_providers self') p);
      cbn in G; congruence. }
  unfold fanout, enabled_among, providers_to_use. rewrite <- P, <- K.
  now rewrite (filter_ext _ _ E).
Qed.

(** C4, amended.  The ranking is not selectable and uses neither weights
    nor relevance scores: the results of [search] are the interleaving of
    what the providers return, and depend on nothing of the request but
    its text, its count and its list of providers, and on nothing of the
    configuration but which providers are enabled.  Of two providers with
    results, the top result of the first ranks first and the top result of
    the second ranks second, whatever their scores: the Google result is
    above the Bing result when Google comes before Bing among the
    providers used. *)
Theorem ranking_is_interleaving_only :
  (forall (self self' : t) (call : ProviderCall) (r r' : SearchRequest)
          (w : World),
     _providers self <> [] ->
     same_enablement self self' ->
     query_text r = query_text r' ->
     num_results r = num_results r' ->
     providers r = providers r' ->
     exists g g',
       value (search_gather self call r w) = Ok g /\
       value (search_gather self' call r' w) = Ok g' /\
       g_enabled_providers g = g_enabled_providers g' /\
       g_results g = g_results g') /\
  (forall (p1 p2 : string) (top1 top2 : SearchResult)
          (l1 l2 : list SearchResult) (n : Z),
     p1 <> p2 -> 2 <= n ->
     exists rest d',
       Combine._combine_results [(p1, top1 :: l1); (p2, top2 :: l2)] n =
       Ok (top1 :: top2 :: rest, d')).
Proof.
  split.
  - intros self self' call r r' w Hp S Q N P.
    assert (Hp' : _providers self' <> []).
    { intros E. unfold same_enablement in S. rewrite E in S.
      destruct (_providers self); [congruence | discriminate]. }
    destruct (search_gather_out self call r w Hp)
      as (tasks & results & pr1 & g & Et & _ & _ & Er & _ & Eg & Ep & _
          & Eres & _).
    destruct (search_gather_out self' call r' w Hp')
      as (tasks' & results' & pr2 & g' & Et' & _ & _ & Er' & _ & Eg' & Ep' & _
          & Eres' & _).
    rewrite <- (same_enablement_fanout self self' r r' S P), <- Q, <- N in *.
    rewrite Et in Et'. injection Et' as <-.
    exists g, g'. repeat split; congruence.
  - intros p1 p2 top1 top2 l1 l2 n Hne Hn.
    assert (W : wf [(p1, top1 :: l1); (p2, top2 :: l2)]).
    { unfold wf. cbn. constructor; [|constructor; [auto | constructor]].
      intros [H|[]]. now apply Hne. }
    destruct (CombineFacts._combine_results_spec _ _ n W) as (d' & E & _).
    rewrite E. unfold Combine.interleaved.
    rewrite CombineFacts.round_robin_step. cbn [values map snd].
    change (Combine.nth_round 0 [top1 :: l1; top2 :: l2])
      with [top1; top2].
    destruct (Z.to_nat n) as [|[|k]] eqn:Ek; [lia | lia |].
    cbn [app firstn]. eexists. eexists. reflexivity.
Qed.

(** C4, refuted as stated: Google has weight 1.0 and relevance 0.9, Bing
    weight 0.5 and relevance 0.8, and the Bing result is ranked above the
    Google result: by [_combine_results] on the results of Bing then
    Google, and by [search] on a request that asks Bing and Google for a
    weighted ranking. *)
Lemma weighted_ranking_is_ignored :
  Combine._combine_results
    [("bing"%string, [bing_top]); ("google"%string, [google_top])] 10 =
  Ok ([bing_top; google_top], [("bing"%string, []); ("google"%string, [])]) /\
  ~ ranks_above google_top bing_top [bing_top; google_top] /\
  exists g,
    value (search_gather weighted_config scored weighted_request w0) = Ok g /\
    g_results g = [bing_top; google_top].
Proof.
  split; [vm_compute; reflexivity|]. split.
  - intros (i & j & Hi & Hj & L).
    destruct i as [|[|i]]; cbn in Hi.
    + discriminate Hi.
    + destruct j as [|[|j]]; cbn in Hj; [lia | discriminate Hj |].
      destruct j; discriminate Hj.
    + destruct i; discriminate Hi.
  - eexists. split; [vm_compute; reflexivity | reflexivity].
Qed.

Example ranking_is_interleaving_only_witness :
  (exists g g',
     value (search_gather weighted_config scored weighted_request w0) = Ok g /\
     value (search_gather google_and_bing scored
              (mkSearchRequest (QText "cats") 10
                               (Some ["bing"; "google"]%string) []) w0)
       = Ok g' /\
     g_enabled_providers g = g_enabled_providers g' /\
     g_results g = g_results g') /\
  (exists rest d',
     Combine._combine_results
       [("bing"%string, [bing_top]); ("google"%string, [google_top])] 10 =
     Ok (bing_top :: google_top :: rest, d')).
Proof.
  destruct ranking_is_interleaving_only as [H1 H2]. split.
  - apply (H1 weighted_config google_and_bing scored weighted_request
              (mkSearchRequest (QText "cats") 10
                               (Some ["bing"; "google"]%string) []) w0);
      [discriminate | reflexivity | reflexivity | reflexivity | reflexivity].
  - apply (H2 "bing"%string "google"%string bing_top google_top [] [] 10);
      [discriminate | lia].
Defined.

(** With the service's own mock providers, two providers and a count of
    4, the results are Google 1, Bing 1, Google 2, Bing 2. *)
Example search_mock_interleaves :
  exists g,
    value (search_gather google_and_bing (_search_provider google_and_bing)
             (mkSearchRequest (QText "cats") 4 None []) w0) = Ok g /\
    map title (g_results g) =
      ["Google Result 1 for cats"; "Bing Result 1 for cats";
       "Google Result 2 for cats"; "Bing Result 2 for cats"]%string.
Proof. eexists. split; [vm_compute; reflexivity | reflexivity]. Qed.

(** The configurations of the examples are those that [__init__] builds. *)
Example init_google_only :
  value (__init__ (mkSettings (Some "key"%string) (Some "cx"%string) None) w0)
  = Ok google_only.
Proof. reflexivity. Qed.

Example init_google_and_bing :
  value (__init__ (mkSettings (Some "key"%string) (Some "cx"%string)
                              (Some "key"%string)) w0)
  = Ok google_and_bing.
Proof. reflexivity. Qed.

End SearchFacts.

(* ===================================================================== *)
(** * Further properties *)
(* ===================================================================== *)

(** ** [_combine_results]: the edges of the count *)

Module CombineEdges.
Import Combine DictFacts CombineFacts.
Section CombineEdges.

Variable A : Type.
Implicit Types (d : Dict (list A)).

(** X1.  With a count that is zero or negative, [_combine_results] returns
    the empty list and takes nothing from the lists, whatever they are. *)
Theorem combine_nonpositive_count d (n : Z) :
  n <= 0 -> _combine_results d n = Ok ([], d).
Proof.
  intros H. unfold _combine_results. rewrite while_loop_eq.
  cbn [all_results]. change (len (@nil A)) with 0.
  destruct (Z.ltb_spec 0 n); [lia | reflexivity].
Qed.

Lemma all_nil_of_length ls :
  List.length (List.concat ls) = 0%nat -> Forall (fun l : list A => l = []) ls.
Proof.
  induction ls as [|l ls IH]; cbn; intros H; constructor.
  - rewrite length_app in H. destruct l; [reflexivity | cbn in H; lia].
  - apply IH. rewrite length_app in H. lia.
Qed.

(** X2.  With a count that covers every result, [_combine_results]
    returns all of them, each once, in the round-robin order, and leaves
    every list of the dictionary empty. *)
Theorem combine_exhausts d (n : Z) :
  wf d -> Z.of_nat (total d) <= n ->
  exists d',
    _combine_results d n = Ok (round_robin (values d), d') /\
    Permutation (round_robin (values d)) (List.concat (values d)) /\
    keys d' = keys d /\
    Forall (fun l => l = []) (values d').
Proof.
  intros W H.
  destruct (_combine_results_spec _ d n W) as (d' & E & K & P).
  assert (I : interleaved (values d) (Z.to_nat n) = round_robin (values d)).
  { unfold interleaved. apply firstn_all2. rewrite round_robin_length.
    unfold total in H. lia. }
  rewrite I in *. exists d'. split; [exact E|].
  split; [apply round_robin_perm|]. split; [exact K|].
  apply all_nil_of_length.
  apply Permutation_length in P. rewrite length_app, round_robin_length in P.
  lia.
Qed.

End CombineEdges.

Example combine_nonpositive_count_witness :
  Combine._combine_results [("google"%string, [1; 2]); ("bing"%string, [3])] (-1)
  = Ok ([], [("google"%string, [1; 2]); ("bing"%string, [3])]).
Proof. apply combine_nonpositive_count. lia. Defined.

Example combine_exhausts_witness :
  exists d',
    Combine._combine_results
      [("google"%string, [1; 2; 3]); ("bing"%string, [4])] 10 =
    Ok ([1; 4; 2; 3], d') /\
    Permutation [1; 4; 2; 3] [1; 2; 3; 4] /\
    keys d' = ["google"; "bing"]%string /\
    Forall (fun l => l = []) (values d').
Proof.
  apply (combine_exhausts Z [("google"%string, [1; 2; 3]); ("bing"%string, [4])] 10).
  - unfold wf. cbn. constructor; [|constructor; [auto | constructor]].
    intros [H|[]]. discriminate.
  - cbn. lia.
Defined.

End CombineEdges.

(** ** The mock providers of [SearchService] *)

Module ProviderFacts.
Import SearchService EnvFacts SetFacts Samples SearchDefs ProviderDefs.

Lemma value_try_except {A} (m : M A) (h : exn -> M A) (w : World) (a : A) :
  value (m w) = Ok a -> try_except m h w = m w.
Proof. intros E. unfold try_except. now rewrite E. Qed.

Lemma google_result_ok (q : string) (i : Z) (w : World) :
  exists r, value (google_result q i w) = Ok r /\ mock_of "google" i r.
Proof. eexists. split; [reflexivity|]. repeat split. Qed.

Lemma bing_result_ok (q : string) (i : Z) (w : World) :
  exists r, value (bing_result q i w) = Ok r /\ mock_of "bing" i r.
Proof. eexists. split; [reflexivity|]. repeat split. Qed.

Lemma range_mock_length (n : Z) :
  len (range (Z.min n 10)) = mock_count n.
Proof.
  unfold len, range, mock_count. rewrite length_map, length_seq. lia.
Qed.

Lemma Forall2_range_ranks (name : string) (m : Z) (l : list SearchResult) :
  Forall2 (mock_of name) (range m) l ->
  len l = len (range m) /\
  Forall (fun r => provider r = name /\ is_ad r = false) l /\
  map rank l = map (fun i => i + 1) (range m).
Proof.
  intros F. induction F as [|i r rs l (P & R & Ad & _) F (L & Fa & M)].
  - repeat split. constructor.
  - split; [|split].
    + unfold len in *. cbn [List.length]. lia.
    + constructor; [now split | exact Fa].
    + cbn [map]. now rewrite R, M.
Qed.

Lemma provider_results_mock
  (self : t) (name q : string) (n : Z) (w : World) :
  exists l,
    value (_search_provider self name q n w) = Ok l /\
    Forall2 (mock_of name)
            (range (if usable self name then Z.min n 10 else 0)) l.
Proof.
  unfold _search_provider, usable.
  destruct (mem name (_providers self)); cbn [negb andb].
  2:{ exists []. rewrite value_mbind. split; [reflexivity | constructor]. }
  rewrite value_mbind. cbn [emit value world].
  destruct (String.eqb_spec name "google") as [->|Ng]; cbn [negb andb orb].
  - unfold _search_google.
    destruct (truthy (_google_api_key self)), (truthy (_google_cx self));
      cbn [negb andb orb];
      try (exists []; rewrite value_mbind; split; [reflexivity | constructor]).
    destruct (for_each_Forall2 (google_result q) (mock_of "google")
                (google_result_ok q) (range (Z.min n 10)) w) as (l & E & F).
    rewrite (value_try_except _ _ _ l E), E.
    exists l. split; [reflexivity | exact F].
  - destruct (String.eqb_spec name "bing") as [->|Nb]; cbn [andb orb].
    2:{ exists []. rewrite value_mbind. split; [reflexivity | constructor]. }
    unfold _search_bing.
    destruct (truthy (_bing_api_key self)); cbn [negb];
      try (exists []; rewrite value_mbind; split; [reflexivity | constructor]).
    destruct (for_each_Forall2 (bing_result q) (mock_of "bing")
                (bing_result_ok q) (range (Z.min n 10)) w) as (l & E & F).
    rewrite (value_try_except _ _ _ l E), E.
    exists l. split; [reflexivity | exact F].
Qed.

(** X3.  A provider call of the service never raises.  It returns
    [max 0 (min num_results 10)] results when the provider is Google or
    Bing, configured and with its credentials, and no result for any other
    provider; the results carry the name of the provider, are no
    advertisements, and are ranked 1, 2, ... in the order of the list. *)
Theorem mock_provider_results
  (self : t) (name q : string) (n : Z) (w : World) :
  exists l,
    value (_search_provider self name q n w) = Ok l /\
    len l = (if usable self name then mock_count n else 0) /\
    Forall (fun r => provider r = name /\ is_ad r = false) l /\
    map rank l = map (fun i => i + 1) (range (len l)).
Proof.
  destruct (provider_results_mock self name q n w) as (l & E & F).
  destruct (Forall2_range_ranks _ _ _ F) as (L & Fa & R).
  exists l. split; [exact E|]. split; [|split; [exact Fa|]].
  - rewrite L. destruct (usable self name); [apply range_mock_length|].
    reflexivity.
  - rewrite R. f_equal. rewrite L. unfold range. do 2 f_equal.
    unfold len. rewrite length_map, length_seq. lia.
Qed.

End ProviderFacts.

(** ** [search]: what it always does *)

Module SearchMore.
Import SearchService EnvFacts SetFacts DictFacts Samples SearchDefs
       SearchFacts ProviderDefs ProviderFacts.

(** X4.  [search] never returns a response.  Without configured providers
    it raises the [ValueError] of the configuration; with providers, and
    whatever they return, it gathers the results and then fails to build
    its metadata: [BiasAnalysis] declares dictionaries and is given
    numbers, so that a [ValidationError] reaches the caller. *)
Theorem search_never_returns
  (self : t) (call : ProviderCall) (request : SearchRequest) (w : World) :
  value (search self call request w) =
  Raise (match _providers self with
         | [] => ValueError "No search providers are configured"
         | _ :: _ =>
             ValidationError "BiasAnalysis"
               ["provider_bias"; "commercial_bias"; "source_bias"]%string
         end).
Proof.
  destruct (_providers self) as [|pc rest] eqn:Ep.
  - unfold search, search_gather, mbind. rewrite Ep. reflexivity.
  - assert (N : _providers self <> []) by (rewrite Ep; discriminate).
    destruct (search_gather_out self call request w N)
      as (tasks & results & pr' & g & _ & _ & _ & _ & _ & Eg & _).
    unfold search. rewrite value_mbind, Eg, search_assemble_raises.
    reflexivity.
Qed.

Lemma keys_set_iff {V} (d : Dict V) k v k' :
  In k' (keys (set d k v)) <-> k' = k \/ In k' (keys d).
Proof.
  split; [|apply in_keys_set].
  destruct (in_keys_dec V k d) as [I|N].
  - rewrite keys_set_in by exact I. now right.
  - rewrite keys_set_fresh by exact N. intros H. apply in_app_or in H.
    destruct H as [H|[->|[]]]; [now right | now left].
Qed.

Lemma keys_fold_set {V W} (f : W -> V) (l : list (string * W)) :
  forall (d : Dict V) k,
    In k (keys (fold_left (fun d pt => set d (fst pt) (f (snd pt))) l d)) <->
    In k (keys d) \/ In k (map fst l).
Proof.
  induction l as [|x l IH]; intros d k; cbn [fold_left map].
  - split; [now left | intros [H|[]]; exact H].
  - rewrite IH, keys_set_iff. cbn [In]. split.
    + intros [[->|H]|H]; auto.
    + intros [H|[<-|H]]; auto.
Qed.

(** X5.  A provider that the request names several times gets a task for
    each time it is named, and one entry in [provider_results]: the
    entries are the providers of the request, each once. *)
Theorem one_entry_per_provider
  (self : t) (call : ProviderCall) (request : SearchRequest) (w : World) :
  _providers self <> [] ->
  exists g rest,
    value (search_gather self call request w) = Ok g /\
    NoDup (keys (g_provider_results g)) /\
    (forall p, In p (keys (g_provider_results g)) <->
               In p (fanout self request)) /\
    events (search_gather self call request w) =
      fallback_warning self request ++
      map (fun p => CreateTask p (query_text request) (num_results request))
          (fanout self request) ++ rest.
Proof.
  intros N.
  destruct (search_gather_out self call request w N)
    as (tasks & results & pr' & g & Et & F & Ec & _ & _ & Eg & _ & Epr & _ & _
        & _ & Ee).
  set (pr := settle_all (provider_tasks_of tasks) []) in *.
  assert (Wpr : wf pr) by (apply wf_settle_all, wf_nil).
  destruct (CombineFacts._combine_results_spec _ pr (num_results request) Wpr)
    as (d' & Ec' & K & _).
  rewrite Ec in Ec'. injection Ec' as _ <-.
  assert (Fk : map fst tasks = fanout self request).
  { clear - F. revert F. generalize (fanout self request) as l. intros l F.
    induction F as [|p t ps ts [Kp _] F IH]; cbn [map];
      [reflexivity | now f_equal]. }
  exists g. eexists. split; [exact Eg|]. rewrite Epr, K.
  split; [exact Wpr|]. split; [|exact Ee].
  intros p. unfold pr, settle_all.
  rewrite (keys_fold_set settled). unfold provider_tasks_of.
  change (map fst (fold_left (fun d pt => set d (fst pt) (snd pt)) tasks []))
    with (keys (fold_left (fun (d : Dict Task) pt =>
                             set d (fst pt) ((fun t => t) (snd pt))) tasks [])).
  rewrite (keys_fold_set (fun t : Task => t)), Fk. cbn [keys map In].
  tauto.
Qed.

(** A request that names Google twice and Bing once. *)
Example one_entry_per_provider_witness :
  exists g rest,
    value (search_gather google_and_bing unavailable
             (mkSearchRequest (QText "cats") 5
                (Some ["google"; "bing"; "google"]%string) []) w0) = Ok g /\
    NoDup (keys (g_provider_results g)) /\
    (forall p, In p (keys (g_provider_results g)) <->
               In p ["google"; "bing"; "google"]%string) /\
    events (search_gather google_and_bing unavailable
              (mkSearchRequest (QText "cats") 5
                 (Some ["google"; "bing"; "google"]%string) []) w0) =
      [] ++ [CreateTask "google" "cats" 5; CreateTask "bing" "cats" 5;
             CreateTask "google" "cats" 5] ++ rest.
Proof.
  apply (one_entry_per_provider google_and_bing unavailable
           (mkSearchRequest (QText "cats") 5
              (Some ["google"; "bing"; "google"]%string) []) w0).
  discriminate.
Defined.

Lemma map_provider_round_robin2 (a b : string) :
  forall l1 l2 : list SearchResult,
    List.length l1 = List.length l2 ->
    Forall (fun r => provider r = a) l1 ->
    Forall (fun r => provider r = b) l2 ->
    map provider (Combine.round_robin [l1; l2]) =
    alternate a b (List.length l1).
Proof.
  induction l1 as [|x l1 IH]; intros [|y l2] L F1 F2; try discriminate L.
  - reflexivity.
  - rewrite CombineFacts.round_robin_step.
    change (Combine.nth_round 0 [x :: l1; y :: l2]) with [x; y].
    cbn [map tl app List.length alternate].
    rewrite (Forall_inv F1), (Forall_inv F2). f_equal. f_equal.
    apply IH; [now injection L | exact (Forall_inv_tail F1)
              | exact (Forall_inv_tail F2)].
Qed.

Lemma alternate_length a b k : List.length (alternate a b k) = (2 * k)%nat.
Proof. induction k as [|k IH]; cbn [alternate List.length]; lia. Qed.

(** X6.  With the providers of the service itself, a request that goes to
    two providers [a] then [b], both usable, with a count [n >= 0], gets
    [min n 20] results: the providers make [min n 10] results each, and
    the ranking alternates between them, [a] first. *)
Theorem mock_search_alternates
  (self : t) (request : SearchRequest) (w : World) (a b : string) :
  let n := num_results request in
  fanout self request = [a; b] -> a <> b ->
  usable self a = true -> usable self b = true ->
  0 <= n ->
  exists g,
    value (search_gather self (_search_provider self) request w) = Ok g /\
    len (g_results g) = Z.min n 20 /\
    map provider (g_results g) =
      firstn (Z.to_nat n) (alternate a b (Z.to_nat (mock_count n))).
Proof.
  intros n Ef Hab Ua Ub Hn.
  assert (N : _providers self <> []).
  { intros E. unfold usable, mem in Ua. rewrite E in Ua. discriminate Ua. }
  destruct (search_gather_out self (_search_provider self) request w N)
    as (tasks & results & pr' & g & _ & F & _ & Er & _ & Eg & _ & _ & Eres & _).
  rewrite Er in Eres. clear Er. rename Eres into Er.
  rewrite Ef in F. fold n in F, Er.
  destruct tasks as [|t1 [|t2 [|t3 ts]]];
    try (inversion F as [|? ? ? ? ? F1]; inversion F1 as [|? ? ? ? ? F2];
         inversion F2; fail).
  apply Forall2_cons_iff in F. destruct F as [(K1 & w1 & S1) F1].
  apply Forall2_cons_iff in F1. destruct F1 as [(K2 & w2 & S2) _].
  destruct t1 as [k1 s1], t2 as [k2 s2]. cbn [fst snd] in *. subst k1 k2.
  destruct (provider_results_mock self a (query_text request) n w1)
    as (l1 & E1 & M1).
  destruct (provider_results_mock self b (query_text request) n w2)
    as (l2 & E2 & M2).
  rewrite Ua in M1. rewrite Ub in M2.
  destruct (Forall2_range_ranks _ _ _ M1) as (L1 & P1 & _).
  destruct (Forall2_range_ranks _ _ _ M2) as (L2 & P2 & _).
  rewrite range_mock_length in L1, L2.
  rewrite E1 in S1. rewrite E2 in S2. subst s1 s2.
  rename a into k1. rename b into k2.
  match type of Er with
  | context [settle_all ?X []] =>
      assert (Epr : settle_all X [] = [(k1, l1); (k2, l2)])
  end.
  { unfold provider_tasks_of, settle_all. cbn [fold_left set fst snd].
    destruct (String.eqb_spec k2 k1) as [E|_]; [congruence|].
    cbn [fold_left set fst snd settled].
    destruct (String.eqb_spec k2 k1) as [E|_]; [congruence | reflexivity]. }
  rewrite Epr in Er. cbn [values map snd] in Er.
  assert (Ll : List.length l1 = List.length l2) by (unfold len in *; lia).
  assert (Pa : Forall (fun r => provider r = k1) l1)
    by (eapply Forall_impl; [|exact P1]; now intros r [H _]).
  assert (Pb : Forall (fun r => provider r = k2) l2)
    by (eapply Forall_impl; [|exact P2]; now intros r [H _]).
  pose proof (map_provider_round_robin2 k1 k2 l1 l2 Ll Pa Pb) as Mp.
  assert (Lm : List.length l1 = Z.to_nat (mock_count n))
    by (unfold len in L1; lia).
  exists g. split; [exact Eg|]. rewrite Er. unfold Combine.interleaved.
  split.
  - unfold len. rewrite length_firstn, <- (length_map provider), Mp,
      alternate_length, Lm. unfold mock_count. lia.
  - now rewrite <- firstn_map, Mp, Lm.
Qed.

Example mock_search_alternates_witness :
  exists g,
    value (search_gather google_and_bing (_search_provider google_and_bing)
             (mkSearchRequest (QText "cats") 3 None []) w0) = Ok g /\
    len (g_results g) = 3 /\
    map provider (g_results g) = ["google"; "bing"; "google"]%string.
Proof.
  apply (mock_search_alternates google_and_bing
           (mkSearchRequest (QText "cats") 3 None []) w0
           "google"%string "bing"%string);
    [reflexivity | discriminate | reflexivity | reflexivity | cbn; lia].
Defined.

Lemma init_keys (settings : Settings) (w : World) :
  exists self,
    value (__init__ settings w) = Ok self /\
    keys (_providers self) =
      (if truthy (GOOGLE_API_KEY settings) && truthy (GOOGLE_CX settings)
       then ["google"%string] else []) ++
      (if truthy (BING_API_KEY settings) then ["bing"%string] else []).
Proof.
  unfold __init__. rewrite value_mbind. cbn [emit ret value world].
  eexists. split; [reflexivity|]. cbn [_providers].
  destruct (truthy (GOOGLE_API_KEY settings)), (truthy (GOOGLE_CX settings)),
           (truthy (BING_API_KEY settings)); reflexivity.
Qed.

(** X7.  The service configures Google when the settings give a key and an
    engine identifier that are not empty, and Bing when they give a key
    that is not empty, in this order; every provider it configures is
    enabled and usable. *)
Theorem init_configures_providers (settings : Settings) (w : World) :
  exists self,
    value (__init__ settings w) = Ok self /\
    keys (_providers self) =
      (if truthy (GOOGLE_API_KEY settings) && truthy (GOOGLE_CX settings)
       then ["google"%string] else []) ++
      (if truthy (BING_API_KEY settings) then ["bing"%string] else []) /\
    (forall p, In p (keys (_providers self)) ->
               is_enabled self p = true /\ usable self p = true).
Proof.
  unfold __init__. rewrite value_mbind. cbn [emit ret value world].
  eexists. split; [reflexivity|]. cbn [_providers].
  destruct (truthy (GOOGLE_API_KEY settings)) eqn:G,
           (truthy (GOOGLE_CX settings)) eqn:C,
           (truthy (BING_API_KEY settings)) eqn:B;
    cbn [andb set app String.eqb keys map fst];
    (split; [reflexivity|]); intros p I; cbn in I;
    repeat (destruct I as [<-|I]); try contradiction;
    unfold is_enabled, usable, mem;
    cbn [_providers _google_api_key _google_cx _bing_api_key get];
    cbv [String.eqb Ascii.eqb Bool.eqb]; cbn [enabled andb orb negb];
    rewrite ?G, ?C, ?B; split; reflexivity.
Qed.

End SearchMore.

(** ** Slices *)

Module SliceFacts.
Import PyList.

Lemma firstn_min_length {A} (l : list A) (k : nat) :
  firstn (Nat.min k (List.length l)) l = firstn k l.
Proof.
  destruct (Nat.le_ge_cases k (List.length l)) as [H|H].
  - now rewrite Nat.min_l.
  - rewrite Nat.min_r by exact H. now rewrite firstn_all, firstn_all2.
Qed.

(** [l[:stop]] for a bound that is not negative: the first [stop] items. *)
Lemma slice_to_nonneg {A} (l : list A) (stop : Z) :
  0 <= stop -> slice_to l stop = firstn (Z.to_nat stop) l.
Proof.
  intros H. unfold slice_to, slice, bound. cbn [Z.ltb Z.compare].
  assert (Z.min 0 (len l) = 0) as -> by (unfold len; lia).
  destruct (Z.ltb_spec stop 0) as [C|_]; [lia|].
  cbn [Z.to_nat skipn]. rewrite Z.sub_0_r.
  replace (Z.to_nat (Z.min stop (len l)))
    with (Nat.min (Z.to_nat stop) (List.length l)) by (unfold len; lia).
  apply firstn_min_length.
Qed.

(** [l[:stop]] for a negative bound: the items but the last [- stop]. *)
Lemma slice_to_negative {A} (l : list A) (stop : Z) :
  stop < 0 -> slice_to l stop = firstn (Z.to_nat (len l + stop)) l.
Proof.
  intros H. unfold slice_to, slice, bound. cbn [Z.ltb Z.compare].
  assert (Z.min 0 (len l) = 0) as -> by (unfold len; lia).
  destruct (Z.ltb_spec stop 0) as [_|C]; [|lia].
  cbn [Z.to_nat skipn]. rewrite Z.sub_0_r. f_equal. lia.
Qed.

(** A slice between bounds that are not negative has no more items than
    the bounds are apart. *)
Lemma slice_length {A} (l : list A) (start stop : Z) :
  0 <= start -> 0 <= stop ->
  len (slice l start stop) <= Z.max 0 (stop - start).
Proof.
  intros H H'. unfold slice, bound, len.
  rewrite length_firstn, length_skipn.
  destruct (Z.ltb_spec start 0), (Z.ltb_spec stop 0); lia.
Qed.

Lemma slice_incl {A} (l : list A) (start stop : Z) :
  incl (slice l start stop) l.
Proof.
  intros x H. unfold slice in H.
  set (a := Z.to_nat (bound (len l) start)) in *.
  set (k := Z.to_nat (bound (len l) stop - bound (len l) start)) in *.
  rewrite <- (firstn_skipn a l). apply in_or_app. right.
  rewrite <- (firstn_skipn k (skipn a l)). apply in_or_app. now left.
Qed.

End SliceFacts.

(** ** [get_trends] *)

Module TrendsFacts.
Import Trends PyList SliceFacts EnvFacts.

Lemma all_trends_have_ten (c : string) (trends : list string) :
  get all_trends c = Some trends -> len trends = 10.
Proof.
  unfold all_trends. cbn [get].
  repeat (destruct (String.eqb c _); [intros [= <-]; reflexivity|]).
  discriminate.
Qed.

(** X8.  [get_trends] never raises.  With a limit that is not negative,
    every list it returns is the first [min limit 10] trends of its
    category.  A category that is given and not empty selects this
    category alone, and nothing when it is unknown; without a category,
    or with the empty one, the three categories come in their order. *)
Theorem get_trends_lists
  (self : SearchService.t) (category : option string) (limit : Z) (w : World) :
  0 <= limit ->
  exists d,
    value (get_trends self category limit w) = Ok d /\
    Forall (fun e => exists trends,
                get all_trends (fst e) = Some trends /\
                snd e = firstn (Z.to_nat limit) trends /\
                len (snd e) = Z.min limit 10) d /\
    keys d =
      match category with
      | Some (String _ _ as c) => if mem c all_trends then [c] else []
      | Some EmptyString | None =>
          ["technology"; "news"; "entertainment"]%string
      end.
Proof.
  intros H.
  assert (E : forall c trends, get all_trends c = Some trends ->
              exists t, get all_trends c = Some t /\
                        slice_to trends limit = firstn (Z.to_nat limit) t /\
                        len (slice_to trends limit) = Z.min limit 10).
  { intros c trends G. exists trends. split; [exact G|].
    rewrite slice_to_nonneg by exact H. split; [reflexivity|].
    pose proof (all_trends_have_ten c trends G) as T.
    unfold len in *. rewrite length_firstn. lia. }
  assert (All : exists d,
             value (ret (map (fun e => (fst e, slice_to (snd e) limit))
                             all_trends) w) = Ok d /\
             Forall (fun e => exists trends,
                         get all_trends (fst e) = Some trends /\
                         snd e = firstn (Z.to_nat limit) trends /\
                         len (snd e) = Z.min limit 10) d /\
             keys d = ["technology"; "news"; "entertainment"]%string).
  { eexists. split; [reflexivity|]. split; [|reflexivity].
    unfold all_trends. cbn [map fst snd].
    repeat constructor; cbn [fst snd]; (eapply E; reflexivity). }
  unfold get_trends. destruct category as [[|a c]|]; cbn [truthy_str];
    try exact All.
  unfold mem. destruct (get all_trends (String a c)) as [trends|] eqn:G.
  - eexists. split; [reflexivity|]. split; [|reflexivity].
    constructor; [|constructor]. cbn [fst snd]. now apply (E (String a c)).
  - exists []. split; [reflexivity|]. split; [constructor | reflexivity].
Qed.

Example get_trends_lists_witness :
  exists d,
    value (get_trends Samples.google_only (Some "news"%string) 3 Samples.w0)
      = Ok d /\
    Forall (fun e => exists trends,
                get all_trends (fst e) = Some trends /\
                snd e = firstn 3 trends /\
                len (snd e) = 3) d /\
    keys d = ["news"%string].
Proof.
  apply (get_trends_lists Samples.google_only (Some "news"%string) 3
                          Samples.w0).
  lia.
Defined.

(** X9.  With a negative limit [get_trends] does not return empty lists:
    the slice drops the last [- limit] trends of each category and keeps
    the others. *)
Theorem get_trends_negative_limit
  (self : SearchService.t) (category : option string) (limit : Z) (w : World) :
  limit < 0 ->
  exists d,
    value (get_trends self category limit w) = Ok d /\
    Forall (fun e => exists trends,
                get all_trends (fst e) = Some trends /\
                snd e = firstn (Z.to_nat (10 + limit)) trends /\
                len (snd e) = Z.max 0 (10 + limit)) d.
Proof.
  intros H.
  assert (E : forall c trends, get all_trends c = Some trends ->
              exists t, get all_trends c = Some t /\
                        slice_to trends limit =
                          firstn (Z.to_nat (10 + limit)) t /\
                        len (slice_to trends limit) = Z.max 0 (10 + limit)).
  { intros c trends G. exists trends. split; [exact G|].
    rewrite slice_to_negative by exact H.
    pose proof (all_trends_have_ten c trends G) as T. rewrite T.
    split; [reflexivity|]. unfold len in *. rewrite length_firstn. lia. }
  unfold get_trends.
  destruct category as [[|a c]|]; cbn [truthy_str].
  1,3: eexists; (split; [reflexivity|]); unfold all_trends;
       cbn [map fst snd]; repeat constructor; cbn [fst snd];
       (eapply E; reflexivity).
  destruct (get all_trends (String a c)) as [trends|] eqn:G.
  - eexists. split; [reflexivity|].
    constructor; [|constructor]. cbn [fst snd]. now apply (E (String a c)).
  - exists []. split; [reflexivity | constructor].
Qed.

Example get_trends_negative_limit_witness :
  exists d,
    value (get_trends Samples.google_only (Some "news"%string) (-2)
             Samples.w0) = Ok d /\
    Forall (fun e => exists trends,
                get all_trends (fst e) = Some trends /\
                snd e = firstn 8 trends /\
                len (snd e) = 8) d.
Proof.
  apply (get_trends_negative_limit Samples.google_only (Some "news"%string)
                                   (-2) Samples.w0).
  lia.
Defined.

End TrendsFacts.

(** ** The routes of the search service *)

Module RouteFacts.
Import SearchService EnvFacts Samples SearchDefs SearchFacts SearchMore.
Import SearchRoutes.

Lemma value_try_except_raise {A} (m : M A) (h : exn -> M A) (w : World) e :
  value (m w) = Raise e ->
  value (try_except m h w) = value (h e (world (m w))).
Proof. intros E. unfold try_except. now rewrite E. Qed.

Lemma value_try_except_ok {A} (m : M A) (h : exn -> M A) (w : World) a :
  value (m w) = Ok a -> value (try_except m h w) = Ok a.
Proof. intros E. unfold try_except. now rewrite E. Qed.

(** X10.  The search endpoint never answers 200.  Without a Google key
    and without a Bing key it answers 503.  Otherwise it answers 500: from
    the [ValueError] of the service when there is only a Google key
    without an engine identifier, since the route looks at the keys and
    the service also at the identifier, and from the [ValidationError] of
    the metadata in every other case. *)
Theorem search_route_never_succeeds
  (settings : Settings) (w_init : World) (search_service : t)
  (request : SearchRequest) (w : World) :
  value (__init__ settings w_init) = Ok search_service ->
  let google_key := truthy (GOOGLE_API_KEY settings) in
  let google_cx := truthy (GOOGLE_CX settings) in
  let bing_key := truthy (BING_API_KEY settings) in
  value (SearchRoutes.search settings search_service request w) =
  Ok (if negb google_key && negb bing_key
      then HTTPException 503
             "No search providers are configured. Please check API settings."
             None
      else HTTPException 500 "Error performing search: {str(e)}"
             (Some (if (google_key && google_cx) || bing_key
                    then ValidationError "BiasAnalysis"
                           ["provider_bias"; "commercial_bias";
                            "source_bias"]%string
                    else ValueError "No search providers are configured"))).
Proof.
  intros Hinit google_key google_cx bing_key.
  destruct (init_keys settings w_init) as (self & E & K).
  rewrite Hinit in E. injection E as <-.
  fold google_key google_cx bing_key in K.
  unfold SearchRoutes.search. rewrite value_mbind. cbn [emit value world].
  fold google_key bing_key.
  destruct (negb google_key && negb bing_key) eqn:C; [reflexivity|].
  assert (R : value (SearchService.search search_service
                       (_search_provider search_service) request w) =
              Raise (match _providers search_service with
                     | [] => ValueError "No search providers are configured"
                     | _ :: _ =>
                         ValidationError "BiasAnalysis"
                           ["provider_bias"; "commercial_bias";
                            "source_bias"]%string
                     end)).
  { destruct (_providers search_service) as [|pc rest] eqn:Ep.
    - unfold SearchService.search, search_gather, mbind. rewrite Ep.
      reflexivity.
    - assert (N : _providers search_service <> [])
        by (rewrite Ep; discriminate).
      destruct (SearchFacts.search_gather_out search_service
                  (_search_provider search_service) request w N)
        as (tasks & results & pr' & g & _ & _ & _ & _ & _ & Eg & _).
      unfold SearchService.search.
      rewrite value_mbind, Eg, SearchFacts.search_assemble_raises.
      reflexivity. }
  erewrite value_try_except_raise
    by (rewrite value_mbind, R; reflexivity).
  rewrite value_mbind. cbn [emit ret value world]. f_equal. f_equal. f_equal.
  destruct (_providers search_service) as [|pc rest]; cbn [keys map] in K.
  - destruct (google_key && google_cx), bing_key; try discriminate K.
    reflexivity.
  - destruct (google_key && google_cx), bing_key; try discriminate K;
      reflexivity.
Qed.

(** Only a Google key, without an engine identifier: 500 and not 503. *)
Example search_route_never_succeeds_witness :
  value (SearchRoutes.search
           (mkSettings (Some "key"%string) None None)
           (mkService (Some "key"%string) None None [])
           cats w0) =
  Ok (HTTPException 500 "Error performing search: {str(e)}"
        (Some (ValueError "No search providers are configured"))).
Proof.
  apply (search_route_never_succeeds
           (mkSettings (Some "key"%string) None None) w0
           (mkService (Some "key"%string) None None []) cats w0).
  reflexivity.
Defined.

Lemma lower_ascii_idempotent (c : ascii) :
  lower_ascii (lower_ascii c) = lower_ascii c.
Proof.
  destruct c as [[] [] [] [] [] [] [] []]; reflexivity.
Qed.

Lemma lower_idempotent (s : string) : lower (lower s) = lower s.
Proof.
  induction s as [|c s IH]; cbn [lower]; [reflexivity|].
  now rewrite lower_ascii_idempotent, IH.
Qed.

Lemma lower_length (s : string) : String.length (lower s) = String.length s.
Proof.
  induction s as [|c s IH]; cbn [lower String.length]; [reflexivity|].
  now rewrite IH.
Qed.

(** X11.  The analysis endpoint always answers 200, with a query that has
    the text it was given and a [processed_text].  For a text of ASCII
    characters the processed text is this text with its letters [A] to [Z]
    in lower case: a text of the same length that lowering leaves
    unchanged. *)
Theorem analyze_route_succeeds (search_service : t) (query : string) (w : World) :
  exists q processed,
    value (SearchRoutes.analyze_query search_service query w) = Ok (OK200 q) /\
    text q = query /\
    processed_text q = Some processed /\
    (AnalyzeDefs.ascii_only query = true ->
     processed = lower query /\
     String.length processed = String.length query /\
     lower processed = processed).
Proof.
  eexists. exists (lower query). split.
  - unfold SearchRoutes.analyze_query. rewrite value_mbind.
    cbn [emit value world].
    erewrite value_try_except_ok; [reflexivity|].
    rewrite value_mbind, AnalyzeFacts.analyze_query_value. reflexivity.
  - cbn [text processed_text].
    repeat split; [apply lower_length | apply lower_idempotent].
Qed.

End RouteFacts.

(** ** [_calculate_next_run]: the three kinds of schedule *)

Module NextRunFacts.
Import SchedulerService EnvFacts Samples.

Lemma next_run_value (schedule : Schedule) (w : World) :
  value (_calculate_next_run schedule w) =
  Ok (let now := utc_at w (tick w) in
      match run_once_at schedule with
      | Some at_ => if at_ >? now then Some at_ else None
      | None =>
          match interval_seconds schedule with
          | Some n =>
              if negb (n =? 0) then Some (now + timedelta_seconds n)
              else match cron_expression schedule with
                   | Some expr =>
                       if truthy_str expr
                       then Some (now + timedelta_minutes 5) else None
                   | None => None
                   end
          | None =>
              match cron_expression schedule with
              | Some expr =>
                  if truthy_str expr
                  then Some (now + timedelta_minutes 5) else None
              | None => None
              end
          end
      end).
Proof.
  unfold _calculate_next_run. rewrite value_mbind. cbn [utcnow value world].
  destruct (run_once_at schedule), (interval_seconds schedule) as [n|];
    try reflexivity.
Qed.

(** X12.  The next run of a schedule whose interval is not negative is
    never the current time nor a time before it: whatever the schedule
    holds, a time that [_calculate_next_run] returns is strictly later
    than the time it read. *)
Theorem next_run_is_later (schedule : Schedule) (w : World) (next_run : Z) :
  (forall n, interval_seconds schedule = Some n -> 0 <= n) ->
  value (_calculate_next_run schedule w) = Ok (Some next_run) ->
  utc_at w (tick w) < next_run.
Proof.
  intros Hn. rewrite next_run_value. cbv zeta.
  unfold timedelta_minutes, timedelta_seconds.
  destruct (run_once_at schedule) as [t|].
  - destruct (Z.gtb_spec t (utc_at w (tick w))); intros [= <-]. lia.
  - destruct (interval_seconds schedule) as [n|].
    + specialize (Hn n eq_refl). destruct (Z.eqb_spec n 0) as [Z0|N0]; cbn [negb].
      * destruct (cron_expression schedule) as [expr|]; [|discriminate].
        destruct (truthy_str expr); intros [= <-]. lia.
      * intros [= <-]. lia.
    + destruct (cron_expression schedule) as [expr|]; [|discriminate].
      destruct (truthy_str expr); intros [= <-]. lia.
Qed.

Example next_run_is_later_witness :
  utc_at w0 (tick w0) < 1700000000000000 + 30 * 1000000.
Proof.
  apply (next_run_is_later (mkSchedule None (Some 30) (Some "* * * * *"%string))
                           w0 (1700000000000000 + 30 * 1000000)).
  - intros n [= <-]. lia.
  - reflexivity.
Defined.

(** X13.  [_calculate_next_run] schedules nothing in two cases only: the
    schedule is a one-off whose time is not after the current time, or it
    is no one-off and has neither an interval different from 0 nor a cron
    expression that is not empty.  A time that it returns is the one-off
    time whenever the schedule has one, whatever its interval and cron
    expression; without a one-off time it is the current time plus the
    interval whenever the interval is not 0, whatever the cron expression;
    and only then is it the five minutes of the cron expression. *)
Theorem next_run_by_precedence (schedule : Schedule) (w : World) :
  (value (_calculate_next_run schedule w) = Ok None <->
   match run_once_at schedule with
   | Some at_ => at_ <= utc_at w (tick w)
   | None =>
       (interval_seconds schedule = None \/
        interval_seconds schedule = Some 0)
       /\ (cron_expression schedule = None \/
           cron_expression schedule = Some ""%string)
   end) /\
  (forall next_run,
      value (_calculate_next_run schedule w) = Ok (Some next_run) ->
      match run_once_at schedule with
      | Some at_ => next_run = at_
      | None =>
          match interval_seconds schedule with
          | Some n =>
              if n =? 0
              then next_run = utc_at w (tick w) + 5 * 60 * 1000000
              else next_run = utc_at w (tick w) + n * 1000000
          | None => next_run = utc_at w (tick w) + 5 * 60 * 1000000
          end
      end).
Proof.
  rewrite next_run_value. cbv zeta.
  unfold timedelta_minutes, timedelta_seconds. split.
  - destruct (run_once_at schedule) as [t|].
    + destruct (Z.gtb_spec t (utc_at w (tick w))) as [G|G]; split; intros K;
        try discriminate K; try lia; reflexivity.
    + destruct (interval_seconds schedule) as [n|].
      * destruct (Z.eqb_spec n 0) as [->|N]; cbn [negb].
        -- destruct (cron_expression schedule) as [[|c expr]|];
             cbn [truthy_str]; split; intros K; try discriminate K;
             try reflexivity; auto.
           destruct K as [_ [K|K]]; discriminate K.
        -- split; intros K; [discriminate K|].
           destruct K as [[K|K] _]; [discriminate K | congruence].
      * destruct (cron_expression schedule) as [[|c expr]|];
          cbn [truthy_str]; split; intros K; try discriminate K;
          try reflexivity; auto.
        destruct K as [_ [K|K]]; discriminate K.
  - intros next_run. destruct (run_once_at schedule) as [t|].
    + destruct (t >? utc_at w (tick w)); intros [= <-]. reflexivity.
    + destruct (interval_seconds schedule) as [n|].
      * destruct (n =? 0); cbn [negb].
        -- destruct (cron_expression schedule) as [expr|]; [|discriminate].
           destruct (truthy_str expr); intros [= <-]. lia.
        -- intros [= <-]. reflexivity.
      * destruct (cron_expression schedule) as [expr|]; [|discriminate].
        destruct (truthy_str expr); intros [= <-]. lia.
Qed.

End NextRunFacts.

(** ** Dictionaries: other keys and [del] *)

Module DictMore.
Import SchedulerJobs.
Section DictMore.

Variable V : Type.
Implicit Types (d : Dict V) (k : string) (v : V).

Lemma get_set_other d k k' v : k' <> k -> get (set d k v) k' = get d k'.
Proof.
  intros N. induction d as [|[k0 v0] d IH]; cbn.
  - destruct (String.eqb_spec k' k); [contradiction | reflexivity].
  - destruct (String.eqb_spec k k0) as [->|N0]; cbn.
    + destruct (String.eqb_spec k' k0); [contradiction | reflexivity].
    + destruct (String.eqb_spec k' k0); [reflexivity | exact IH].
Qed.

Lemma get_none_keys d k : get d k = None <-> ~ In k (keys d).
Proof.
  induction d as [|[k0 v0] d IH]; cbn.
  - split; [intros _ [] | reflexivity].
  - destruct (String.eqb_spec k k0) as [->|N].
    + split; [discriminate | intros H; exfalso; apply H; now left].
    + rewrite IH. split; intros H; [intros [C|C]; [congruence | auto] | auto].
Qed.

Lemma get_del_other d k k' : k' <> k -> get (del d k) k' = get d k'.
Proof.
  intros N. induction d as [|[k0 v0] d IH]; cbn; [reflexivity|].
  destruct (String.eqb_spec k k0) as [->|N0]; cbn.
  - destruct (String.eqb_spec k' k0); [contradiction | reflexivity].
  - destruct (String.eqb_spec k' k0); [reflexivity | exact IH].
Qed.

Lemma keys_del_incl d k : incl (keys (del d k)) (keys d).
Proof.
  induction d as [|[k0 v0] d IH]; cbn; [easy|].
  destruct (String.eqb_spec k k0) as [->|N0]; cbn.
  - apply incl_tl, incl_refl.
  - intros x [<-|H]; [now left | right; now apply IH].
Qed.

Lemma wf_del d k : wf d -> wf (del d k).
Proof.
  unfold wf. induction d as [|[k0 v0] d IH]; cbn; [easy|].
  intros W. apply NoDup_cons_iff in W as [F W].
  destruct (String.eqb_spec k k0) as [->|N0]; cbn; [exact W|].
  constructor; [|now apply IH]. intros C. apply F. now apply (keys_del_incl d k).
Qed.

Lemma get_del_same d k : wf d -> get (del d k) k = None.
Proof.
  unfold wf. induction d as [|[k0 v0] d IH]; cbn; [reflexivity|].
  intros W. apply NoDup_cons_iff in W as [F W].
  destruct (String.eqb_spec k k0) as [->|N0]; cbn.
  - now apply get_none_keys.
  - destruct (String.eqb_spec k k0); [contradiction | now apply IH].
Qed.

Lemma del_missing d k : get d k = None -> del d k = d.
Proof.
  induction d as [|[k0 v0] d IH]; cbn; [reflexivity|].
  destruct (String.eqb_spec k k0) as [->|N0]; [discriminate|].
  intros H. now rewrite IH.
Qed.

Lemma len_del d k :
  len (del d k) = len d - (if mem k d then 1 else 0).
Proof.
  unfold mem, len. induction d as [|[k0 v0] d IH]; cbn [del get]; [reflexivity|].
  destruct (String.eqb_spec k k0) as [->|N0].
  - cbn [List.length]. lia.
  - cbn [List.length]. destruct (get d k); lia.
Qed.

(** What is stored under a new key and deleted again leaves the
    dictionary as it was. *)
Lemma del_set_fresh d k v : get d k = None -> del (set d k v) k = d.
Proof.
  induction d as [|[k0 v0] d IH]; cbn.
  - now rewrite String.eqb_refl.
  - destruct (String.eqb_spec k k0) as [->|N0]; [discriminate|].
    intros H. cbn. destruct (String.eqb_spec k k0); [contradiction|].
    now rewrite IH.
Qed.

Lemma len_set d k v :
  len (set d k v) = len d + (if mem k d then 0 else 1).
Proof.
  unfold mem, len. induction d as [|[k0 v0] d IH]; cbn [set get]; [reflexivity|].
  destruct (String.eqb_spec k k0) as [->|N0].
  - cbn [List.length]. lia.
  - cbn [List.length]. destruct (get d k); lia.
Qed.

End DictMore.
End DictMore.

(** ** Sorting and pages *)

Module SortFacts.
Import PyList.
Section SortFacts.

Variable A : Type.
Variable key : A -> Z.
Implicit Types (l : list A) (x : A).

Lemma insert_desc_perm x l : Permutation (insert_desc key x l) (x :: l).
Proof.
  induction l as [|y l IH]; cbn [insert_desc]; [reflexivity|].
  destruct (key y >? key x); [|reflexivity].
  rewrite IH. apply perm_swap.
Qed.

Lemma sort_desc_perm l : Permutation (sort_desc key l) l.
Proof.
  unfold sort_desc. induction l as [|x l IH]; cbn [fold_right]; [reflexivity|].
  rewrite insert_desc_perm. now constructor.
Qed.

Lemma insert_desc_sorted x l :
  StronglySorted (fun a b => key b <= key a) l ->
  StronglySorted (fun a b => key b <= key a) (insert_desc key x l).
Proof.
  induction l as [|y l IH]; cbn [insert_desc]; intros S.
  - repeat constructor.
  - apply StronglySorted_inv in S as [S F].
    destruct (Z.gtb_spec (key y) (key x)) as [G|G].
    + constructor; [now apply IH|].
      eapply Permutation_Forall;
        [apply Permutation_sym, insert_desc_perm|].
      constructor; [lia | exact F].
    + constructor; [now constructor|].
      constructor; [exact G|].
      eapply Forall_impl; [|exact F]. cbn. intros z Hz. lia.
Qed.

Lemma sort_desc_sorted l :
  StronglySorted (fun a b => key b <= key a) (sort_desc key l).
Proof.
  unfold sort_desc. induction l as [|x l IH]; cbn [fold_right].
  - constructor.
  - now apply insert_desc_sorted.
Qed.

End SortFacts.

Section Pages.

Variable A : Type.
Variable R : A -> A -> Prop.
Implicit Types (l : list A).

Lemma sorted_skipn l (n : nat) :
  StronglySorted R l -> StronglySorted R (skipn n l).
Proof.
  revert l. induction n as [|n IH]; intros [|x l] S; cbn [skipn]; try exact S.
  apply IH. now apply StronglySorted_inv in S.
Qed.

Lemma Forall_firstn (P : A -> Prop) l (n : nat) :
  Forall P l -> Forall P (firstn n l).
Proof.
  revert l. induction n as [|n IH]; intros [|x l] F; cbn [firstn];
    try constructor.
  - now apply Forall_inv in F.
  - apply IH. now apply Forall_inv_tail in F.
Qed.

Lemma sorted_firstn l (n : nat) :
  StronglySorted R l -> StronglySorted R (firstn n l).
Proof.
  revert l. induction n as [|n IH]; intros [|x l] S; cbn [firstn];
    try constructor.
  - apply IH. now apply StronglySorted_inv in S.
  - apply Forall_firstn. now apply StronglySorted_inv in S.
Qed.

Lemma sorted_slice l (start stop : Z) :
  StronglySorted R l -> StronglySorted R (slice l start stop).
Proof. intros S. unfold slice. now apply sorted_firstn, sorted_skipn. Qed.

Lemma firstn_add (p q : nat) l :
  firstn (p + q) l = firstn p l ++ firstn q (skipn p l).
Proof.
  revert l. induction p as [|p IH]; intros [|x l]; cbn [Nat.add firstn skipn app];
    try reflexivity.
  - now rewrite firstn_nil.
  - now rewrite IH.
Qed.

Lemma skipn_add (p q : nat) l : skipn (p + q) l = skipn q (skipn p l).
Proof.
  revert l. induction p as [|p IH]; intros [|x l]; cbn [Nat.add skipn];
    try reflexivity.
  - now rewrite skipn_nil.
  - apply IH.
Qed.

(** The slice between bounds that are not negative. *)
Lemma slice_nonneg l (start stop : Z) :
  0 <= start -> 0 <= stop ->
  slice l start stop =
  firstn (Z.to_nat (stop - start)) (skipn (Z.to_nat start) l).
Proof.
  intros H H'. unfold slice, bound.
  destruct (Z.ltb_spec start 0), (Z.ltb_spec stop 0); try lia.
  destruct (Z.le_gt_cases (len l) start) as [L|L].
  - rewrite !skipn_all2 by (unfold len in *; lia). now rewrite !firstn_nil.
  - rewrite (Z.min_l start) by lia.
    destruct (Z.le_gt_cases stop (len l)) as [L'|L'].
    + now rewrite (Z.min_l stop) by lia.
    + rewrite (Z.min_r stop) by lia.
      rewrite !firstn_all2; [reflexivity | |];
        rewrite length_skipn; unfold len in *; lia.
Qed.

(** Two pages that follow each other make up the page of both. *)
Lemma slice_pages l (offset a b : Z) :
  0 <= offset -> 0 <= a -> 0 <= b ->
  slice l offset (offset + a) ++ slice l (offset + a) (offset + a + b) =
  slice l offset (offset + (a + b)).
Proof.
  intros Ho Ha Hb. rewrite !slice_nonneg by lia.
  replace (Z.to_nat (offset + (a + b) - offset))
    with (Z.to_nat a + Z.to_nat b)%nat by lia.
  rewrite firstn_add. f_equal; [f_equal; lia|].
  rewrite <- skipn_add. f_equal; [lia | f_equal; lia].
Qed.

Lemma slice_len l (offset limit : Z) :
  0 <= offset -> 0 <= limit ->
  len (slice l offset (offset + limit)) =
  Z.min limit (Z.max 0 (len l - offset)).
Proof.
  intros Ho Hl. rewrite slice_nonneg by lia. unfold len.
  rewrite length_firstn, length_skipn. lia.
Qed.

End Pages.

End SortFacts.

(** ** The jobs of the scheduler *)

Module JobFacts.
Import SchedulerService SchedulerJobs PyList EnvFacts SetFacts DictMore
       SortFacts SliceFacts Samples JobSamples.

Lemma next_run_out (s : Schedule) (w : World) :
  _calculate_next_run s w =
  mkOut (value (_calculate_next_run s w)) (next w) [].
Proof.
  unfold _calculate_next_run, mbind. cbn [utcnow value world events].
  destruct (run_once_at s); reflexivity.
Qed.

Lemma next_run_ok (s : Schedule) (w : World) :
  exists r, value (_calculate_next_run s w) = Ok r.
Proof. rewrite NextRunFacts.next_run_value. eauto. Qed.

Lemma schedule_job_value (self : t) (job_create : JobCreate) (w : World) :
  exists next_run,
    value (_calculate_next_run (jc_schedule job_create) (next (next (next w))))
      = Ok next_run /\
    value (schedule_job self job_create w) =
    Ok (let job :=
          mkJob (uuid_at w (S (tick w))) (jc_task_name job_create)
                (jc_schedule job_create) (jc_args job_create)
                (jc_kwargs job_create) PENDING
                (utc_at w (S (S (tick w)))) (utc_at w (S (S (tick w))))
                next_run (jc_timeout_seconds job_create)
                (jc_max_retries job_create)
                (jc_retry_delay_seconds job_create) None in
        (job, mkService (set (_jobs self) (uuid_at w (S (tick w))) job)
                        (_scheduler_running self))).
Proof.
  destruct (next_run_ok (jc_schedule job_create) (next (next (next w))))
    as [r Er].
  exists r. split; [exact Er|].
  unfold schedule_job.
  rewrite value_mbind. cbn [time_time value world].
  rewrite value_mbind. cbn [uuid4 value world].
  rewrite value_mbind. cbn [utcnow value world].
  rewrite value_mbind, next_run_out. cbn [value world]. rewrite Er.
  reflexivity.
Qed.

(** X14.  The job that [schedule_job] returns, when it returns one: it
    has the identifier that was drawn, is pending, was created and updated
    at the same time, and carries the task name and the schedule of the
    request and the next run that [_calculate_next_run] gives for this
    schedule.  [get_job] then finds this very job under its id, no other
    id of the store is touched, and the store has one job more unless it
    held the id. *)
Theorem schedule_job_then_get_job
  (self : t) (job_create : JobCreate) (w : World) (job : Job) (self' : t) :
  value (schedule_job self job_create w) = Ok (job, self') ->
  id job = uuid_at w (S (tick w)) /\
  status job = PENDING /\
  created_at job = updated_at job /\
  task_name job = jc_task_name job_create /\
  schedule job = jc_schedule job_create /\
  value (_calculate_next_run (jc_schedule job_create) (next (next (next w))))
    = Ok (next_run_time job) /\
  (forall w', value (get_job self' (id job) w') = Ok (Some job)) /\
  (forall other w',
      other <> id job ->
      value (get_job self' other w') = value (get_job self other w')) /\
  len (_jobs self') =
    len (_jobs self) + (if mem (id job) (_jobs self) then 0 else 1).
Proof.
  intros H.
  destruct (schedule_job_value self job_create w) as (r & Er & E).
  cbv zeta in E. rewrite E in H. injection H as <- <-.
  cbn [id status created_at updated_at task_name schedule next_run_time
       _jobs].
  repeat split; try exact Er.
  - intros w'. unfold get_job, ret. cbn [value _jobs].
    now rewrite get_set_same.
  - intros other w' N. unfold get_job, ret. cbn [value _jobs].
    now rewrite get_set_other.
  - apply len_set.
Qed.

Example schedule_job_then_get_job_witness :
  exists job self',
    value (schedule_job three_jobs sample_create w0) = Ok (job, self') /\
    id job = uuid_at w0 (S (tick w0)) /\
    status job = PENDING /\
    created_at job = updated_at job /\
    task_name job = jc_task_name sample_create /\
    schedule job = jc_schedule sample_create /\
    value (_calculate_next_run (jc_schedule sample_create)
             (next (next (next w0)))) = Ok (next_run_time job) /\
    (forall w', value (get_job self' (id job) w') = Ok (Some job)) /\
    (forall other w',
        other <> id job ->
        value (get_job self' other w') = value (get_job three_jobs other w')) /\
    len (_jobs self') =
      len (_jobs three_jobs) +
      (if mem (id job) (_jobs three_jobs) then 0 else 1).
Proof.
  do 2 eexists. split; [reflexivity|].
  apply (schedule_job_then_get_job three_jobs sample_create w0).
  reflexivity.
Defined.

(** X15.  [delete_job] answers whether the store held the id.  After it
    the id is not found, every other id is found as before, and the store
    has one job less exactly when the answer is [True]; an id that the
    store does not hold leaves the service unchanged. *)
Theorem delete_job_removes (self : t) (job_id : string) (w : World) :
  wf (_jobs self) ->
  exists self',
    value (delete_job self job_id w) = Ok (mem job_id (_jobs self), self') /\
    (forall w', value (get_job self' job_id w') = Ok None) /\
    (forall other w',
        other <> job_id ->
        value (get_job self' other w') = value (get_job self other w')) /\
    len (_jobs self') =
      len (_jobs self) - (if mem job_id (_jobs self) then 1 else 0) /\
    (mem job_id (_jobs self) = false -> self' = self) /\
    wf (_jobs self').
Proof.
  intros W. unfold delete_job.
  destruct (mem job_id (_jobs self)) eqn:Em.
  - eexists. split; [reflexivity|]. cbn [_jobs]. repeat split.
    + intros w'. unfold get_job, ret. cbn [value _jobs].
      now rewrite get_del_same.
    + intros other w' N. unfold get_job, ret. cbn [value _jobs].
      now rewrite get_del_other.
    + rewrite len_del, Em. reflexivity.
    + discriminate.
    + now apply wf_del.
  - exists self. split; [reflexivity|]. repeat split; try assumption.
    + intros w'. unfold get_job, ret. cbn [value].
      unfold mem in Em. now destruct (get (_jobs self) job_id).
    + lia.
Qed.

Example delete_job_removes_witness :
  exists self',
    value (delete_job three_jobs "b" w0) = Ok (true, self') /\
    (forall w', value (get_job self' "b" w') = Ok None) /\
    (forall other w',
        other <> "b"%string ->
        value (get_job self' other w') = value (get_job three_jobs other w')) /\
    len (_jobs self') = 3 - 1 /\
    (true = false -> self' = three_jobs) /\
    wf (_jobs self').
Proof.
  apply (delete_job_removes three_jobs "b" w0).
  unfold wf. cbn. repeat constructor; cbn; intuition discriminate.
Defined.

(** X16.  When [schedule_job] has returned a job whose id is new to the
    store, deleting this id gives back the store as it was: [delete_job]
    answers [True] and the jobs are those from before, in their order. *)
Theorem schedule_then_delete_restores
  (self : t) (job_create : JobCreate) (w w' : World) (job : Job) (self1 : t) :
  value (schedule_job self job_create w) = Ok (job, self1) ->
  get (_jobs self) (id job) = None ->
  exists self2,
    value (delete_job self1 (id job) w') = Ok (true, self2) /\
    _jobs self2 = _jobs self /\
    _scheduler_running self2 = _scheduler_running self.
Proof.
  intros H F.
  destruct (schedule_job_value self job_create w) as (r & Er & E).
  cbv zeta in E. rewrite E in H. injection H as <- <-.
  cbn [id] in *. unfold delete_job. cbn [_jobs _scheduler_running].
  unfold mem. rewrite get_set_same.
  eexists. split; [reflexivity|]. cbn [_jobs _scheduler_running].
  split; [|reflexivity]. now apply del_set_fresh.
Qed.

Example schedule_then_delete_restores_witness :
  exists job self1 self2,
    value (schedule_job three_jobs sample_create w0) = Ok (job, self1) /\
    value (delete_job self1 (id job) w0) = Ok (true, self2) /\
    _jobs self2 = _jobs three_jobs /\
    _scheduler_running self2 = _scheduler_running three_jobs.
Proof.
  do 2 eexists.
  assert (E : value (schedule_job three_jobs sample_create w0) =
              Ok (?[job], ?[self1])) by reflexivity.
  destruct (schedule_then_delete_restores three_jobs sample_create w0 w0
              _ _ E eq_refl) as (self2 & D & J & R).
  exists self2. repeat split; assumption.
Defined.

Lemma list_jobs_value (self : t) (status_ : option JobStatus)
  (limit offset : Z) (w : World) :
  value (list_jobs self status_ limit offset w) =
  Ok (slice
        (sort_desc created_at
           match status_ with
           | Some st =>
               filter (fun job => JobStatus_eqb (status job) st)
                      (values (_jobs self))
           | None => values (_jobs self)
           end)
        offset (offset + limit)).
Proof. reflexivity. Qed.

Lemma JobStatus_eqb_eq (a b : JobStatus) : JobStatus_eqb a b = true <-> a = b.
Proof. destruct a, b; cbn; split; congruence. Qed.

(** X17.  A page of [list_jobs], for a limit and an offset that are not
    negative: its jobs are jobs of the store, all of the status that was
    asked for, the most recently created first; there are as many as the
    limit allows of those that the offset leaves. *)
Theorem list_jobs_page (self : t) (status_ : option JobStatus)
  (limit offset : Z) (w : World) :
  0 <= limit -> 0 <= offset ->
  exists page,
    value (list_jobs self status_ limit offset w) = Ok page /\
    Forall (fun job =>
              In job (values (_jobs self)) /\
              forall st, status_ = Some st -> status job = st) page /\
    StronglySorted (fun a b => created_at b <= created_at a) page /\
    len page =
      Z.min limit
        (Z.max 0
           (len (filter (fun job =>
                           match status_ with
                           | Some st => JobStatus_eqb (status job) st
                           | None => true
                           end) (values (_jobs self))) - offset)).
Proof.
  intros Hl Ho. rewrite list_jobs_value. eexists. split; [reflexivity|].
  set (filtered := match status_ with Some st => _ | None => _ end).
  assert (Ef : filtered =
               filter (fun job =>
                         match status_ with
                         | Some st => JobStatus_eqb (status job) st
                         | None => true
                         end) (values (_jobs self))).
  { subst filtered. destruct status_ as [st|]; [reflexivity|].
    symmetry. apply forallb_filter_id. now apply forallb_forall. }
  repeat split.
  - apply Forall_forall. intros job Hj.
    apply slice_incl in Hj.
    apply (Permutation_in _ (sort_desc_perm _ created_at filtered)) in Hj.
    rewrite Ef in Hj. apply filter_In in Hj as [Hin Hst]. split; [exact Hin|].
    intros st ->. now apply JobStatus_eqb_eq.
  - apply sorted_slice, sort_desc_sorted.
  - rewrite slice_len by assumption. rewrite <- Ef.
    unfold len. now rewrite (Permutation_length (sort_desc_perm _ created_at filtered)).
Qed.

Example list_jobs_page_witness :
  exists page,
    value (list_jobs three_jobs (Some PENDING) 1 0 w0) = Ok page /\
    Forall (fun job =>
              In job (values (_jobs three_jobs)) /\
              forall st, Some PENDING = Some st -> status job = st) page /\
    StronglySorted (fun a b => created_at b <= created_at a) page /\
    len page =
      Z.min 1
        (Z.max 0
           (len (filter (fun job => JobStatus_eqb (status job) PENDING)
                        (values (_jobs three_jobs))) - 0)).
Proof.
  apply (list_jobs_page three_jobs (Some PENDING) 1 0 w0); lia.
Defined.

(** X18.  Pages that follow each other neither repeat nor skip a job:
    the page of [a] jobs at an offset, followed by the page of [b] jobs
    right after it, is the page of [a + b] jobs at this offset. *)
Theorem list_jobs_pages_join (self : t) (status_ : option JobStatus)
  (offset a b : Z) (w : World) :
  0 <= offset -> 0 <= a -> 0 <= b ->
  exists first second,
    value (list_jobs self status_ a offset w) = Ok first /\
    value (list_jobs self status_ b (offset + a) w) = Ok second /\
    value (list_jobs self status_ (a + b) offset w) = Ok (first ++ second).
Proof.
  intros Ho Ha Hb. rewrite !list_jobs_value. do 2 eexists.
  split; [reflexivity|]. split; [reflexivity|].
  f_equal. symmetry. now apply slice_pages.
Qed.

Example list_jobs_pages_join_witness :
  exists first second,
    value (list_jobs three_jobs None 1 0 w0) = Ok first /\
    value (list_jobs three_jobs None 2 (0 + 1) w0) = Ok second /\
    value (list_jobs three_jobs None (1 + 2) 0 w0) = Ok (first ++ second).
Proof.
  apply (list_jobs_pages_join three_jobs None 0 1 2 w0); lia.
Defined.

(** X19.  [trigger_job] never answers [True].  For an id that the store
    does not hold it answers [False] and changes nothing.  For a job of
    the store it stops at the name [random], which the module never
    imports: the job stays in the store as running, with the time of the
    call as its last run and its update time unchanged, and no other id
    is touched. *)
Theorem trigger_job_never_completes (self : t) (job_id : string) (w : World) :
  exists outcome self',
    value (trigger_job self job_id w) = Ok (outcome, self') /\
    outcome <> Returns true /\
    match get (_jobs self) job_id with
    | None => outcome = Returns false /\ self' = self
    | Some job =>
        outcome = RaisesNameError "random" /\
        get (_jobs self') job_id =
          Some (with_last_run_time (with_status job RUNNING)
                                   (utc_at w (tick w))) /\
        (forall other,
            other <> job_id ->
            get (_jobs self') other = get (_jobs self) other) /\
        keys (_jobs self') = keys (_jobs self)
    end.
Proof.
  unfold trigger_job. destruct (get (_jobs self) job_id) as [job|] eqn:G.
  - do 2 eexists. split; [reflexivity|]. split; [discriminate|].
    cbn [_jobs]. split; [reflexivity|]. split; [apply get_set_same|].
    split.
    + intros other N. now apply get_set_other.
    + apply keys_set_in. destruct (in_keys_dec _ job_id (_jobs self)) as [I|N];
        [exact I|]. apply get_none_keys in N. congruence.
  - do 2 eexists. split; [reflexivity|]. split; [discriminate|]. now split.
Qed.

End JobFacts.

(** ** The vector service: embeddings, collections, errors *)

Module VectorMore.
Import VectorService VectorCollections EnvFacts SetFacts DictMore Samples
       VectorDefs VectorMoreDefs.

Lemma embedding_dimension_positive (model : string) :
  0 < _get_embedding_dimension model.
Proof.
  unfold _get_embedding_dimension. cbn [get].
  repeat match goal with
         | |- context [String.eqb ?a ?b] => destruct (String.eqb a b)
         end; lia.
Qed.

Section WithNumpy.

Variable np_linalg_norm : list Q -> Q.

Lemma embed_text_shape self request model dim text w :
  exists e,
    value (embed_text np_linalg_norm self request model dim text w) = Ok e /\
    Embedding.text e = text /\ Embedding.model e = model /\
    Embedding.dimensions e = dim /\
    List.length (Embedding.vector e) = Z.to_nat dim.
Proof.
  unfold embed_text, random_vector.
  destruct (_use_mlx self), (EmbedRequest.normalize request);
    eexists; (split; [reflexivity|]); cbn;
    now rewrite ?length_map, length_seq.
Qed.

Lemma Forall2_map_eq {X Y} (f : Y -> X) (xs : list X) (ys : list Y) :
  Forall2 (fun x y => f y = x) xs ys -> map f ys = xs.
Proof. induction 1; cbn; congruence. Qed.

Lemma Forall2_Forall_r {X Y} (P : Y -> Prop) (xs : list X) (ys : list Y) :
  Forall2 (fun _ y => P y) xs ys -> Forall P ys.
Proof. induction 1; constructor; assumption. Qed.

(** X20.  [create_embeddings] never fails.  It returns one embedding per
    text, in the order of the texts, each with the text it stands for, the
    model of the request (the default model when the request names none)
    and a vector that has as many numbers as the table of dimensions gives
    for this model; the metadata reports this model, this dimension, the
    [normalize] flag and the number of texts as batch size. *)
Theorem create_embeddings_shape
  (self : t) (request : EmbedRequest.t) (w : World) :
  let texts :=
    match EmbedRequest.text request with Texts l => l | OneText s => [s] end in
  let model :=
    match EmbedRequest.model request with
    | Some m => if truthy_str m then m else _default_model self
    | None => _default_model self
    end in
  exists resp,
    value (create_embeddings np_linalg_norm self request w) = Ok resp /\
    map Embedding.text (EmbedResponse.embeddings resp) = texts /\
    Forall (fun e =>
              Embedding.model e = model /\
              Embedding.dimensions e = _get_embedding_dimension model /\
              len (Embedding.vector e) = Embedding.dimensions e)
           (EmbedResponse.embeddings resp) /\
    EmbeddingMetadata.model (EmbedResponse.metadata resp) = model /\
    EmbeddingMetadata.dimensions (EmbedResponse.metadata resp) =
      _get_embedding_dimension model /\
    EmbeddingMetadata.normalized (EmbedResponse.metadata resp) =
      EmbedRequest.normalize request /\
    EmbeddingMetadata.batch_size (EmbedResponse.metadata resp) =
      Some (len texts).
Proof.
  intros texts model. unfold create_embeddings. fold texts. fold model.
  rewrite value_mbind. cbn [time_time value world].
  rewrite value_mbind.
  destruct (for_each_Forall2
              (embed_text np_linalg_norm self request model
                          (_get_embedding_dimension model))
              (fun text e =>
                 Embedding.text e = text /\ Embedding.model e = model /\
                 Embedding.dimensions e = _get_embedding_dimension model /\
                 List.length (Embedding.vector e) =
                   Z.to_nat (_get_embedding_dimension model))
              (embed_text_shape self request model
                                (_get_embedding_dimension model))
              texts (next w)) as (es & Ees & F).
  rewrite Ees. cbn.
  eexists. split; [reflexivity|]. cbn. repeat split.
  - apply Forall2_map_eq. eapply Forall2_impl; [|exact F].
    intros a b (H & _). exact H.
  - apply (Forall2_Forall_r _ texts). eapply Forall2_impl; [|exact F].
    cbn. intros a b (_ & Hm & Hd & Hl). repeat split; try assumption.
    unfold len. rewrite Hl, Hd.
    pose proof (embedding_dimension_positive model). lia.
Qed.


Lemma query_vector_len self q w :
  exists v,
    value (match q with
           | QueryText s =>
               embed_response <--
                 create_embeddings np_linalg_norm self
                   (EmbedRequest.mk (OneText s) None true []) ;;
               match EmbedResponse.embeddings embed_response with
               | e :: _ => ret (Embedding.vector e)
               | [] => raise (IndexError "list index out of range")
               end
           | QueryVector v => ret v
           end w) = Ok v /\
    len v = query_dimension self q.
Proof.
  destruct q as [s|v]; [|eexists; split; reflexivity].
  unfold create_embeddings. cbn [EmbedRequest.text EmbedRequest.model].
  rewrite !value_mbind. cbn [time_time value world].
  rewrite !value_mbind. cbn [for_each].
  rewrite !value_mbind.
  destruct (embed_text_shape self (EmbedRequest.mk (OneText s) None true [])
              (_default_model self)
              (_get_embedding_dimension (_default_model self)) s
              (next w)) as (e & Ee & _ & _ & _ & El).
  rewrite Ee. cbn. eexists. split; [reflexivity|].
  unfold len. rewrite El.
  pose proof (embedding_dimension_positive (_default_model self)). lia.
Qed.

Lemma search_record_shape self request query_vector i w :
  exists r,
    value (search_record self request query_vector i w) = Ok r /\
    VectorRecord.id r = ("doc-" ++ uuid_at w (S (S (tick w))))%string /\
    match VectorRecord.vector r with
    | Some v => wants_vectors request = true /\ len v = len query_vector
    | None => wants_vectors request = false
    end /\
    keys (VectorRecord.metadata r) =
      ["title"; "url"; "timestamp"; "summary"; "tags"]%string.
Proof.
  unfold search_record, random_vector, wants_vectors.
  destruct (_use_mlx self);
    (eexists; split; [reflexivity|]; cbn;
     split; [reflexivity|]; split; [|reflexivity];
     destruct (get (VectorSearchRequest.parameters request) "include_vectors")
       as [v|]; [destruct (truthy_any v)|]; cbn; try reflexivity;
     split; [reflexivity|]; unfold len;
     rewrite length_map, length_seq; lia).
Qed.

(** What a search against a configured database does, step by step. *)
Lemma vector_search_run (self : t) (request : VectorSearchRequest.t)
  (w : World) :
  _vector_db_type self <> ""%string ->
  exists query_vector collections results md,
    value (vector_search np_linalg_norm self request w) =
      Ok (VectorSearchResponse.mk results md,
          with_collections self collections) /\
    len query_vector =
      query_dimension self (VectorSearchRequest.query request) /\
    match get (_collections self) (VectorSearchRequest.collection request) with
    | Some _ => collections = _collections self
    | None =>
        exists at_,
          collections =
          set (_collections self) (VectorSearchRequest.collection request)
              (mkCollectionInfo (len query_vector) "hnsw" 1000 at_ None)
    end /\
    Forall2 (fun i r =>
               exists w',
                 value (search_record self request query_vector i w') = Ok r)
            (range (VectorSearchRequest.num_results request)) results /\
    VectorSearchMetadata.collection md =
      VectorSearchRequest.collection request /\
    (forall info,
        get collections (VectorSearchRequest.collection request) = Some info ->
        VectorSearchMetadata.vector_dimensions md = dimension info /\
        VectorSearchMetadata.index_type md = index_type info /\
        VectorSearchMetadata.total_vectors_searched md = vector_count info).
Proof.
  intros Hdb. unfold vector_search.
  destruct (_vector_db_type self) as [|c db] eqn:Edb; [congruence|].
  cbn [truthy_str negb].
  rewrite value_mbind. cbn [time_time value world].
  rewrite value_mbind.
  destruct (query_vector_len self (VectorSearchRequest.query request) (next w))
    as (qv & Eqv & Lqv).
  rewrite Eqv. rewrite value_mbind.
  set (name := VectorSearchRequest.collection request).
  set (w1 := world _).
  set (colls := if negb (mem _ _) then _ else _).
  assert (Ec : exists c,
             value (colls w1) = Ok c /\
             match get (_collections self) name with
             | Some _ => c = _collections self
             | None =>
                 exists at_,
                   c = set (_collections self) name
                           (mkCollectionInfo (len qv) "hnsw" 1000 at_ None)
             end).
  { subst colls. unfold mem.
    destruct (get (_collections self) name); cbn [negb].
    - eexists. split; reflexivity.
    - eexists. split; [reflexivity|]. eexists. reflexivity. }
  destruct Ec as (c' & Ec & Hc). rewrite Ec. rewrite value_mbind.
  destruct (for_each_Forall2
              (search_record self request qv)
              (fun i r =>
                 exists w', value (search_record self request qv i w') = Ok r)
              (fun i w' =>
                 match search_record_shape self request qv i w' with
                 | ex_intro _ r (conj E _) =>
                     ex_intro _ r (conj E (ex_intro _ w' E))
                 end)
              (range (VectorSearchRequest.num_results request))
              (world (colls w1))) as (rs & Ers & F).
  rewrite Ers. cbn.
  exists qv, c'. do 2 eexists. split; [reflexivity|]. cbn.
  repeat split; try assumption.
  all: fold name in H; rewrite H; reflexivity.
Qed.

(** X21.  A search against a configured database never fails for want of
    a collection.  A collection that the service knows is left as it is
    and its dimension, index type and number of vectors are reported,
    whatever the length of the query vector.  A collection that it does
    not know is registered, with 1000 vectors, the index type [hnsw] and
    the length of the query vector as dimension (for a text, the dimension
    of the default model), and reported so.  No other collection
    changes. *)
Theorem vector_search_collection
  (self : t) (request : VectorSearchRequest.t) (w : World) :
  let name := VectorSearchRequest.collection request in
  let dim := query_dimension self (VectorSearchRequest.query request) in
  _vector_db_type self <> ""%string ->
  exists resp self',
    value (vector_search np_linalg_norm self request w) = Ok (resp, self') /\
    VectorSearchMetadata.collection (VectorSearchResponse.metadata resp) =
      name /\
    (forall other,
        other <> name ->
        get (_collections self') other = get (_collections self) other) /\
    exists info,
      get (_collections self') name = Some info /\
      VectorSearchMetadata.vector_dimensions
        (VectorSearchResponse.metadata resp) = dimension info /\
      VectorSearchMetadata.index_type
        (VectorSearchResponse.metadata resp) = index_type info /\
      VectorSearchMetadata.total_vectors_searched
        (VectorSearchResponse.metadata resp) = vector_count info /\
      match get (_collections self) name with
      | Some old => info = old /\ _collections self' = _collections self
      | None =>
          dimension info = dim /\ index_type info = "hnsw"%string /\
          vector_count info = 1000 /\ description info = None
      end.
Proof.
  intros name dim Hdb.
  destruct (vector_search_run self request w Hdb)
    as (qv & colls & rs & md & E & Lqv & Hc & _ & Hn & Hmd).
  fold name in Hc, Hn, Hmd. fold dim in Lqv.
  do 2 eexists. split; [exact E|]. cbn.
  split; [exact Hn|].
  destruct (get (_collections self) name) as [old|] eqn:G.
  - subst colls. split; [reflexivity|].
    exists old. destruct (Hmd old G) as (H1 & H2 & H3).
    repeat split; assumption.
  - destruct Hc as (at_ & ->). split.
    + intros other N. now apply get_set_other.
    + eexists. split; [apply get_set_same|].
      destruct (Hmd _ (get_set_same _ _ _ _)) as (H1 & H2 & H3).
      cbn in *. repeat split; assumption.
Qed.

(** X22.  Every record that a search returns has an id that starts with
    [doc-] and a metadata dictionary with the five keys [title], [url],
    [timestamp], [summary] and [tags].  It has no vector, unless the
    parameter [include_vectors] of the request is true: then it has one of
    the length of the query vector. *)
Theorem vector_search_records
  (self : t) (request : VectorSearchRequest.t) (w : World) :
  _vector_db_type self <> ""%string ->
  exists resp self',
    value (vector_search np_linalg_norm self request w) = Ok (resp, self') /\
    Forall (fun r =>
              (exists uuid, VectorRecord.id r = ("doc-" ++ uuid)%string) /\
              match VectorRecord.vector r with
              | Some v =>
                  wants_vectors request = true /\
                  len v =
                    query_dimension self (VectorSearchRequest.query request)
              | None => wants_vectors request = false
              end /\
              keys (VectorRecord.metadata r) =
                ["title"; "url"; "timestamp"; "summary"; "tags"]%string)
           (VectorSearchResponse.results resp).
Proof.
  intros Hdb.
  destruct (vector_search_run self request w Hdb)
    as (qv & colls & rs & md & E & Lqv & _ & F & _).
  do 2 eexists. split; [exact E|]. cbn.
  apply (Forall2_Forall_r _ (range (VectorSearchRequest.num_results request))).
  eapply Forall2_impl; [|exact F]. cbn.
  intros i r (w' & Er).
  destruct (search_record_shape self request qv i w') as (r' & Er' & Hid & Hv & Hk).
  rewrite Er in Er'. injection Er' as <-.
  split; [eexists; exact Hid|]. split; [|exact Hk].
  rewrite <- Lqv. exact Hv.
Qed.

(** X23.  Without a database type the three operations on collections
    raise [ValueError] at once: nothing is read, logged or changed. *)
Theorem unconfigured_database_raises
  (self : t) (search_request : VectorSearchRequest.t)
  (upsert_request : UpsertVectorsRequest.t) (w : World) :
  _vector_db_type self = ""%string ->
  vector_search np_linalg_norm self search_request w =
    mkOut (Raise (ValueError "Vector database is not configured")) w [] /\
  upsert_vectors self upsert_request w =
    mkOut (Raise (ValueError "Vector database is not configured")) w [] /\
  list_collections self w =
    mkOut (Raise (ValueError "Vector database is not configured")) w [].
Proof.
  intros E. unfold vector_search, upsert_vectors, list_collections.
  rewrite E. repeat split.
Qed.

End WithNumpy.

Example vector_search_collection_witness :
  exists resp self',
    value (vector_search (fun _ => 1%Q) qdrant
             (VectorSearchRequest.mk (QueryVector [1%Q; 2%Q; 3%Q])
                                     "test_collection" 5 None [])
             w0) = Ok (resp, self') /\
    VectorSearchMetadata.collection (VectorSearchResponse.metadata resp) =
      "test_collection"%string /\
    (forall other,
        other <> "test_collection"%string ->
        get (_collections self') other = get (_collections qdrant) other) /\
    exists info,
      get (_collections self') "test_collection" = Some info /\
      VectorSearchMetadata.vector_dimensions
        (VectorSearchResponse.metadata resp) = dimension info /\
      VectorSearchMetadata.index_type
        (VectorSearchResponse.metadata resp) = index_type info /\
      VectorSearchMetadata.total_vectors_searched
        (VectorSearchResponse.metadata resp) = vector_count info /\
      (dimension info = 3 /\ index_type info = "hnsw"%string /\
       vector_count info = 1000 /\ description info = None).
Proof.
  apply (vector_search_collection (fun _ => 1%Q) qdrant
           (VectorSearchRequest.mk (QueryVector [1%Q; 2%Q; 3%Q])
                                   "test_collection" 5 None [])
           w0).
  discriminate.
Defined.

Example vector_search_records_witness :
  exists resp self',
    value (vector_search (fun _ => 1%Q) qdrant
             (VectorSearchRequest.mk (QueryVector [1%Q; 2%Q; 3%Q])
                "test_collection" 2 None
                [("include_vectors"%string, ABool true)])
             w0) = Ok (resp, self') /\
    Forall (fun r =>
              (exists uuid, VectorRecord.id r = ("doc-" ++ uuid)%string) /\
              match VectorRecord.vector r with
              | Some v => true = true /\ len v = 3
              | None => true = false
              end /\
              keys (VectorRecord.metadata r) =
                ["title"; "url"; "timestamp"; "summary"; "tags"]%string)
           (VectorSearchResponse.results resp).
Proof.
  apply (vector_search_records (fun _ => 1%Q) qdrant
           (VectorSearchRequest.mk (QueryVector [1%Q; 2%Q; 3%Q])
              "test_collection" 2 None
              [("include_vectors"%string, ABool true)])
           w0).
  discriminate.
Defined.

Example unconfigured_database_raises_witness :
  vector_search (fun _ => 1%Q) unconfigured
    (VectorSearchRequest.mk (QueryText "Python programming")
                            "test_collection" 5 None []) w0 =
    mkOut (Raise (ValueError "Vector database is not configured")) w0 [] /\
  upsert_vectors unconfigured
    (UpsertVectorsRequest.mk "test_collection" three_vectors true) w0 =
    mkOut (Raise (ValueError "Vector database is not configured")) w0 [] /\
  list_collections unconfigured w0 =
    mkOut (Raise (ValueError "Vector database is not configured")) w0 [].
Proof.
  apply (unconfigured_database_raises (fun _ => 1%Q) unconfigured
           (VectorSearchRequest.mk (QueryText "Python programming")
                                   "test_collection" 5 None [])
           (UpsertVectorsRequest.mk "test_collection" three_vectors true) w0).
  reflexivity.
Defined.

(** What an upsert that is let through does to the collections. *)
Lemma upsert_vectors_run (self : t) (request : UpsertVectorsRequest.t)
  (w : World) :
  let name := UpsertVectorsRequest.collection request in
  let vectors := UpsertVectorsRequest.vectors request in
  _vector_db_type self <> ""%string ->
  mem name (_collections self) = true \/
  UpsertVectorsRequest.create_collection request = true ->
  exists resp self' info,
    value (upsert_vectors self request w) = Ok (resp, self') /\
    _vector_db_type self' = _vector_db_type self /\
    get (_collections self') name = Some info /\
    (forall other,
        other <> name ->
        get (_collections self') other = get (_collections self) other) /\
    match get (_collections self) name with
    | Some old =>
        info = mkCollectionInfo (dimension old) (index_type old)
                                (vector_count old + len vectors)
                                (created_at old) (description old)
    | None =>
        exists at_,
          info = mkCollectionInfo
                   match vectors with
                   | first :: _ =>
                       match VectorRecord.vector first with
                       | Some (x :: v) => len (x :: v)
                       | Some [] | None => 384
                       end
                   | [] => 384
                   end "hnsw" (0 + len vectors) at_ None
    end.
Proof.
  intros name vectors Hdb Hc. unfold upsert_vectors.
  destruct (_vector_db_type self) as [|c db] eqn:Edb; [congruence|].
  cbn [truthy_str negb].
  rewrite value_mbind. cbn [time_time value world]. fold name. fold vectors.
  destruct (mem name (_collections self)) eqn:Em; cbn [negb].
  - apply mem_get in Em. destruct Em as (old & Ei).
    rewrite value_mbind. cbn [ret value world].
    rewrite Ei. cbn.
    do 3 eexists. split; [reflexivity|]. cbn.
    split; [exact Edb|]. split; [apply get_set_same|]. split; [|reflexivity].
    intros other N. now apply get_set_other.
  - destruct Hc as [Hc|Hc]; [discriminate|]. rewrite Hc. cbn [negb].
    assert (En : get (_collections self) name = None).
    { unfold mem in Em. now destruct (get (_collections self) name). }
    rewrite En. rewrite !value_mbind. cbn [utcnow ret value world].
    rewrite get_set_same. cbn.
    do 3 eexists. split; [reflexivity|]. cbn.
    split; [exact Edb|]. split; [apply get_set_same|]. split.
    + intros other N. now rewrite !get_set_other.
    + eexists. reflexivity.
Qed.

Lemma upsert_refused (self : t) (request : UpsertVectorsRequest.t)
  (w : World) :
  _vector_db_type self <> ""%string ->
  mem (UpsertVectorsRequest.collection request) (_collections self) = false ->
  UpsertVectorsRequest.create_collection request = false ->
  upsert_vectors self request w =
  mkOut (Raise (ValueError
                  "Collection {request.collection} does not exist and create_collection is False"))
        (next w) [].
Proof.
  intros Hdb Em Hc. unfold upsert_vectors.
  destruct (_vector_db_type self) as [|c db] eqn:Edb; [congruence|].
  cbn [truthy_str negb]. rewrite Em, Hc. reflexivity.
Qed.

(** X24.  An upsert into a collection that the service does not know,
    without [create_collection], raises [ValueError]; it has read the
    clock once and logged nothing. *)
Theorem upsert_unknown_collection_raises
  (self : t) (request : UpsertVectorsRequest.t) (w : World) :
  _vector_db_type self <> ""%string ->
  mem (UpsertVectorsRequest.collection request) (_collections self) = false ->
  UpsertVectorsRequest.create_collection request = false ->
  value (upsert_vectors self request w) =
    Raise (ValueError
             "Collection {request.collection} does not exist and create_collection is False") /\
  world (upsert_vectors self request w) = next w /\
  events (upsert_vectors self request w) = [].
Proof.
  intros Hdb Em Hc. rewrite (upsert_refused self request w Hdb Em Hc).
  repeat split.
Qed.

Example upsert_unknown_collection_raises_witness :
  value (upsert_vectors qdrant
           (UpsertVectorsRequest.mk "test_collection" three_vectors false)
           w0) =
    Raise (ValueError
             "Collection {request.collection} does not exist and create_collection is False") /\
  world (upsert_vectors qdrant
           (UpsertVectorsRequest.mk "test_collection" three_vectors false)
           w0) = next w0 /\
  events (upsert_vectors qdrant
            (UpsertVectorsRequest.mk "test_collection" three_vectors false)
            w0) = [].
Proof.
  apply (upsert_unknown_collection_raises qdrant
           (UpsertVectorsRequest.mk "test_collection" three_vectors false) w0);
    [discriminate | reflexivity | reflexivity].
Defined.

(** X25.  The collection that an upsert creates has the length of the
    first vector of the request as its dimension, and 384 when the request
    has no vector or its first record has none or an empty one; it counts
    the vectors of the request.  A collection that exists keeps its
    dimension, whatever the lengths of the new vectors.  Other collections
    are not touched. *)
Theorem upsert_collection_dimension
  (self : t) (request : UpsertVectorsRequest.t) (w : World) :
  let name := UpsertVectorsRequest.collection request in
  let vectors := UpsertVectorsRequest.vectors request in
  _vector_db_type self <> ""%string ->
  mem name (_collections self) = true \/
  UpsertVectorsRequest.create_collection request = true ->
  exists resp self' info,
    value (upsert_vectors self request w) = Ok (resp, self') /\
    get (_collections self') name = Some info /\
    (forall other,
        other <> name ->
        get (_collections self') other = get (_collections self) other) /\
    match get (_collections self) name with
    | Some old =>
        dimension info = dimension old /\ index_type info = index_type old /\
        created_at info = created_at old /\
        description info = description old
    | None =>
        vector_count info = len vectors /\
        index_type info = "hnsw"%string /\
        match vectors with
        | [] => dimension info = 384
        | first :: _ =>
            match VectorRecord.vector first with
            | None | Some [] => dimension info = 384
            | Some v => dimension info = len v
            end
        end
    end.
Proof.
  intros name vectors Hdb Hc.
  destruct (upsert_vectors_run self request w Hdb Hc)
    as (resp & self' & info & E & _ & G & Ho & Hi).
  fold name in G, Ho, Hi. fold vectors in Hi.
  exists resp, self', info. split; [exact E|]. split; [exact G|].
  split; [exact Ho|].
  destruct (get (_collections self) name) as [old|].
  - subst info. cbn. repeat split.
  - destruct Hi as (at_ & ->). cbn. split; [reflexivity|]. split; [reflexivity|].
    destruct vectors as [|first rest]; [reflexivity|].
    destruct (VectorRecord.vector first) as [[|x v]|]; reflexivity.
Qed.

Example upsert_collection_dimension_witness :
  exists resp self' info,
    value (upsert_vectors qdrant
             (UpsertVectorsRequest.mk "test_collection" three_vectors true)
             w0) = Ok (resp, self') /\
    get (_collections self') "test_collection" = Some info /\
    (forall other,
        other <> "test_collection"%string ->
        get (_collections self') other = get (_collections qdrant) other) /\
    (vector_count info = 3 /\ index_type info = "hnsw"%string /\
     dimension info = 2).
Proof.
  apply (upsert_collection_dimension qdrant
           (UpsertVectorsRequest.mk "test_collection" three_vectors true) w0);
    [discriminate | right; reflexivity].
Defined.

(** X26.  A search that follows an upsert into the same collection
    reports, as the number of vectors searched, the number that the
    collection recorded before the upsert plus the number of vectors of
    the upsert, and leaves the collections as the upsert left them. *)
Theorem upsert_then_search_counts
  (np_linalg_norm : list Q -> Q) (self : t)
  (upsert_request : UpsertVectorsRequest.t)
  (search_request : VectorSearchRequest.t) (w w' : World) :
  let name := UpsertVectorsRequest.collection upsert_request in
  _vector_db_type self <> ""%string ->
  mem name (_collections self) = true \/
  UpsertVectorsRequest.create_collection upsert_request = true ->
  VectorSearchRequest.collection search_request = name ->
  exists upserted self1 found self2,
    value (upsert_vectors self upsert_request w) = Ok (upserted, self1) /\
    value (vector_search np_linalg_norm self1 search_request w') =
      Ok (found, self2) /\
    VectorSearchMetadata.total_vectors_searched
      (VectorSearchResponse.metadata found) =
      recorded_count self name +
      len (UpsertVectorsRequest.vectors upsert_request) /\
    _collections self2 = _collections self1.
Proof.
  intros name Hdb Hc Hn.
  destruct (upsert_vectors_run self upsert_request w Hdb Hc)
    as (resp & self1 & info & E & Edb & G & _ & Hi).
  fold name in G, Hi.
  assert (Hdb1 : _vector_db_type self1 <> ""%string) by congruence.
  destruct (vector_search_run np_linalg_norm self1 search_request w' Hdb1)
    as (qv & colls & rs & md & E2 & _ & Hcs & _ & _ & Hmd).
  rewrite Hn in Hcs, Hmd. rewrite G in Hcs. subst colls.
  exists resp, self1. do 2 eexists. split; [exact E|]. split; [exact E2|].
  cbn. split; [|reflexivity].
  destruct (Hmd info G) as (_ & _ & ->).
  unfold recorded_count.
  destruct (get (_collections self) name) as [old|].
  - subst info. reflexivity.
  - destruct Hi as (at_ & ->). reflexivity.
Qed.

Example upsert_then_search_counts_witness :
  exists upserted self1 found self2,
    value (upsert_vectors qdrant
             (UpsertVectorsRequest.mk "test_collection" three_vectors true)
             w0) = Ok (upserted, self1) /\
    value (vector_search (fun _ => 1%Q) self1
             (VectorSearchRequest.mk (QueryText "Python programming")
                                     "test_collection" 5 None [])
             w0) = Ok (found, self2) /\
    VectorSearchMetadata.total_vectors_searched
      (VectorSearchResponse.metadata found) = 0 + 3 /\
    _collections self2 = _collections self1.
Proof.
  apply (upsert_then_search_counts (fun _ => 1%Q) qdrant
           (UpsertVectorsRequest.mk "test_collection" three_vectors true)
           (VectorSearchRequest.mk (QueryText "Python programming")
                                   "test_collection" 5 None [])
           w0 w0);
    [discriminate | right; reflexivity | reflexivity].
Defined.

Lemma Forall2_map_both {X Y K} (f : Y -> K) (g : X -> K)
  (xs : list X) (ys : list Y) :
  Forall2 (fun x y => f y = g x) xs ys -> map f ys = map g xs.
Proof. induction 1; cbn; congruence. Qed.

Lemma collection_entry_out (e : string * CollectionInfo) (w : World) :
  collection_entry e w =
  mkOut (Ok (mkCollectionEntry (fst e) (vector_count (snd e))
               (dimension (snd e)) (created_at (snd e))
               match description (snd e) with
               | Some d => d
               | None => ("Collection " ++ fst e)%string
               end
               (index_type (snd e))))
        (next w) [].
Proof. destruct e as [name info]. reflexivity. Qed.

Lemma for_each_collection_entry (d : Dict CollectionInfo) (w : World) :
  exists entries,
    value (for_each collection_entry d w) = Ok entries /\
    Forall2 (fun e entry =>
               VectorCollections.name entry = fst e /\
               entry_vector_count entry = vector_count (snd e) /\
               entry_dimension entry = dimension (snd e) /\
               entry_created_at entry = created_at (snd e) /\
               entry_index_type entry = index_type (snd e) /\
               entry_description entry =
                 match description (snd e) with
                 | Some d => d
                 | None => ("Collection " ++ fst e)%string
                 end)
            d entries.
Proof.
  apply for_each_Forall2. intros e w'. rewrite collection_entry_out.
  eexists. split; [reflexivity|]. cbn. repeat split.
Qed.

Lemma list_collections_run (self : t) (w : World) :
  _vector_db_type self <> ""%string ->
  exists entries,
    value (list_collections self w) =
      Ok (mkListing entries (len entries) (_vector_db_type self),
          with_collections self
            match _collections self with
            | [] => sample_collections
            | _ :: _ => _collections self
            end) /\
    Forall2 (fun e entry =>
               VectorCollections.name entry = fst e /\
               entry_vector_count entry = vector_count (snd e) /\
               entry_dimension entry = dimension (snd e) /\
               entry_created_at entry = created_at (snd e) /\
               entry_index_type entry = index_type (snd e) /\
               entry_description entry =
                 match description (snd e) with
                 | Some d => d
                 | None => ("Collection " ++ fst e)%string
                 end)
            match _collections self with
            | [] => sample_collections
            | _ :: _ => _collections self
            end entries.
Proof.
  intros Hdb. unfold list_collections.
  destruct (_vector_db_type self) as [|c db] eqn:Edb; [congruence|].
  cbn [truthy_str negb]. rewrite value_mbind.
  set (colls := match _collections self with [] => _ | _ :: _ => _ end).
  destruct (for_each_collection_entry colls w) as (entries & Ee & F).
  rewrite Ee. cbn [ret value]. exists entries. split; [reflexivity | exact F].
Qed.

(** X27.  [list_collections] of a configured service lists the
    collections of the service in their order, one entry each with the
    name, the number of vectors, the dimension, the date and the index
    type of the collection, and as description [Collection <name>] when the
    collection has none; [total_count] is the number of entries.  A service
    that has no collection lists the three sample collections, and keeps
    them: the collections after the call are the ones listed. *)
Theorem list_collections_lists (self : t) (w : World) :
  _vector_db_type self <> ""%string ->
  exists listing self',
    value (list_collections self w) = Ok (listing, self') /\
    _collections self' =
      match _collections self with
      | [] => sample_collections
      | _ :: _ => _collections self
      end /\
    total_count listing = len (collections listing) /\
    database_type listing = _vector_db_type self /\
    map VectorCollections.name (collections listing) =
      keys (_collections self') /\
    Forall2 (fun e entry =>
               VectorCollections.name entry = fst e /\
               entry_vector_count entry = vector_count (snd e) /\
               entry_dimension entry = dimension (snd e) /\
               entry_created_at entry = created_at (snd e) /\
               entry_index_type entry = index_type (snd e) /\
               entry_description entry =
                 match description (snd e) with
                 | Some d => d
                 | None => ("Collection " ++ fst e)%string
                 end)
            (_collections self') (collections listing).
Proof.
  intros Hdb. destruct (list_collections_run self w Hdb) as (entries & E & F).
  do 2 eexists. split; [exact E|].
  cbn [_collections with_collections total_count collections database_type].
  repeat split; try exact F.
  apply Forall2_map_both. eapply Forall2_impl; [|exact F].
  intros e entry (H & _). exact H.
Qed.

Example list_collections_lists_witness :
  exists listing self',
    value (list_collections qdrant w0) = Ok (listing, self') /\
    _collections self' = sample_collections /\
    total_count listing = len (collections listing) /\
    database_type listing = "qdrant"%string /\
    map VectorCollections.name (collections listing) =
      keys (_collections self') /\
    Forall2 (fun e entry =>
               VectorCollections.name entry = fst e /\
               entry_vector_count entry = vector_count (snd e) /\
               entry_dimension entry = dimension (snd e) /\
               entry_created_at entry = created_at (snd e) /\
               entry_index_type entry = index_type (snd e) /\
               entry_description entry =
                 match description (snd e) with
                 | Some d => d
                 | None => ("Collection " ++ fst e)%string
                 end)
            (_collections self') (collections listing).
Proof.
  apply (list_collections_lists qdrant w0). discriminate.
Defined.

(** X28.  Listing changes what an upsert does.  On a configured service
    without collections, an upsert into one of the sample collections
    without [create_collection] raises [ValueError]; after
    [list_collections] the same upsert succeeds, and the collection records
    the number of vectors of the sample plus those of the request. *)
Theorem listing_seeds_sample_collections
  (self : t) (request : UpsertVectorsRequest.t) (sample : CollectionInfo)
  (w w' : World) :
  let name := UpsertVectorsRequest.collection request in
  _vector_db_type self <> ""%string ->
  _collections self = [] ->
  UpsertVectorsRequest.create_collection request = false ->
  get sample_collections name = Some sample ->
  (exists e, value (upsert_vectors self request w) = Raise e) /\
  exists listing self1 upserted self2,
    value (list_collections self w) = Ok (listing, self1) /\
    value (upsert_vectors self1 request w') = Ok (upserted, self2) /\
    recorded_count self2 name =
      vector_count sample + len (UpsertVectorsRequest.vectors request).
Proof.
  intros name Hdb Hempty Hc Hs. split.
  - eexists. rewrite upsert_refused; try assumption; [reflexivity|].
    now rewrite Hempty.
  - destruct (list_collections_run self w Hdb) as (entries & E & _).
    rewrite Hempty in E.
    set (self1 := with_collections self sample_collections) in E.
    assert (Hdb1 : _vector_db_type self1 <> ""%string) by exact Hdb.
    assert (Hm : mem name (_collections self1) = true).
    { apply mem_get. exists sample. exact Hs. }
    destruct (upsert_vectors_run self1 request w' Hdb1 (or_introl Hm))
      as (resp & self2 & info & E2 & _ & G & _ & Hi).
    fold name in G, Hi. cbn [self1 _collections with_collections] in Hi.
    rewrite Hs in Hi.
    do 4 eexists. split; [exact E|]. split; [exact E2|].
    unfold recorded_count. rewrite G. now subst info.
Qed.

Example listing_seeds_sample_collections_witness :
  (exists e,
      value (upsert_vectors qdrant
               (UpsertVectorsRequest.mk "documents" three_vectors false) w0)
      = Raise e) /\
  exists listing self1 upserted self2,
    value (list_collections qdrant w0) = Ok (listing, self1) /\
    value (upsert_vectors self1
             (UpsertVectorsRequest.mk "documents" three_vectors false) w0)
      = Ok (upserted, self2) /\
    recorded_count self2 "documents" = 1250 + 3.
Proof.
  apply (listing_seeds_sample_collections qdrant
           (UpsertVectorsRequest.mk "documents" three_vectors false)
           (mkCollectionInfo 384 "hnsw" 1250 1673740800000000
                             (Some "General document collection"%string))
           w0 w0);
    [discriminate | reflexivity | reflexivity | reflexivity].
Defined.

End VectorMore.
